(** * JSON to ZIP converter: a shallow embedding and its verified properties

    The development follows the JavaScript sources:
    - [lib/zipGenerator.js]: [sanitizeFileName], [analyzeJsonStructure],
      [createFileStructure], [processJsonNode], [generateZipFromJson];
    - the JSON parser library (exports [generateTreeStructure], [TreeNode],
      [getFileExtension], [getTreeStatistics]);
    - [pages/api/generate-zip.js]: the HTTP [handler] and its local
      [processJsonStructure];
    - the later revision of the generator with [getSmartFileExtension].

    JavaScript strings are sequences of UTF-16 code units; they are modelled
    as lists of numbers, and literals are written with [js]. *)

From Stdlib Require Import NArith ZArith List Ascii String Lia SpecFloat.
From stdpp Require Import base numbers list gmap.

Local Open Scope N_scope.

(** ** JavaScript strings *)

(** A string is the list of its code units. *)
Definition jstring : Type := list N.

(** The code units of an ASCII literal. *)
Definition js (s : string) : jstring :=
  List.map N_of_ascii (list_ascii_of_string s).

Definition ch (a : ascii) : N := N_of_ascii a.

Definition underscore : N := Eval cbv in ch "_".
Definition slash : N := Eval cbv in ch "/".

(** [\s] of a regular expression, which is also what [String.prototype.trim]
    strips: the WhiteSpace and LineTerminator code points. *)
Definition is_space (c : N) : bool :=
  ((9 <=? c) && (c <=? 13)) || (c =? 32) || (c =? 160) || (c =? 5760)
  || ((8192 <=? c) && (c <=? 8202)) || (c =? 8232) || (c =? 8233)
  || (c =? 8239) || (c =? 8287) || (c =? 12288) || (c =? 65279).

(** The character class of the first replacement of [sanitizeFileName]:
    less-than, greater-than, colon, double quote, slash, backslash,
    vertical bar, question mark and asterisk. *)
Definition is_forbidden (c : N) : bool :=
  (c =? 60) || (c =? 62) || (c =? 58) || (c =? 34) || (c =? 47)
  || (c =? 92) || (c =? 124) || (c =? 63) || (c =? 42).

(** [s.replace(/[class]/g, r)]: every unit of the class becomes [r]. *)
Definition replace_each (p : N -> bool) (r : jstring) (s : jstring) : jstring :=
  flat_map (fun c => if p c then r else [c]) s.

(** [s.replace(/class+/g, r)]: every maximal run of units of the class
    becomes one [r]; [inrun] tells that the previous unit was in the class. *)
Fixpoint replace_runs (p : N -> bool) (r : jstring) (inrun : bool) (s : jstring)
  : jstring :=
  match s with
  | [] => []
  | c :: t =>
      if p c
      then (if inrun then replace_runs p r true t
            else r ++ replace_runs p r true t)
      else c :: replace_runs p r false t
  end.

Definition is_underscore (c : N) : bool := c =? underscore.

(** Removes the last unit when it is an underscore. *)
Fixpoint strip_trailing_underscore (s : jstring) : jstring :=
  match s with
  | [] => []
  | c :: t =>
      match t with
      | [] => if is_underscore c then [] else [c]
      | _ :: _ => c :: strip_trailing_underscore t
      end
  end.

(** [s.replace(/^_|_$/g, '')]: without the [m] flag, [^] matches at index 0
    only and [$] at the end only; the scan goes left to right, so the leading
    underscore is consumed first. *)
Definition strip_edge_underscores (s : jstring) : jstring :=
  strip_trailing_underscore
    match s with
    | c :: t => if is_underscore c then t else s
    | [] => []
    end.

(** [s.substring(0, n)] *)
Definition substring0 (n : nat) (s : jstring) : jstring := take n s.

Fixpoint trimStart (s : jstring) : jstring :=
  match s with
  | c :: t => if is_space c then trimStart t else s
  | [] => []
  end.

(** [s.trim()] *)
Definition trim (s : jstring) : jstring :=
  reverse (trimStart (reverse (trimStart s))).

(** ** The name sanitizer ([lib/zipGenerator.js], [sanitizeFileName]) *)

Definition sanitizeFileName (fileName : jstring) : jstring :=
  substring0 255
    (strip_edge_underscores
       (replace_runs is_underscore [underscore] false
          (replace_runs is_space [underscore] false
             (replace_each is_forbidden [underscore] fileName)))).

(** Units that the first two replacements of the sanitizer leave alone. *)
Definition clean_unit (c : N) : bool :=
  negb (is_forbidden c) && negb (is_space c).

(** No two underscores side by side. *)
Fixpoint no_double_underscore (s : jstring) : bool :=
  match s with
  | [] => true
  | c :: t =>
      negb (is_underscore c
            && match t with d :: _ => is_underscore d | [] => false end)
      && no_double_underscore t
  end.

(** What every result of [sanitizeFileName] satisfies; a trailing underscore
    is not excluded, since the truncation comes last. *)
Definition tidy (s : jstring) : Prop :=
  Forall (fun c => clean_unit c = true) s
  /\ no_double_underscore s = true
  /\ head s <> Some underscore.

(** A name of 256 units whose 255th unit is an underscore. *)
Definition long_name : jstring := repeat (ch "a") 254 ++ js "_b".

(** [s.startsWith(p)], [s.endsWith(p)] and [s.includes(p)] *)
Fixpoint startsWith (s p : jstring) : bool :=
  match p, s with
  | [], _ => true
  | _ :: _, [] => false
  | a :: p', b :: s' => (a =? b) && startsWith s' p'
  end.

Definition endsWith (s p : jstring) : bool :=
  startsWith (reverse s) (reverse p).

Fixpoint includes (s p : jstring) : bool :=
  startsWith s p
  || match s with
     | [] => false
     | _ :: t => includes t p
     end.

(** ** JSON values *)

(** A parsed JSON value. Numbers are IEEE doubles; an object lists its
    members in the order of [Object.keys]. *)
#[local] Unset Elimination Schemes.
Inductive JsonValue : Type :=
| JNull
| JBoolean (b : bool)
| JNumber (x : spec_float)
| JString (s : jstring)
| JArray (items : list JsonValue)
| JObject (members : list (jstring * JsonValue)).
#[local] Set Elimination Schemes.

(** [typeof v === 'object' && v !== null] *)
Definition is_container (v : JsonValue) : bool :=
  match v with
  | JArray _ | JObject _ => true
  | _ => false
  end.

(** JavaScript truthiness of a JSON value ([!v] is its negation). *)
Definition truthy (v : JsonValue) : bool :=
  match v with
  | JNull => false
  | JBoolean b => b
  | JNumber (S754_zero _) | JNumber S754_nan => false
  | JNumber _ => true
  | JString s => negb (Nat.eqb (length s) 0)
  | JArray _ | JObject _ => true
  end.

(** ** The host's [JSON.parse], as a recognizer of JSON texts

    Every scanner returns the rest of the input after what it accepted. *)
Module JSONText.

Definition is_ws (c : N) : bool :=
  (c =? 32) || (c =? 9) || (c =? 10) || (c =? 13).

Definition is_digit (c : N) : bool := (48 <=? c) && (c <=? 57).

Definition is_hex (c : N) : bool :=
  is_digit c || ((65 <=? c) && (c <=? 70)) || ((97 <=? c) && (c <=? 102)).

(** The units allowed after a backslash, the [u] of a unicode escape apart:
    double quote, backslash, slash, b, f, n, r, t. *)
Definition is_simple_escape (c : N) : bool :=
  (c =? 34) || (c =? 92) || (c =? 47) || (c =? 98) || (c =? 102)
  || (c =? 110) || (c =? 114) || (c =? 116).

Fixpoint skip_ws (s : jstring) : jstring :=
  match s with
  | c :: t => if is_ws c then skip_ws t else s
  | [] => []
  end.

Fixpoint skip_digits (s : jstring) : jstring :=
  match s with
  | c :: t => if is_digit c then skip_digits t else s
  | [] => []
  end.

(** One digit or more. *)
Definition scan_digits (s : jstring) : option jstring :=
  match s with
  | c :: t => if is_digit c then Some (skip_digits t) else None
  | [] => None
  end.

(** The body of a string, after its opening quote. *)
Fixpoint scan_string (s : jstring) : option jstring :=
  match s with
  | [] => None
  | c :: t =>
      if c =? 34 then Some t
      else if c =? 92 then
        match t with
        | e :: t1 =>
            if is_simple_escape e then scan_string t1
            else if e =? 117 then
              match t1 with
              | h1 :: h2 :: h3 :: h4 :: t2 =>
                  if is_hex h1 && is_hex h2 && is_hex h3 && is_hex h4
                  then scan_string t2 else None
              | _ => None
              end
            else None
        | [] => None
        end
      else if c <? 32 then None
      else scan_string t
  end.

(** Optional fraction and exponent of a number. *)
Definition scan_fraction_exponent (s : jstring) : option jstring :=
  let after_fraction :=
    match s with
    | c :: t => if c =? 46 then scan_digits t else Some s
    | [] => Some []
    end in
  match after_fraction with
  | None => None
  | Some [] => Some []
  | Some (c :: t) =>
      if (c =? 101) || (c =? 69) then
        scan_digits
          match t with
          | d :: r => if (d =? 43) || (d =? 45) then r else t
          | [] => []
          end
      else Some (c :: t)
  end.

Definition scan_number (s : jstring) : option jstring :=
  match (match s with
         | c :: t => if c =? 45 then t else s
         | [] => []
         end) with
  | c :: t =>
      if c =? 48 then scan_fraction_exponent t
      else if is_digit c then scan_fraction_exponent (skip_digits t)
      else None
  | [] => None
  end.

Definition scan_literal (lit s : jstring) : option jstring :=
  if startsWith s lit then Some (drop (length lit) s) else None.

(** A value with the white space around it. The fuel bounds the depth of
    the calls; every call consumes a unit before it calls again. *)
Fixpoint scan_value (fuel : nat) (s : jstring) : option jstring :=
  match fuel with
  | O => None
  | S fuel' =>
      let scan_array_tail :=
        fix tail (n : nat) (s : jstring) : option jstring :=
          match n with
          | O => None
          | S n' =>
              match s with
              | c :: t =>
                  if c =? 93 then Some t
                  else if c =? 44 then
                    match scan_value fuel' t with
                    | Some r => tail n' r
                    | None => None
                    end
                  else None
              | [] => None
              end
          end in
      let scan_member (s : jstring) : option jstring :=
        match skip_ws s with
        | c :: t =>
            if c =? 34 then
              match scan_string t with
              | Some r =>
                  match skip_ws r with
                  | d :: r' => if d =? 58 then scan_value fuel' r' else None
                  | [] => None
                  end
              | None => None
              end
            else None
        | [] => None
        end in
      let scan_object_tail :=
        fix tail (n : nat) (s : jstring) : option jstring :=
          match n with
          | O => None
          | S n' =>
              match s with
              | c :: t =>
                  if c =? 125 then Some t
                  else if c =? 44 then
                    match scan_member t with
                    | Some r => tail n' r
                    | None => None
                    end
                  else None
              | [] => None
              end
          end in
      let after :=
        match skip_ws s with
        | [] => None
        | c :: t =>
            if c =? 91 then
              match skip_ws t with
              | d :: r =>
                  if d =? 93 then Some r
                  else
                    match scan_value fuel' t with
                    | Some r' => scan_array_tail (length r') r'
                    | None => None
                    end
              | [] => None
              end
            else if c =? 123 then
              match skip_ws t with
              | d :: r =>
                  if d =? 125 then Some r
                  else
                    match scan_member t with
                    | Some r' => scan_object_tail (length r') r'
                    | None => None
                    end
              | [] => None
              end
            else if c =? 34 then scan_string t
            else if c =? 116 then scan_literal (js "true") (c :: t)
            else if c =? 102 then scan_literal (js "false") (c :: t)
            else if c =? 110 then scan_literal (js "null") (c :: t)
            else scan_number (c :: t)
        end in
      match after with
      | Some r => Some (skip_ws r)
      | None => None
      end
  end.

(** [JSON.parse(text)] returns (does not throw) exactly when the whole text
    is one JSON value. *)
Definition parses (text : jstring) : bool :=
  match scan_value (S (length text)) text with
  | Some [] => true
  | _ => false
  end.

End JSONText.

(** ** The extension classifiers *)

(** [getFileExtension] of the JSON parser library. The [try] block returns
    when [JSON.parse] succeeds; the [catch] block runs when it throws. *)
Definition getFileExtension (value : JsonValue) : jstring :=
  match value with
  | JString value =>
      if JSONText.parses value then js ".json"
      else if startsWith (trim value) (js "<") && endsWith (trim value) (js ">")
      then js ".html"
      else if includes value (js "{") && includes value (js "}")
              && includes value (js ":")
      then js ".css"
      else if includes value (js "function") || includes value (js "=>")
              || includes value (js "var ") || includes value (js "const ")
      then js ".js"
      else js ".txt"
  | JNumber _ => js ".txt"
  | JBoolean _ => js ".txt"
  | _ => js ".json"
  end.

(** [getSmartFileExtension] of the later revision of the generator: the
    tests run on the trimmed string, and the JSON test comes fourth. *)
Definition getSmartFileExtension (value : JsonValue) : jstring :=
  match value with
  | JString value =>
      let trimmed := trim value in
      if startsWith trimmed (js "<") && endsWith trimmed (js ">")
      then js ".html"
      else if includes trimmed (js "{") && includes trimmed (js "}")
              && includes trimmed (js ":")
      then js ".css"
      else if includes trimmed (js "function") || includes trimmed (js "=>")
              || includes trimmed (js "const ") || includes trimmed (js "let ")
              || includes trimmed (js "var ") || includes trimmed (js "import ")
      then js ".js"
      else if JSONText.parses value then js ".json"
      else if includes trimmed (js "#") || includes trimmed (js "**")
              || includes trimmed (js "##")
      then js ".md"
      else js ".txt"
  | _ => js ".json"
  end.

(** An ordered cascade of rules: the first rule whose test holds gives the
    extension. *)
Definition Rule : Type := (jstring -> bool) * jstring.

Fixpoint first_match (rules : list Rule) (otherwise : jstring) (content : jstring)
  : jstring :=
  match rules with
  | [] => otherwise
  | (test, extension) :: rest =>
      if test content then extension else first_match rest otherwise content
  end.

Definition looks_like_html (content : jstring) : bool :=
  startsWith (trim content) (js "<") && endsWith (trim content) (js ">").

Definition looks_like_css (content : jstring) : bool :=
  includes content (js "{") && includes content (js "}")
  && includes content (js ":").

Definition includes_any (words : list jstring) (content : jstring) : bool :=
  existsb (includes content) words.

(** The cascade as the specification words it, for String values. *)
Definition spec_cascade : list Rule :=
  [ (JSONText.parses, js ".json");
    (looks_like_html, js ".html");
    (looks_like_css, js ".css");
    (includes_any [js "function"; js "=>"; js "const "; js "let "; js "var ";
                   js "import "], js ".js");
    (includes_any [js "#"; js "**"], js ".md") ].

Definition spec_classify_string (content : jstring) : jstring :=
  first_match spec_cascade (js ".txt") content.

(** The cascade that [getFileExtension] implements. *)
Definition getFileExtension_cascade : list Rule :=
  [ (JSONText.parses, js ".json");
    (looks_like_html, js ".html");
    (looks_like_css, js ".css");
    (includes_any [js "function"; js "=>"; js "var "; js "const "], js ".js") ].

(** The double quote, for JSON texts. *)
Definition dquote : jstring := [34].

(** ** Statistics ([lib/zipGenerator.js], [analyzeJsonStructure]) *)

Record Stats : Type := mkStats {
  objectCount : nat;
  arrayCount : nat;
  fileCount : nat;
  maxDepth : nat
}.

(** The body of both [forEach] callbacks. *)
Definition addStats (stats subStats : Stats) : Stats :=
  {| objectCount := objectCount stats + objectCount subStats;
     arrayCount := arrayCount stats + arrayCount subStats;
     fileCount := fileCount stats + fileCount subStats;
     maxDepth := Nat.max (maxDepth stats) (maxDepth subStats) |}.

Fixpoint analyzeJsonStructure (data : JsonValue) (depth : nat) : Stats :=
  match data with
  | JArray items =>
      fold_left
        (fun stats item => addStats stats (analyzeJsonStructure item (depth + 1)))
        items
        {| objectCount := 0; arrayCount := 1; fileCount := 0; maxDepth := depth |}
  | JObject members =>
      fold_left
        (fun stats member =>
           addStats stats (analyzeJsonStructure (snd member) (depth + 1)))
        members
        {| objectCount := 1; arrayCount := 0; fileCount := 0; maxDepth := depth |}
  | _ =>
      {| objectCount := 0; arrayCount := 0; fileCount := 1; maxDepth := depth |}
  end.

(** The number of empty objects and empty arrays that occur in a value, the
    value itself included. *)
Fixpoint emptyContainers (data : JsonValue) : nat :=
  match data with
  | JArray [] | JObject [] => 1
  | JArray items => list_sum (List.map emptyContainers items)
  | JObject members =>
      list_sum (List.map (fun member => emptyContainers (snd member)) members)
  | _ => 0
  end.

(** ** Numbers in names *)

Definition digit (d : nat) : N := 48 + N.of_nat d.

Fixpoint digits (fuel n : nat) : jstring :=
  match fuel with
  | O => []
  | S fuel' =>
      if (n <? 10)%nat then [digit n]
      else digits fuel' (n / 10) ++ [digit (n mod 10)]
  end.

(** [index.toString()] for an array index: its decimal digits. *)
Definition index_toString (index : nat) : jstring := digits (S index) index.

(** [s.padStart(targetLength, padString)] *)
Definition padStart (targetLength : nat) (padString s : jstring) : jstring :=
  let fillLength := (targetLength - length s)%nat in
  take fillLength (concat (repeat padString fillLength)) ++ s.

(** [`item_${index.toString().padStart(3, '0')}`] *)
Definition itemName (index : nat) : jstring :=
  js "item_" ++ padStart 3 (js "0") (index_toString index).

(** [`item_${index}`], as the tree preview and the HTTP handler write it. *)
Definition plainItemName (index : nat) : jstring :=
  js "item_" ++ index_toString index.

(** ** The structure preview ([lib/zipGenerator.js], [createFileStructure]) *)

Inductive NodeType : Type := folder | file.

(** A node [{ name, type, children, depth }]; the file nodes that the source
    pushes without a [children] field have the empty list here. *)
#[local] Unset Elimination Schemes.
Inductive FileNode : Type :=
| mkFileNode (name : jstring) (type : NodeType) (children : list FileNode)
             (depth : nat).
#[local] Set Elimination Schemes.

Definition node_type (node : FileNode) : NodeType :=
  match node with mkFileNode _ type _ _ => type end.
Definition node_children (node : FileNode) : list FileNode :=
  match node with mkFileNode _ _ children _ => children end.
Definition node_depth (node : FileNode) : nat :=
  match node with mkFileNode _ _ _ depth => depth end.

(** [data.forEach((item, index) => ...)] collecting what the callback
    pushes. *)
Fixpoint forEach_indexed {A B : Type} (f : A -> nat -> B) (index : nat)
  (data : list A) : list B :=
  match data with
  | [] => []
  | item :: rest => f item index :: forEach_indexed f (S index) rest
  end.

Fixpoint createFileStructure (data : JsonValue) (name : jstring) (depth : nat)
  : FileNode :=
  match data with
  | JArray items =>
      mkFileNode (sanitizeFileName name) folder
        match items with
        | [] => [mkFileNode (js "empty_array.json") file [] (depth + 1)]
        | _ :: _ =>
            forEach_indexed
              (fun item index =>
                 if is_container item
                 then createFileStructure item (itemName index) (depth + 1)
                 else mkFileNode (itemName index ++ js ".json") file []
                        (depth + 1))
              0 items
        end
        depth
  | JObject members =>
      mkFileNode (sanitizeFileName name) folder
        match members with
        | [] => [mkFileNode (js "empty_object.json") file [] (depth + 1)]
        | _ :: _ =>
            List.map
              (fun member =>
                 let sanitizedKey := sanitizeFileName (fst member) in
                 if is_container (snd member)
                 then createFileStructure (snd member) sanitizedKey (depth + 1)
                 else mkFileNode (sanitizedKey ++ js ".json") file []
                        (depth + 1))
              members
        end
        depth
  | _ => mkFileNode (name ++ js ".json") file [] depth
  end.

(** The file nodes of a tree. *)
Fixpoint fileLeaves (node : FileNode) : nat :=
  match node with
  | mkFileNode _ file _ _ => 1
  | mkFileNode _ folder children _ => list_sum (List.map fileLeaves children)
  end.


(** ** The archive library (JSZip), at the level of its table of entries *)

(** What is written into an entry. Renderings that belong to the host (the
    digits of a double, string escapes, the clock inside the README) are kept
    as terms. *)
Inductive Content : Type :=
| Text (text : jstring)
| Pretty (value : JsonValue)
| StringOf (value : JsonValue)
| Readme (rootName : jstring) (stats : Stats)
| Metadata (rootName : jstring) (jsonData : JsonValue) (stats : Stats)
| HandlerMetadata (originalStructure : JsonValue) (entries : nat).

(** [JSON.stringify(value, null, 2)] *)
Definition JSON_stringify (value : JsonValue) : Content :=
  match value with
  | JNull => Text (js "null")
  | JBoolean true => Text (js "true")
  | JBoolean false => Text (js "false")
  | JArray [] => Text (js "[]")
  | JObject [] => Text (js "{}")
  | _ => Pretty value
  end.

(** [typeof v === 'string' ? v : JSON.stringify(v, null, 2)] *)
Definition leafContent (value : JsonValue) : Content :=
  match value with
  | JString s => Text s
  | _ => JSON_stringify value
  end.

Inductive Entry : Type :=
| DirEntry
| FileEntry (data : Content).

Definition is_file_entry (e : Entry) : bool :=
  match e with FileEntry _ => true | DirEntry => false end.

Definition forceTrailingSlash (path : jstring) : jstring :=
  if endsWith path (js "/") then path else path ++ js "/".

(** [path.lastIndexOf("/")], as the number of units before the last slash. *)
Fixpoint lastSlash (path : jstring) : option nat :=
  match path with
  | [] => None
  | c :: t =>
      match lastSlash t with
      | Some i => Some (S i)
      | None => if c =? slash then Some O else None
      end
  end.

Definition parentFolder (path : jstring) : jstring :=
  let path := if endsWith path (js "/") then take (length path - 1) path
              else path in
  match lastSlash path with
  | Some (S i) => take (S i) path
  | _ => []
  end.

(** [folderAdd] and the folder half of [fileAdd]: the folder and the folders
    above it are entered unless present. Each call works on a shorter path. *)
Fixpoint folderAdd (fuel : nat) (name : jstring) (files : gmap jstring Entry)
  : gmap jstring Entry :=
  match fuel with
  | O => files
  | S fuel' =>
      let name := forceTrailingSlash name in
      match files !! name with
      | Some _ => files
      | None =>
          <[name := DirEntry]>
            match parentFolder name with
            | [] => files
            | parent => folderAdd fuel' parent files
            end
      end
  end.

(** [fileAdd] for a file with data. *)
Definition fileAdd (name : jstring) (data : Content)
  (files : gmap jstring Entry) : gmap jstring Entry :=
  <[name := FileEntry data]>
    match parentFolder name with
    | [] => files
    | parent => folderAdd (S (length name)) parent files
    end.

(** The calls made on one archive, oldest first; the names are full names,
    the root of the folder object included. *)
Inductive ZipCall : Type :=
| CallFolder (name : jstring)
| CallFile (name : jstring) (data : Content).

Definition apply_call (files : gmap jstring Entry) (call : ZipCall)
  : gmap jstring Entry :=
  match call with
  | CallFolder name => folderAdd (S (S (length name))) name files
  | CallFile name data => fileAdd name data files
  end.

(** [zip.files] after the calls. *)
Definition zip_files (calls : list ZipCall) : gmap jstring Entry :=
  fold_left apply_call calls ∅.

(** [folder.file(name, data)] on the folder object with root [root]. *)
Definition zip_file (root name : jstring) (data : Content)
  (zip : list ZipCall) : list ZipCall :=
  zip ++ [CallFile (root ++ name) data].

(** [folder.folder(name)]: the root of the new folder object and the archive;
    an empty name gives back the folder object itself. *)
Definition zip_folder (root name : jstring) (zip : list ZipCall)
  : jstring * list ZipCall :=
  match name with
  | [] => (root, zip)
  | _ :: _ => (forceTrailingSlash (root ++ name), zip ++ [CallFolder (root ++ name)])
  end.

(** The names of the file writes, in order, and the file entries of a table. *)
Definition written_files (zip : list ZipCall) : list jstring :=
  omap (fun call => match call with
                    | CallFile name _ => Some name
                    | CallFolder _ => None
                    end) zip.

Definition file_entries (files : gmap jstring Entry) : gmap jstring Entry :=
  filter (fun kv => is_file_entry (snd kv) = true) files.

(** The archive that [zip.generateAsync] makes of the table, as a reader
    lists it: every entry of the table under its name. An entry whose name
    ends in a slash is a directory there, also when it was written as a file
    ([zip.file] under an empty file name writes on the name of the folder). *)
Definition generateAsync (files : gmap jstring Entry) : gmap jstring Entry :=
  map_imap
    (fun name entry =>
       Some (if endsWith name (js "/") then DirEntry else entry))
    files.

(** ** The generator ([lib/zipGenerator.js]) *)

Record Config : Type := mkConfig {
  includeMetadata : bool;
  fileExtension : jstring;
  createReadme : bool;
  timestampFiles : bool
}.

(** The options object: a field that is absent leaves the default. *)
Record Options : Type := mkOptions {
  opt_includeMetadata : option bool;
  opt_fileExtension : option jstring;
  opt_createReadme : option bool;
  opt_timestampFiles : option bool
}.

Definition no_options : Options := mkOptions None None None None.

(** [{ includeMetadata: true, fileExtension: '.json', createReadme: true,
      timestampFiles: false, ...options }] *)
Definition mergeConfig (options : Options) : Config :=
  {| includeMetadata := default true (opt_includeMetadata options);
     fileExtension := default (js ".json") (opt_fileExtension options);
     createReadme := default true (opt_createReadme options);
     timestampFiles := default false (opt_timestampFiles options) |}.

(** The replacement text of [String.prototype.replace] with a string pattern:
    the dollar sequences for the match, the text before and the text after. *)
Fixpoint expandReplacement (matched before after replacement : jstring)
  : jstring :=
  match replacement with
  | [] => []
  | c :: t =>
      if c =? 36 then
        match t with
        | d :: t' =>
            if d =? 36 then 36 :: expandReplacement matched before after t'
            else if d =? 38 then matched ++ expandReplacement matched before after t'
            else if d =? 96 then before ++ expandReplacement matched before after t'
            else if d =? 39 then after ++ expandReplacement matched before after t'
            else 36 :: expandReplacement matched before after t
        | [] => [36]
        end
      else c :: expandReplacement matched before after t
  end.

(** [s.replace(pattern, replacement)] with a string pattern: the first
    occurrence only. [before] holds the units already passed. *)
Fixpoint replaceFirst (before s pattern replacement : jstring) : jstring :=
  if startsWith s pattern
  then before
       ++ expandReplacement pattern before (drop (length pattern) s) replacement
       ++ drop (length pattern) s
  else match s with
       | [] => before
       | c :: t => replaceFirst (before ++ [c]) t pattern replacement
       end.

(** A [for] loop over the indices of an array, threading the state. *)
Fixpoint for_indexed {A St : Type} (body : nat -> A -> St -> St) (i : nat)
  (data : list A) (state : St) : St :=
  match data with
  | [] => state
  | item :: rest => for_indexed body (S i) rest (body i item state)
  end.

Section Generator.

(** [new Date().toISOString()]: the reading of the clock after so many calls
    on the archive. *)
Variable toISOString : nat -> jstring.

(** [folder] is the root of the folder object. A JSON value is never
    [undefined], so the first test of the source is the test for [null]. *)
Fixpoint processJsonNode (folder : jstring) (data : JsonValue) (path : jstring)
  (config : Config) (zip : list ZipCall) : list ZipCall :=
  match data with
  | JNull =>
      let fileName := sanitizeFileName (js "null" ++ fileExtension config) in
      zip_file folder fileName (Text (js "null")) zip
  | JArray [] => zip_file folder (js "empty_array.json") (Text (js "[]")) zip
  | JArray items =>
      for_indexed
        (fun i item zip =>
           let itemName := itemName i in
           if is_container item then
             let subFolder := zip_folder folder itemName zip in
             processJsonNode (fst subFolder) item (path ++ js "/" ++ itemName)
               config (snd subFolder)
           else
             let fileName := sanitizeFileName (itemName ++ fileExtension config) in
             zip_file folder fileName (leafContent item) zip)
        0 items zip
  | JObject [] => zip_file folder (js "empty_object.json") (Text (js "{}")) zip
  | JObject members =>
      fold_left
        (fun zip member =>
           let sanitizedKey := sanitizeFileName (fst member) in
           let value := snd member in
           match value with
           | JObject [] =>
               let fileName :=
                 sanitizeFileName (sanitizedKey ++ fileExtension config) in
               zip_file folder fileName (JSON_stringify value) zip
           | JArray _ | JObject _ =>
               let subFolder := zip_folder folder sanitizedKey zip in
               processJsonNode (fst subFolder) value
                 (path ++ js "/" ++ sanitizedKey) config (snd subFolder)
           | _ =>
               let fileName :=
                 sanitizeFileName (sanitizedKey ++ fileExtension config) in
               let content := leafContent value in
               if timestampFiles config then
                 let timestamp :=
                   replace_each (fun c => (c =? 58) || (c =? 46)) (js "-")
                     (toISOString (length zip)) in
                 let fileNameWithTimestamp :=
                   replaceFirst [] fileName (fileExtension config)
                     (js "_" ++ timestamp ++ fileExtension config) in
                 zip_file folder fileNameWithTimestamp content zip
               else zip_file folder fileName content zip
           end)
        members zip
  | _ =>
      let fileName := sanitizeFileName (js "value" ++ fileExtension config) in
      zip_file folder fileName (leafContent data) zip
  end.

(** The calls that [generateZipFromJson] makes on a new archive. *)
Definition generateZipCalls (jsonData : JsonValue) (rootName : jstring)
  (options : Options) : list ZipCall :=
  let config := mergeConfig options in
  let rootFolder := zip_folder [] rootName [] in
  let zip := processJsonNode (fst rootFolder) jsonData [] config (snd rootFolder) in
  let zip :=
    if createReadme config
    then zip_file (fst rootFolder) (js "README.md")
           (Readme rootName (analyzeJsonStructure jsonData 0)) zip
    else zip in
  if includeMetadata config
  then zip_file (fst rootFolder) (js "_metadata.json")
         (Metadata rootName jsonData (analyzeJsonStructure jsonData 0)) zip
  else zip.

(** The archive that [generateZipFromJson] returns: the one generated from
    the table after the calls. The compression is not modelled. *)
Definition generateZipFromJson (jsonData : JsonValue) (rootName : jstring)
  (options : Options) : gmap jstring Entry :=
  generateAsync (zip_files (generateZipCalls jsonData rootName options)).

End Generator.

(** ** The tree preview of the JSON parser library *)

(** A [TreeNode] object. [isExpanded] is always [true] and [id] is random;
    no function below reads them, and they are left out. The [value] of a
    folder is [null]. *)
#[local] Unset Elimination Schemes.
Inductive TreeNode : Type :=
| mkTreeNode (name : jstring) (type : NodeType) (value : JsonValue)
             (children : list TreeNode).
#[local] Set Elimination Schemes.


(** The methods [getFileCount] and [getFolderCount]; [reduce] is a left fold
    from its initial value. *)
Fixpoint getFileCount (this : TreeNode) : nat :=
  match this with
  | mkTreeNode _ file _ _ => 1
  | mkTreeNode _ folder _ children =>
      fold_left (fun count child => count + getFileCount child)%nat children O
  end.

Fixpoint getFolderCount (this : TreeNode) : nat :=
  match this with
  | mkTreeNode _ type _ children =>
      let count := match type with folder => 1 | file => 0 end%nat in
      fold_left (fun total child => total + getFolderCount child)%nat
        children count
  end.

(** The local function [createTreeNode] of [generateTreeStructure]. *)
Fixpoint createTreeNode (data : JsonValue) (name parentPath : jstring)
  : TreeNode :=
  let currentPath :=
    match parentPath with
    | [] => name
    | _ :: _ => parentPath ++ js "/" ++ name
    end in
  match data with
  | JNull => mkTreeNode name file (JString (js "null")) []
  | JObject members =>
      mkTreeNode name folder JNull
        (List.map
           (fun member => createTreeNode (snd member) (fst member) currentPath)
           members)
  | JArray items =>
      mkTreeNode name folder JNull
        (forEach_indexed
           (fun item index =>
              createTreeNode item (plainItemName index) currentPath)
           0 items)
  | _ => mkTreeNode (name ++ getFileExtension data) file data []
  end.

Definition generateTreeStructure (jsonData : JsonValue) (rootName : jstring)
  : TreeNode :=
  createTreeNode jsonData rootName [].

Record TreeStats : Type := mkTreeStats {
  totalFiles : nat;
  totalFolders : nat;
  treeMaxDepth : nat;
  totalSize : nat
}.

Section Host.

(** The host's rendering of a double, [Number.prototype.toString]. *)
Variable Number_toString : spec_float -> jstring.

(** [String(value)] *)
Fixpoint String_of (value : JsonValue) : jstring :=
  match value with
  | JNull => js "null"
  | JBoolean true => js "true"
  | JBoolean false => js "false"
  | JNumber x => Number_toString x
  | JString s => s
  | JArray items =>
      concat
        (forEach_indexed
           (fun item index =>
              (match index with O => [] | S _ => js "," end)
              ++ match item with JNull => [] | _ => String_of item end)
           0 items)
  | JObject _ => js "[object Object]"
  end.

(** The local function [calculateStats] of [getTreeStatistics]; the object
    [stats] that it updates is passed along. *)
Fixpoint calculateStats (node : TreeNode) (depth : nat) (stats : TreeStats)
  : TreeStats :=
  let stats :=
    {| totalFiles := totalFiles stats;
       totalFolders := totalFolders stats;
       treeMaxDepth := Nat.max (treeMaxDepth stats) depth;
       totalSize := totalSize stats |} in
  match node with
  | mkTreeNode _ file value _ =>
      {| totalFiles := totalFiles stats + 1;
         totalFolders := totalFolders stats;
         treeMaxDepth := treeMaxDepth stats;
         totalSize :=
           totalSize stats
           + length (String_of (if truthy value then value else JString [])) |}
  | mkTreeNode _ folder _ children =>
      fold_left
        (fun stats child => calculateStats child (depth + 1) stats)
        children
        {| totalFiles := totalFiles stats;
           totalFolders := totalFolders stats + 1;
           treeMaxDepth := treeMaxDepth stats;
           totalSize := totalSize stats |}
  end.

Definition getTreeStatistics (treeNode : TreeNode) : TreeStats :=
  calculateStats treeNode 0
    {| totalFiles := 0; totalFolders := 0; treeMaxDepth := 0; totalSize := 0 |}.

End Host.

(** ** The HTTP handler ([pages/api/generate-zip.js]) *)

(** The local function [processJsonStructure]; it writes on the archive
    itself, whose root is empty. *)
Fixpoint processJsonStructure (obj : JsonValue) (currentPath : jstring)
  (zip : list ZipCall) : list ZipCall :=
  let below (segment : jstring) : jstring :=
    match currentPath with
    | [] => segment
    | _ :: _ => currentPath ++ js "/" ++ segment
    end in
  match obj with
  | JArray items =>
      for_indexed
        (fun index item zip =>
           let itemPath := below (plainItemName index) in
           if is_container item then processJsonStructure item itemPath zip
           else zip_file [] (itemPath ++ js ".txt") (StringOf item) zip)
        0 items zip
  | JObject members =>
      fold_left
        (fun zip member =>
           let sanitizedKey :=
             replace_each is_forbidden [underscore] (fst member) in
           let itemPath := below sanitizedKey in
           let value := snd member in
           match value with
           | JArray [] => snd (zip_folder [] itemPath zip)
           | JObject [] => snd (zip_folder [] itemPath zip)
           | JArray _ | JObject _ => processJsonStructure value itemPath zip
           | _ =>
               let fileExtension :=
                 match value with JString _ => js ".txt" | _ => js ".json" end in
               zip_file [] (itemPath ++ fileExtension) (leafContent value) zip
           end)
        members zip
  | _ =>
      let fileName :=
        match currentPath with [] => js "data.txt" | _ :: _ => currentPath end in
      zip_file [] fileName (StringOf obj) zip
  end.

(** What the destructuring of [req.body] yields; an absent field is
    [undefined]. *)
Record Body : Type := mkBody {
  jsonData : option JsonValue;
  zipName : option JsonValue
}.

(** A request; no body at all makes the destructuring throw. *)
Record Request : Type := mkRequest {
  method : jstring;
  body : option Body
}.

Inductive ResponseBody : Type :=
| ErrorJson (error : jstring)
| ZipBuffer (fileName : JsonValue) (files : gmap jstring Entry).

Record Response : Type := mkResponse {
  status : nat;
  sent : ResponseBody
}.

(** The test that [res.setHeader] of Node makes on the value of a header
    ([checkInvalidHeaderChar], the class [[^\t\x20-\x7e\x80-\xff]]): a unit
    other than the tab, the units 0x20 to 0x7e and the units 0x80 to 0xff is
    refused, and [setHeader] throws. *)
Definition is_header_unit (c : N) : bool :=
  (c =? 9) || ((32 <=? c) && (c <=? 126)) || ((128 <=? c) && (c <=? 255)).

Definition checkInvalidHeaderChar (value : jstring) : bool :=
  existsb (fun c => negb (is_header_unit c)) value.

Section HandlerHost.

(** The host's conversion of a number to a string, for [zipName] in the
    template of the header. *)
Variable Number_toString : spec_float -> jstring.

(** [`attachment; filename="${fileName}"`] *)
Definition contentDisposition (fileName : JsonValue) : jstring :=
  js "attachment; filename=" ++ dquote ++ String_of Number_toString fileName
  ++ dquote.

(** The handler. Everything from the destructuring of the body on is inside
    the [try]: a request without a body and a header value that [setHeader]
    refuses both end in the [catch], with status 500. *)
Definition handler (req : Request) : Response :=
  if negb (bool_decide (method req = js "POST"))
  then mkResponse 405 (ErrorJson (js "Method not allowed"))
  else
    match body req with
    | None => mkResponse 500 (ErrorJson (js "Failed to generate ZIP file"))
    | Some fields =>
        match jsonData fields with
        | None => mkResponse 400 (ErrorJson (js "JSON data is required"))
        | Some jsonData =>
            if negb (truthy jsonData)
            then mkResponse 400 (ErrorJson (js "JSON data is required"))
            else
              let zip := processJsonStructure jsonData [] [] in
              let metadata :=
                HandlerMetadata jsonData (size (zip_files zip)) in
              let zip := zip_file [] (js "_metadata.json") metadata zip in
              let zipBuffer := generateAsync (zip_files zip) in
              let fileName :=
                match zipName fields with
                | Some name =>
                    if truthy name then name
                    else JString (js "converted-json-structure.zip")
                | None => JString (js "converted-json-structure.zip")
                end in
              if checkInvalidHeaderChar (contentDisposition fileName)
              then mkResponse 500 (ErrorJson (js "Failed to generate ZIP file"))
              else mkResponse 200 (ZipBuffer fileName zipBuffer)
        end
    end.

End HandlerHost.

(** Whether a response carries an archive. *)
Definition converted (res : Response) : bool :=
  match sent res with ZipBuffer _ _ => true | ErrorJson _ => false end.

(** ** Auxiliary definitions for the statements *)

(** A clock that stands still, for the examples. *)
Definition frozen_clock (reads : nat) : jstring := js "2024-01-01T00:00:00.000Z".

(** Null, Boolean and Number. *)
Definition is_nonstring_scalar (v : JsonValue) : bool :=
  match v with
  | JNull | JBoolean _ | JNumber _ => true
  | _ => false
  end.

(** The number that a string of decimal digits denotes. *)
Definition decimal_value (s : jstring) : nat :=
  fold_left (fun acc c => 10 * acc + (N.to_nat c - 48))%nat s O.

(** Induction on JSON values, with the hypothesis for the elements of an
    array and for the values of the members of an object. *)
Definition JsonValue_ind (P : JsonValue -> Prop)
  (Hnull : P JNull)
  (Hboolean : forall b, P (JBoolean b))
  (Hnumber : forall x, P (JNumber x))
  (Hstring : forall s, P (JString s))
  (Harray : forall items, Forall P items -> P (JArray items))
  (Hobject : forall members,
      Forall (fun member => P (snd member)) members -> P (JObject members))
  : forall v, P v :=
  fix go (v : JsonValue) : P v :=
    match v with
    | JNull => Hnull
    | JBoolean b => Hboolean b
    | JNumber x => Hnumber x
    | JString s => Hstring s
    | JArray items =>
        Harray items
          ((fix all (l : list JsonValue) : Forall P l :=
              match l with
              | [] => List.Forall_nil P
              | x :: r => List.Forall_cons P x r (go x) (all r)
              end) items)
    | JObject members =>
        Hobject members
          ((fix all (l : list (jstring * JsonValue))
              : Forall (fun member => P (snd member)) l :=
              match l with
              | [] => List.Forall_nil _
              | m :: r => List.Forall_cons _ m r (go (snd m)) (all r)
              end) members)
    end.

(** The number of files written so far. *)
Definition writes (zip : list ZipCall) : nat := length (written_files zip).

(** Units that the sanitizer never touches: clean, and not an underscore. *)
Definition plain_unit (c : N) : bool := clean_unit c && negb (is_underscore c).



Definition sample_value : JsonValue :=
  JObject [(js "name", JString (js "demo"));
           (js "tags", JArray [JString (js "x"); JNull; JObject []]);
           (js "none", JArray [])].

Definition without_extras : Options :=
  mkOptions (Some false) None (Some false) None.


(** A request whose [jsonData] is the number 0. *)
Definition zero_request : Request :=
  mkRequest (js "POST")
    (Some (mkBody (Some (JNumber (S754_zero false))) None)).

(** The traversal of [getTreeStatistics] adds to the counters what the
    methods of the node count. *)
Definition stats_follow_methods (Number_toString : spec_float -> jstring)
  (node : TreeNode) : Prop :=
  forall depth stats,
    totalFiles (calculateStats Number_toString node depth stats)
    = (totalFiles stats + getFileCount node)%nat
    /\ totalFolders (calculateStats Number_toString node depth stats)
       = (totalFolders stats + getFolderCount node)%nat.

(** The JSON text of an object with the key [a] and the value 1. *)
Definition object_text : jstring :=
  js "{" ++ dquote ++ js "a" ++ dquote ++ js ":1}".


(** ** The rest of the JSON parser library *)


(** *** The objects of the class [TreeNode]

    [addChild] pushes the child object itself on the array [this.children],
    so a node can be the child of several nodes, an array can be the
    [children] of several nodes (the constructor keeps the array that it is
    given), and a node can be put below itself. For the methods of the class
    the nodes and the arrays are therefore objects in a store, named by
    references. The trees above are the stores that [createTreeNode] builds:
    there every node and every array is new. *)
Module TreeNodeObjects.

(** A node object: its fields, the field [children] being the reference of
    an array. *)
Record NodeObject : Type := mkNodeObject {
  name : jstring;
  type : NodeType;
  value : JsonValue;
  children : nat
}.

(** The store: the node objects and the arrays of references of nodes. *)
Record Store : Type := mkStore {
  nodes : gmap nat NodeObject;
  arrays : gmap nat (list nat)
}.

(** The method [addChild]: [this.children.push(child)]. Only the array
    changes. (A reference that is not in the store does not occur.) *)
Definition addChild (this child : nat) (s : Store) : Store :=
  match nodes s !! this with
  | Some node =>
      match arrays s !! children node with
      | Some array =>
          mkStore (nodes s)
            (<[children node := array ++ [child]]> (arrays s))
      | None => s
      end
  | None => s
  end.

(** One step of [reduce]: the callback adds the count of the child to the
    total, when the call on the child returns. *)
Definition add_count (count_of : nat -> option nat) (total : option nat)
  (child : nat) : option nat :=
  match total with
  | Some total =>
      match count_of child with
      | Some count => Some (total + count)%nat
      | None => None
      end
  | None => None
  end.

(** The methods [getFileCount] and [getFolderCount] on the store. [fuel]
    bounds the depth of the calls: the result is [None] when the calls go
    deeper, and a call that gives [None] for every [fuel] never returns a
    count. *)
Fixpoint getFileCount (fuel : nat) (s : Store) (this : nat) : option nat :=
  match fuel with
  | O => None
  | S fuel' =>
      match nodes s !! this with
      | Some node =>
          match type node with
          | file => Some 1%nat
          | folder =>
              match arrays s !! children node with
              | Some array =>
                  fold_left (add_count (getFileCount fuel' s)) array
                    (Some 0%nat)
              | None => None
              end
          end
      | None => None
      end
  end.

Fixpoint getFolderCount (fuel : nat) (s : Store) (this : nat) : option nat :=
  match fuel with
  | O => None
  | S fuel' =>
      match nodes s !! this with
      | Some node =>
          let count := match type node with folder => 1 | file => 0 end%nat in
          match arrays s !! children node with
          | Some array =>
              fold_left (add_count (getFolderCount fuel' s)) array (Some count)
          | None => None
          end
      | None => None
      end
  end.

(** The traversal that starts at the node [this] and goes below the nodes
    whose type satisfies [enters] reads the array [array]. [getFolderCount]
    goes below every node, [getFileCount] below the folders. *)
Inductive reads (enters : NodeType -> bool) (s : Store) (array : nat)
  : nat -> Prop :=
| reads_own (this : nat) (node : NodeObject) :
    nodes s !! this = Some node ->
    enters (type node) = true ->
    children node = array ->
    reads enters s array this
| reads_below (this : nat) (node : NodeObject) (l : list nat) (child : nat) :
    nodes s !! this = Some node ->
    enters (type node) = true ->
    arrays s !! children node = Some l ->
    child ∈ l ->
    reads enters s array child ->
    reads enters s array this.

Definition every_node (type : NodeType) : bool := true.

Definition is_folder (type : NodeType) : bool :=
  match type with folder => true | file => false end.

(** A folder [d] without children and a file [e], for the examples. *)
Definition two_nodes : Store :=
  mkStore
    {[ 0%nat := mkNodeObject (js "d") folder JNull 0;
       1%nat := mkNodeObject (js "e.txt") file (JString (js "x")) 1 ]}
    {[ 0%nat := []; 1%nat := [] ]}.

End TreeNodeObjects.

(** What [JSON.parse] does with a text: it returns the value or throws a
    [SyntaxError] with a message. *)
Inductive ParseOutcome : Type :=
| Parsed (value : JsonValue)
| Throws (message : jstring).

(** The object that [parseJsonInput] returns; [null] is [None]. *)
Record ParseResult : Type := mkParseResult {
  success : bool;
  error : option jstring;
  data : option JsonValue
}.

Section ParseInput.

(** The host's [JSON.parse]. *)
Variable JSON_parse : jstring -> ParseOutcome.

Definition parseJsonInput (jsonString : jstring) : ParseResult :=
  if Nat.eqb (length jsonString) 0 || Nat.eqb (length (trim jsonString)) 0
  then mkParseResult false (Some (js "JSON input cannot be empty")) None
  else
    match JSON_parse jsonString with
    | Parsed JNull =>
        mkParseResult false (Some (js "JSON cannot be null or undefined")) None
    | Parsed parsed => mkParseResult true None (Some parsed)
    | Throws message =>
        mkParseResult false (Some (js "Invalid JSON: " ++ message)) None
    end.

End ParseInput.

(** The class of [invalidChars] in [validateKeys]: less-than, greater-than,
    colon, double quote, vertical bar, question mark, asterisk and the
    control characters up to 31. *)
Definition is_invalid_char (c : N) : bool :=
  (c =? 60) || (c =? 62) || (c =? 58) || (c =? 34) || (c =? 124)
  || (c =? 63) || (c =? 42) || (c <=? 31).

Definition reservedNames : list jstring :=
  [js "CON"; js "PRN"; js "AUX"; js "NUL"; js "COM1"; js "COM2"; js "COM3";
   js "COM4"; js "COM5"; js "COM6"; js "COM7"; js "COM8"; js "COM9";
   js "LPT1"; js "LPT2"; js "LPT3"; js "LPT4"; js "LPT5"; js "LPT6";
   js "LPT7"; js "LPT8"; js "LPT9"].

(** The object that [validateJsonStructure] returns. *)
Record Validation : Type := mkValidation {
  isValid : bool;
  errors : list jstring;
  warnings : list jstring;
  hasWarnings : bool
}.

Definition invalidCharsWarning (key currentPath : jstring) : jstring :=
  js "Invalid characters in key " ++ dquote ++ key ++ dquote
  ++ js " at path " ++ dquote ++ currentPath ++ dquote.

Definition reservedNameWarning (key currentPath : jstring) : jstring :=
  js "Reserved system name " ++ dquote ++ key ++ dquote
  ++ js " at path " ++ dquote ++ currentPath ++ dquote.

Section Validate.

(** The host's [String.prototype.toUpperCase]. *)
Variable toUpperCase : jstring -> jstring.

(** The two tests that [validateKeys] makes on a key, with the warnings
    that they push. *)
Definition checkKey (key currentPath : jstring) (warnings : list jstring)
  : list jstring :=
  let warnings :=
    if existsb is_invalid_char key
    then warnings ++ [invalidCharsWarning key currentPath]
    else warnings in
  if bool_decide (toUpperCase key ∈ reservedNames)
  then warnings ++ [reservedNameWarning key currentPath]
  else warnings.

(** The local function [validateKeys]; the array [warnings] that it pushes
    on is passed along. [Object.keys] of an array are its indices. *)
Fixpoint validateKeys (obj : JsonValue) (path : jstring)
  (warnings : list jstring) : list jstring :=
  match obj with
  | JObject members =>
      fold_left
        (fun warnings member =>
           let key := fst member in
           let currentPath :=
             match path with [] => key | _ :: _ => path ++ js "/" ++ key end in
           let warnings := checkKey key currentPath warnings in
           if is_container (snd member)
           then validateKeys (snd member) currentPath warnings
           else warnings)
        members warnings
  | JArray items =>
      for_indexed
        (fun index item warnings =>
           let key := index_toString index in
           let currentPath :=
             match path with [] => key | _ :: _ => path ++ js "/" ++ key end in
           let warnings := checkKey key currentPath warnings in
           if is_container item
           then validateKeys item currentPath warnings
           else warnings)
        0 items warnings
  | _ => warnings
  end.

(** [JSON.stringify] does not throw on a JSON value, so the test for
    circular references adds no error. *)
Definition validateJsonStructure (jsonData : JsonValue) : Validation :=
  let errors :=
    if is_container jsonData then []
    else [js "Root element must be an object or array"] in
  let warnings :=
    if is_container jsonData then validateKeys jsonData [] [] else [] in
  {| isValid := Nat.eqb (length errors) 0;
     errors := errors;
     warnings := warnings;
     hasWarnings := negb (Nat.eqb (length warnings) 0) |}.

End Validate.


Section Flatten.

Variable Number_toString : spec_float -> jstring.



End Flatten.

(** ** The upload handler ([pages/api/cloudflare.js]) *)

(** The complement of the class of the replacement: letters, digits, the
    full stop and the hyphen. *)
Definition is_upload_safe (c : N) : bool :=
  ((97 <=? c) && (c <=? 122)) || ((65 <=? c) && (c <=? 90))
  || ((48 <=? c) && (c <=? 57)) || (c =? 46) || (c =? 45).

(** [filename.replace(/[^a-zA-Z0-9.-]/g, '_')] *)
Definition sanitizeUploadName (filename : jstring) : jstring :=
  replace_each (fun c => negb (is_upload_safe c)) [underscore] filename.

Definition R2_endpoint : jstring :=
  js "https://9cb00fa4689fceb7543968fcfbed5040.r2.cloudflarestorage.com".
Definition R2_bucketName : jstring := js "my-files".

(** What the destructuring of the body yields. *)
Record UploadBody : Type := mkUploadBody {
  filename : option JsonValue;
  contentType : option JsonValue
}.

Record UploadRequest : Type := mkUploadRequest {
  upload_method : jstring;
  upload_body : option UploadBody
}.

(** The JSON that the handler sends. The message of a caught exception
    belongs to the host and is not kept. *)
Inductive UploadReply : Type :=
| UploadError (message : jstring)
| UploadFailure
| UploadGranted (uploadUrl publicUrl key : jstring) (expiresIn : nat).

Record UploadResponse : Type := mkUploadResponse {
  upload_status : nat;
  upload_sent : UploadReply
}.

Section Upload.

(** [Date.now()], in milliseconds, and the signing of the URL, which rests
    on the host's HMAC. *)
Variable Date_now : nat.
Variable createPresignedUrl : jstring -> JsonValue -> jstring.

(** [`uploads/${Date.now()}-${sanitizedFilename}`] *)
Definition uploadKey (name : jstring) : jstring :=
  js "uploads/" ++ index_toString Date_now ++ js "-" ++ sanitizeUploadName name.

Definition uploadHandler (req : UploadRequest) : UploadResponse :=
  if negb (bool_decide (upload_method req = js "POST"))
  then mkUploadResponse 405 (UploadError (js "Method not allowed"))
  else
    match upload_body req with
    | None => mkUploadResponse 500 UploadFailure
    | Some fields =>
        match filename fields with
        | None => mkUploadResponse 400 (UploadError (js "Filename is required"))
        | Some name =>
            if negb (truthy name)
            then mkUploadResponse 400 (UploadError (js "Filename is required"))
            else
              match name with
              | JString name =>
                  let key := uploadKey name in
                  let type :=
                    match contentType fields with
                    | Some type =>
                        if truthy type then type
                        else JString (js "application/octet-stream")
                    | None => JString (js "application/octet-stream")
                    end in
                  mkUploadResponse 200
                    (UploadGranted (createPresignedUrl key type)
                       (R2_endpoint ++ js "/" ++ R2_bucketName ++ js "/" ++ key)
                       key 3600)
              | _ => mkUploadResponse 500 UploadFailure
              end
        end
    end.

End Upload.

(** ** Auxiliary definitions for the further statements *)

(** The folder nodes of a preview. *)
Fixpoint folderNodes (node : FileNode) : nat :=
  match node with
  | mkFileNode _ file _ _ => 0
  | mkFileNode _ folder children _ =>
      S (list_sum (List.map folderNodes children))
  end.

(** Every child is one level below its parent. *)
Fixpoint depths_consistent (node : FileNode) : bool :=
  match node with
  | mkFileNode _ _ children depth =>
      forallb
        (fun child =>
           Nat.eqb (node_depth child) (depth + 1) && depths_consistent child)
        children
  end.

(** A name without forbidden characters and white space. *)
Definition safe_name (name : jstring) : Prop :=
  Forall (fun c => is_forbidden c = false /\ is_space c = false) name.

(** The names of the nodes of a preview, the root first. *)
Fixpoint node_names (node : FileNode) : list jstring :=
  match node with
  | mkFileNode name _ children _ =>
      name :: concat (List.map node_names children)
  end.

Definition call_name (call : ZipCall) : jstring :=
  match call with
  | CallFolder name => name
  | CallFile name _ => name
  end.

(** The paths of the file nodes of a preview below a prefix, in order: a
    folder adds its name and a slash. *)
Fixpoint leafPaths (prefix : jstring) (node : FileNode) : list jstring :=
  match node with
  | mkFileNode name file _ _ => [prefix ++ name]
  | mkFileNode name folder children _ =>
      concat (List.map (leafPaths (prefix ++ name ++ js "/")) children)
  end.

(** The same for the children of the root, which stand for the content of
    the root folder. *)
Definition childLeafPaths (prefix : jstring) (node : FileNode) : list jstring :=
  concat (List.map (leafPaths prefix) (node_children node)).

(** The values on which the archive has the files of the preview: arrays
    have fewer than 2^32 elements; keys have at most 250 units; the key of a
    member that is an object or an array does not sanitize to the empty
    name; and no member is the empty object. *)
Fixpoint mirrored (v : JsonValue) : bool :=
  match v with
  | JArray items =>
      (N.of_nat (length items) <? 2 ^ 32) && forallb mirrored items
  | JObject members =>
      forallb
        (fun member =>
           (length (fst member) <=? 250)%nat
           && match snd member with
              | JObject [] => false
              | JObject _ | JArray _ =>
                  negb (Nat.eqb (length (sanitizeFileName (fst member))) 0)
                  && mirrored (snd member)
              | _ => true
              end)
        members
  | _ => true
  end.

(** The keys that [validateKeys] visits: the keys of the objects and the
    indices of the arrays, at every level. *)
Fixpoint visited_keys (v : JsonValue) : list jstring :=
  match v with
  | JObject members =>
      concat (List.map (fun member => fst member :: visited_keys (snd member))
                members)
  | JArray items =>
      concat (forEach_indexed
                (fun item index => index_toString index :: visited_keys item)
                0 items)
  | _ => []
  end.

(** The number of warnings that a key earns. *)
Definition key_warnings (toUpperCase : jstring -> jstring) (key : jstring)
  : nat :=
  (if existsb is_invalid_char key then 1 else 0)
  + (if bool_decide (toUpperCase key ∈ reservedNames) then 1 else 0).

(** A host whose [toUpperCase] changes the ASCII letters only, for the
    examples. *)
Definition ascii_toUpperCase (s : jstring) : jstring :=
  List.map (fun c => if (97 <=? c) && (c <=? 122) then c - 32 else c) s.

(** A parser for the examples: it knows the text [null] and the text of the
    empty array. *)
Definition toy_parse (text : jstring) : ParseOutcome :=
  if bool_decide (text = js "null") then Parsed JNull
  else if bool_decide (text = js "[]") then Parsed (JArray [])
  else Throws (js "Unexpected token").

(** ** The later revision of the generator

    It has the same functions as [lib/zipGenerator.js], with the extension
    taken from [getSmartFileExtension] instead of the configuration. *)
Module Smart.

Section Generator.

Variable toISOString : nat -> jstring.

Fixpoint processJsonNode (folder : jstring) (data : JsonValue) (path : jstring)
  (config : Config) (zip : list ZipCall) : list ZipCall :=
  match data with
  | JNull =>
      zip_file folder
        (sanitizeFileName (js "null" ++ getSmartFileExtension data))
        (Text (js "null")) zip
  | JArray [] => zip_file folder (js "empty_array.json") (Text (js "[]")) zip
  | JArray items =>
      for_indexed
        (fun i item zip =>
           let itemName := itemName i in
           if is_container item then
             let subFolder := zip_folder folder itemName zip in
             processJsonNode (fst subFolder) item (path ++ js "/" ++ itemName)
               config (snd subFolder)
           else
             let ext := getSmartFileExtension item in
             zip_file folder (sanitizeFileName (itemName ++ ext))
               (leafContent item) zip)
        0 items zip
  | JObject [] => zip_file folder (js "empty_object.json") (Text (js "{}")) zip
  | JObject members =>
      fold_left
        (fun zip member =>
           let sanitizedKey := sanitizeFileName (fst member) in
           let value := snd member in
           match value with
           | JObject [] =>
               zip_file folder (sanitizedKey ++ js ".json")
                 (JSON_stringify value) zip
           | JArray _ | JObject _ =>
               let subFolder := zip_folder folder sanitizedKey zip in
               processJsonNode (fst subFolder) value
                 (path ++ js "/" ++ sanitizedKey) config (snd subFolder)
           | _ =>
               let content := leafContent value in
               let ext := getSmartFileExtension value in
               if timestampFiles config then
                 let timestamp :=
                   replace_each (fun c => (c =? 58) || (c =? 46)) (js "-")
                     (toISOString (length zip)) in
                 zip_file folder (sanitizedKey ++ js "_" ++ timestamp ++ ext)
                   content zip
               else zip_file folder (sanitizedKey ++ ext) content zip
           end)
        members zip
  | _ =>
      let ext := getSmartFileExtension data in
      zip_file folder (sanitizeFileName (js "value" ++ ext))
        (leafContent data) zip
  end.

Definition generateZipCalls (jsonData : JsonValue) (rootName : jstring)
  (options : Options) : list ZipCall :=
  let config := mergeConfig options in
  let rootFolder := zip_folder [] rootName [] in
  let zip := processJsonNode (fst rootFolder) jsonData [] config (snd rootFolder) in
  let zip :=
    if createReadme config
    then zip_file (fst rootFolder) (js "README.md")
           (Readme rootName (analyzeJsonStructure jsonData 0)) zip
    else zip in
  if includeMetadata config
  then zip_file (fst rootFolder) (js "_metadata.json")
         (Metadata rootName jsonData (analyzeJsonStructure jsonData 0)) zip
  else zip.

Definition generateZipFromJson (jsonData : JsonValue) (rootName : jstring)
  (options : Options) : gmap jstring Entry :=
  generateAsync (zip_files (generateZipCalls jsonData rootName options)).

(** What [generateZipFile] does: it saves an archive under a file name, or
    throws an error with a message. The argument [parsedStructure] is not
    used. *)
Inductive Download : Type :=
| Saved (filename : jstring) (archive : gmap jstring Entry)
| Failed (message : jstring).

Variable JSON_parse : jstring -> ParseOutcome.

Definition generateZipFile (parsedStructure : JsonValue) (jsonInput : jstring)
  (filename : jstring) : Download :=
  match JSON_parse jsonInput with
  | Parsed jsonData =>
      Saved filename
        (generateZipFromJson jsonData (js "project")
           (mkOptions (Some true) None (Some true) (Some false)))
  | Throws message => Failed (js "Failed to generate ZIP: " ++ message)
  end.

End Generator.

Fixpoint createFileStructure (data : JsonValue) (name : jstring) (depth : nat)
  : FileNode :=
  match data with
  | JArray items =>
      mkFileNode (sanitizeFileName name) folder
        match items with
        | [] => [mkFileNode (js "empty_array.json") file [] (depth + 1)]
        | _ :: _ =>
            forEach_indexed
              (fun item index =>
                 if is_container item
                 then createFileStructure item (itemName index) (depth + 1)
                 else mkFileNode (itemName index ++ getSmartFileExtension item)
                        file [] (depth + 1))
              0 items
        end
        depth
  | JObject members =>
      mkFileNode (sanitizeFileName name) folder
        match members with
        | [] => [mkFileNode (js "empty_object.json") file [] (depth + 1)]
        | _ :: _ =>
            List.map
              (fun member =>
                 let sanitizedKey := sanitizeFileName (fst member) in
                 if is_container (snd member)
                 then createFileStructure (snd member) sanitizedKey (depth + 1)
                 else mkFileNode
                        (sanitizedKey ++ getSmartFileExtension (snd member))
                        file [] (depth + 1))
              members
        end
        depth
  | _ => mkFileNode (name ++ getSmartFileExtension data) file [] depth
  end.

End Smart.

(** Options that differ in [fileExtension] only. *)
Definition with_fileExtension (extension : option jstring) (options : Options)
  : Options :=
  mkOptions (opt_includeMetadata options) extension (opt_createReadme options)
    (opt_timestampFiles options).

(** A unit that the upload handler lets through, or the underscore that it
    puts in place of the others. *)
Definition upload_unit (c : N) : Prop :=
  is_upload_safe c = true \/ c = underscore.

(** ** The tree of the preview component ([parseJsonToTree]) *)

(** A node [{ id, name, type, path, children }] or
    [{ id, name, type, path, value }]: a folder has children and no value, a
    file has a value and no children. *)
#[local] Unset Elimination Schemes.
Inductive PreviewItem : Type :=
| mkPreviewItem (id name : jstring) (type : NodeType) (path : jstring)
                (children : list PreviewItem) (value : option JsonValue).
#[local] Set Elimination Schemes.

Definition item_id (item : PreviewItem) : jstring :=
  match item with mkPreviewItem id _ _ _ _ _ => id end.
Definition item_path (item : PreviewItem) : jstring :=
  match item with mkPreviewItem _ _ _ path _ _ => path end.

Fixpoint parseJsonToTree (data : JsonValue) (path : jstring)
  : list PreviewItem :=
  match data with
  | JArray items =>
      forEach_indexed
        (fun item index =>
           let currentPath := path ++ js "[" ++ index_toString index ++ js "]" in
           if is_container item
           then mkPreviewItem currentPath
                  (js "[" ++ index_toString index ++ js "]") folder currentPath
                  (parseJsonToTree item currentPath) None
           else mkPreviewItem (currentPath ++ js ".txt")
                  (js "[" ++ index_toString index ++ js "].txt") file
                  currentPath [] (Some item))
        0 items
  | JObject members =>
      List.map
        (fun member =>
           let key := fst member in
           let currentPath :=
             match path with [] => key | _ :: _ => path ++ js "/" ++ key end in
           if is_container (snd member)
           then mkPreviewItem currentPath key folder currentPath
                  (parseJsonToTree (snd member) currentPath) None
           else mkPreviewItem (currentPath ++ js ".txt") (key ++ js ".txt") file
                  currentPath [] (Some (snd member)))
        members
  | _ => []
  end.

(** The file nodes and the folder nodes of an item and below it. *)
Fixpoint item_files (item : PreviewItem) : nat :=
  match item with
  | mkPreviewItem _ _ file _ _ _ => 1
  | mkPreviewItem _ _ folder _ children _ =>
      list_sum (List.map item_files children)
  end.

Fixpoint item_folders (item : PreviewItem) : nat :=
  match item with
  | mkPreviewItem _ _ file _ _ _ => 0
  | mkPreviewItem _ _ folder _ children _ =>
      S (list_sum (List.map item_folders children))
  end.

(** Every item below has a path that extends the given one. *)
Fixpoint paths_extend (prefix : jstring) (item : PreviewItem) : bool :=
  match item with
  | mkPreviewItem _ _ _ path children _ =>
      startsWith path prefix && forallb (paths_extend path) children
  end.
(** * Properties *)

(** ** The sanitizer *)

Section Sanitizer.

Implicit Types (s t : jstring) (c : N).

Lemma is_underscore_spec c : is_underscore c = true <-> c = underscore.
Proof. unfold is_underscore. apply N.eqb_eq. Qed.

Lemma underscore_clean : clean_unit underscore = true.
Proof. reflexivity. Qed.

Lemma replace_each_forbidden s :
  Forall (fun c => is_forbidden c = false)
         (replace_each is_forbidden [underscore] s).
Proof.
  induction s as [|c s IH]; simpl; [constructor|].
  destruct (is_forbidden c) eqn:E; simpl; constructor; auto.
Qed.

Lemma replace_runs_space_clean s : forall b,
  Forall (fun c => is_forbidden c = false) s ->
  Forall (fun c => clean_unit c = true)
         (replace_runs is_space [underscore] b s).
Proof.
  induction s as [|c s IH]; intros b H; simpl; [constructor|].
  inversion H as [|? ? Hc Hs]; subst.
  destruct (is_space c) eqn:E.
  - destruct b; simpl; [|constructor; [reflexivity|]]; apply IH; assumption.
  - constructor; [|apply IH; assumption].
    unfold clean_unit. rewrite Hc, E. reflexivity.
Qed.

Lemma replace_runs_underscore_clean s : forall b,
  Forall (fun c => clean_unit c = true) s ->
  Forall (fun c => clean_unit c = true)
         (replace_runs is_underscore [underscore] b s).
Proof.
  induction s as [|c s IH]; intros b H; simpl; [constructor|].
  inversion H as [|? ? Hc Hs]; subst.
  destruct (is_underscore c).
  - destruct b; simpl; [|constructor; [reflexivity|]]; apply IH; assumption.
  - constructor; [assumption|apply IH; assumption].
Qed.

Lemma replace_runs_underscore_single s : forall b,
  no_double_underscore (replace_runs is_underscore [underscore] b s) = true
  /\ (b = true ->
      head (replace_runs is_underscore [underscore] b s) <> Some underscore).
Proof.
  induction s as [|c s IH]; intros b; simpl; [split; [reflexivity|discriminate]|].
  destruct (is_underscore c) eqn:E.
  - destruct (IH true) as [Hn Hh]. destruct b; [split; auto|].
    split; [|discriminate]. simpl.
    destruct (replace_runs is_underscore [underscore] true s) as [|d r] eqn:R;
      [reflexivity|].
    rewrite Hn, andb_true_r.
    destruct (is_underscore d) eqn:D; [|reflexivity].
    apply is_underscore_spec in D; subst d.
    exfalso. apply Hh; reflexivity.
  - destruct (IH false) as [Hn _]. split.
    + simpl. rewrite E. exact Hn.
    + intros _ [= ->]. discriminate.
Qed.

(** A replacement that finds nothing to replace returns its argument. *)
Lemma replace_each_id (p : N -> bool) r s :
  Forall (fun c => p c = false) s -> replace_each p r s = s.
Proof.
  induction 1 as [|c s Hc _ IH]; simpl; [reflexivity|].
  rewrite Hc. simpl. f_equal. exact IH.
Qed.

Lemma replace_runs_id (p : N -> bool) r s : forall b,
  Forall (fun c => p c = false) s -> replace_runs p r b s = s.
Proof.
  induction s as [|c s IH]; intros b H; simpl; [reflexivity|].
  inversion H as [|? ? Hc Hs]; subst. rewrite Hc. f_equal. auto.
Qed.

Lemma replace_runs_underscore_id s : forall b,
  no_double_underscore s = true ->
  (b = true -> head s <> Some underscore) ->
  replace_runs is_underscore [underscore] b s = s.
Proof.
  induction s as [|c s IH]; intros b Hn Hb; simpl; [reflexivity|].
  simpl in Hn. apply andb_true_iff in Hn as [Hc Hn].
  destruct (is_underscore c) eqn:E.
  - apply is_underscore_spec in E; subst c.
    destruct b; [exfalso; apply Hb; reflexivity|].
    simpl. f_equal. apply IH; [exact Hn|].
    intros _. destruct s as [|d s]; [discriminate|].
    simpl in Hc. intros [= ->]. discriminate.
  - f_equal. apply IH; [exact Hn|discriminate].
Qed.

(** [tidy] is closed under prefixes. *)
Lemma no_double_underscore_prefix s t :
  no_double_underscore (s ++ t) = true -> no_double_underscore s = true.
Proof.
  induction s as [|c s IH]; simpl; [reflexivity|].
  intros H. apply andb_true_iff in H as [Hc Hn].
  rewrite (IH Hn), andb_true_r.
  destruct s as [|d s]; simpl in *; [apply negb_true_iff, andb_false_r|exact Hc].
Qed.

Lemma tidy_prefix s t : tidy (s ++ t) -> tidy s.
Proof.
  intros (Hc & Hn & Hh). repeat split.
  - apply Forall_app in Hc. tauto.
  - eapply no_double_underscore_prefix; eassumption.
  - destruct s; [discriminate|exact Hh].
Qed.

Lemma strip_trailing_underscore_prefix s :
  exists t, s = strip_trailing_underscore s ++ t.
Proof.
  induction s as [|c s [t IH]]; [exists []; reflexivity|].
  destruct s as [|d s].
  - simpl. destruct (is_underscore c); eexists; reflexivity.
  - exists t. change (strip_trailing_underscore (c :: d :: s))
      with (c :: strip_trailing_underscore (d :: s)).
    simpl. f_equal. exact IH.
Qed.

Lemma tidy_strip_trailing s : tidy s -> tidy (strip_trailing_underscore s).
Proof.
  intros H. destruct (strip_trailing_underscore_prefix s) as [t E].
  rewrite E in H. eapply tidy_prefix; eassumption.
Qed.

Lemma tidy_take n s : tidy s -> tidy (take n s).
Proof.
  intros H. rewrite <- (take_drop n s) in H. eapply tidy_prefix; eassumption.
Qed.

(** The string before the truncation, and what is known of it. *)
Lemma tidy_before_truncation s :
  tidy (strip_edge_underscores
          (replace_runs is_underscore [underscore] false
             (replace_runs is_space [underscore] false
                (replace_each is_forbidden [underscore] s)))).
Proof.
  set (u := replace_runs is_underscore _ _ _).
  assert (Hc : Forall (fun c => clean_unit c = true) u).
  { apply replace_runs_underscore_clean, replace_runs_space_clean,
      replace_each_forbidden. }
  assert (Hn : no_double_underscore u = true)
    by apply replace_runs_underscore_single.
  clearbody u. unfold strip_edge_underscores. apply tidy_strip_trailing.
  destruct u as [|c u]; [repeat split; [constructor|discriminate]|].
  inversion Hc as [|? ? Hcc Hcu]; subst.
  simpl in Hn. apply andb_true_iff in Hn as [Hd Hn].
  destruct (is_underscore c) eqn:E.
  - repeat split; [exact Hcu|exact Hn|].
    destruct u as [|d u]; [discriminate|].
    simpl in Hd. intros [= ->]. discriminate.
  - repeat split; [exact Hc|simpl; rewrite E; exact Hn|].
    intros [= ->]. discriminate.
Qed.

Lemma sanitizeFileName_tidy s : tidy (sanitizeFileName s).
Proof. apply tidy_take, tidy_before_truncation. Qed.

Lemma sanitizeFileName_length s : (length (sanitizeFileName s) <= 255)%nat.
Proof. unfold sanitizeFileName, substring0. rewrite length_take. lia. Qed.

Lemma strip_trailing_underscore_length s :
  (length (strip_trailing_underscore s) <= length s)%nat.
Proof.
  destruct (strip_trailing_underscore_prefix s) as [t E].
  rewrite E at 2. rewrite length_app. lia.
Qed.

(** On a tidy string only the trailing-underscore removal can act. *)
Lemma sanitizeFileName_on_tidy s :
  tidy s -> (length s <= 255)%nat ->
  sanitizeFileName s = strip_trailing_underscore s.
Proof.
  intros (Hc & Hn & Hh) Hl. unfold sanitizeFileName.
  assert (Hf : Forall (fun c => is_forbidden c = false) s).
  { eapply Forall_impl; [exact Hc|]. intros c H. unfold clean_unit in H.
    apply andb_true_iff in H as [H _]. apply negb_true_iff in H. exact H. }
  assert (Hw : Forall (fun c => is_space c = false) s).
  { eapply Forall_impl; [exact Hc|]. intros c H. unfold clean_unit in H.
    apply andb_true_iff in H as [_ H]. apply negb_true_iff in H. exact H. }
  rewrite (replace_each_id _ _ _ Hf), (replace_runs_id _ _ _ _ Hw).
  rewrite replace_runs_underscore_id by (exact Hn || discriminate).
  unfold strip_edge_underscores, substring0.
  assert (E : s = match s with
                  | c :: t => if is_underscore c then t else s
                  | [] => []
                  end).
  { destruct s as [|c s]; [reflexivity|].
    destruct (is_underscore c) eqn:E; [|reflexivity].
    apply is_underscore_spec in E; subst c. exfalso. apply Hh; reflexivity. }
  rewrite <- E. apply take_ge.
  pose proof (strip_trailing_underscore_length s). lia.
Qed.

(** A second pass only removes a trailing underscore. *)
Lemma sanitizeFileName_twice s :
  sanitizeFileName (sanitizeFileName s)
  = strip_trailing_underscore (sanitizeFileName s).
Proof.
  apply sanitizeFileName_on_tidy;
    [apply sanitizeFileName_tidy|apply sanitizeFileName_length].
Qed.

Lemma strip_trailing_underscore_fixed s :
  strip_trailing_underscore s = s <-> last s <> Some underscore.
Proof.
  induction s as [|c s IH]; [split; [discriminate|reflexivity]|].
  destruct s as [|d s].
  - simpl. destruct (is_underscore c) eqn:E.
    + apply is_underscore_spec in E; subst c. split; [discriminate|].
      intros H; exfalso; apply H; reflexivity.
    + split; [|reflexivity]. intros _ [= ->]. discriminate.
  - change (strip_trailing_underscore (c :: d :: s))
      with (c :: strip_trailing_underscore (d :: s)).
    change (last (c :: d :: s)) with (last (d :: s)).
    rewrite <- IH. split; [intros [= H]; exact H|intros ->; reflexivity].
Qed.

Lemma strip_trailing_underscore_last s :
  no_double_underscore s = true ->
  last (strip_trailing_underscore s) <> Some underscore.
Proof.
  induction s as [|c s IH]; [discriminate|].
  intros H. simpl in H. apply andb_true_iff in H as [Hc Hn].
  destruct s as [|d s].
  - simpl. destruct (is_underscore c) eqn:E; [discriminate|].
    intros [= ->]. discriminate.
  - change (strip_trailing_underscore (c :: d :: s))
      with (c :: strip_trailing_underscore (d :: s)).
    destruct (strip_trailing_underscore (d :: s)) as [|e r] eqn:R.
    + (* [d :: s] was a single underscore, so [c] is not one *)
      destruct s as [|? ?]; [|discriminate R].
      cbn [strip_trailing_underscore] in R.
      destruct (is_underscore d) eqn:D; [|discriminate R].
      rewrite andb_true_r in Hc. apply negb_true_iff in Hc.
      cbn [last]. intros [= ->]. discriminate.
    + change (last (c :: e :: r)) with (last (e :: r)). apply IH, Hn.
Qed.

Lemma replace_runs_length (p : N -> bool) c s : forall b,
  (length (replace_runs p [c] b s) <= length s)%nat.
Proof.
  induction s as [|d s IH]; intros b; simpl; [lia|].
  destruct (p d); [destruct b|]; simpl;
    [specialize (IH true)|specialize (IH true)|specialize (IH false)]; lia.
Qed.

Lemma replace_each_length (p : N -> bool) c s :
  length (replace_each p [c] s) = length s.
Proof.
  induction s as [|d s IH]; simpl; [reflexivity|].
  destruct (p d); simpl; rewrite IH; reflexivity.
Qed.

Lemma strip_edge_underscores_last s :
  no_double_underscore s = true ->
  last (strip_edge_underscores s) <> Some underscore.
Proof.
  intros H. unfold strip_edge_underscores.
  apply strip_trailing_underscore_last.
  destruct s as [|c s]; [reflexivity|].
  destruct (is_underscore c); [|exact H].
  simpl in H. apply andb_true_iff in H. tauto.
Qed.

Lemma strip_edge_underscores_length s :
  (length (strip_edge_underscores s) <= length s)%nat.
Proof.
  unfold strip_edge_underscores.
  etransitivity; [apply strip_trailing_underscore_length|].
  destruct s as [|c s]; [reflexivity|].
  destruct (is_underscore c); simpl; lia.
Qed.

(** Up to 255 units nothing is cut, and the result has no trailing
    underscore. *)
Lemma sanitizeFileName_short_last s :
  (length s <= 255)%nat -> last (sanitizeFileName s) <> Some underscore.
Proof.
  intros Hl. unfold sanitizeFileName, substring0.
  rewrite take_ge.
  - apply strip_edge_underscores_last, replace_runs_underscore_single.
  - etransitivity; [apply strip_edge_underscores_length|].
    etransitivity; [apply replace_runs_length|].
    etransitivity; [apply replace_runs_length|].
    rewrite replace_each_length. exact Hl.
Qed.

(** C3, as stated, fails: the truncation leaves a trailing underscore, which
    the second application removes, so [sanitize (sanitize x)] differs from
    [sanitize x] at [long_name]. *)
Lemma sanitizeFileName_not_idempotent :
  sanitizeFileName (sanitizeFileName long_name) <> sanitizeFileName long_name.
Proof.
  intros H. apply (f_equal length) in H. vm_compute in H. discriminate H.
Qed.

(** C3, amended: [sanitizeFileName] is total, and applying it twice gives the
    result of applying it once exactly when that result does not end in an
    underscore; this is so for every name of at most 255 units, the empty
    name included. *)
Theorem sanitizeFileName_idempotent_iff (x : jstring) :
  (sanitizeFileName (sanitizeFileName x) = sanitizeFileName x
   <-> last (sanitizeFileName x) <> Some underscore)
  /\ ((length x <= 255)%nat ->
      sanitizeFileName (sanitizeFileName x) = sanitizeFileName x).
Proof.
  assert (E : sanitizeFileName (sanitizeFileName x) = sanitizeFileName x
              <-> last (sanitizeFileName x) <> Some underscore).
  { rewrite sanitizeFileName_twice. apply strip_trailing_underscore_fixed. }
  split; [exact E|].
  intros Hl. apply E, sanitizeFileName_short_last, Hl.
Qed.

Lemma sanitizeFileName_idempotent_iff_witness :
  sanitizeFileName (sanitizeFileName (js "my  file?.txt"))
  = sanitizeFileName (js "my  file?.txt").
Proof.
  apply (proj2 (sanitizeFileName_idempotent_iff (js "my  file?.txt"))).
  vm_compute. lia.
Defined.

(** From the second application on, the sanitizer changes nothing. *)
Lemma sanitizeFileName_stable (x : jstring) :
  sanitizeFileName (sanitizeFileName (sanitizeFileName x))
  = sanitizeFileName (sanitizeFileName x).
Proof.
  rewrite (sanitizeFileName_twice (sanitizeFileName x)).
  apply strip_trailing_underscore_fixed.
  rewrite sanitizeFileName_twice.
  apply strip_trailing_underscore_last, sanitizeFileName_tidy.
Qed.

Example sanitizeFileName_empty : sanitizeFileName [] = [].
Proof. reflexivity. Qed.

Example sanitizeFileName_sample :
  sanitizeFileName (js " a<b>  c__d ") = js "a_b_c_d".
Proof. reflexivity. Qed.

End Sanitizer.

(** ** The extension classifiers *)

Section Classifier.

Lemma first_match_head (test : jstring -> bool) extension rest otherwise content :
  test content = true ->
  first_match ((test, extension) :: rest) otherwise content = extension.
Proof. intros H. simpl. rewrite H. reflexivity. Qed.

Lemma first_match_skip (test : jstring -> bool) extension rest otherwise content :
  test content = false ->
  first_match ((test, extension) :: rest) otherwise content
  = first_match rest otherwise content.
Proof. intros H. simpl. rewrite H. reflexivity. Qed.

(** The rule that decides is the first one whose test holds: the tests of
    all the rules before it fail. *)
Lemma first_match_wins rules otherwise content :
  (exists before test after,
      rules = before ++ (test, first_match rules otherwise content) :: after
      /\ test content = true
      /\ Forall (fun rule => fst rule content = false) before)
  \/ (first_match rules otherwise content = otherwise
      /\ Forall (fun rule => fst rule content = false) rules).
Proof.
  induction rules as [|[test extension] rules IH]; [right; split; [reflexivity|constructor]|].
  destruct (test content) eqn:E.
  - left. exists [], test, rules. rewrite (first_match_head _ _ _ _ _ E).
    repeat split; [assumption|constructor].
  - rewrite (first_match_skip _ _ _ _ _ E).
    destruct IH as [(before & t & after & Hr & Ht & Hb)|[Ho Hall]].
    + left. exists ((test, extension) :: before), t, after.
      repeat split; [simpl; f_equal; exact Hr|exact Ht|constructor; assumption].
    + right. split; [exact Ho|constructor; assumption].
Qed.

(** C1, as stated, fails: a string with [let ] and none of the words that
    [getFileExtension] looks for is classified as text, not as JavaScript. *)
Lemma getFileExtension_misses_let :
  getFileExtension (JString (js "let x = 1"))
  <> spec_classify_string (js "let x = 1").
Proof. vm_compute. discriminate. Qed.

(** The same for Markdown, for which [getFileExtension] has no rule. *)
Example getFileExtension_misses_markdown :
  getFileExtension (JString (js "# Title")) = js ".txt"
  /\ spec_classify_string (js "# Title") = js ".md".
Proof. split; reflexivity. Qed.

(** The later classifier has all the words and the Markdown rule, but tests
    for JSON after the JavaScript words: a JSON object is classified as CSS. *)
Example getSmartFileExtension_order :
  getSmartFileExtension (JString (js "{" ++ dquote ++ js "a" ++ dquote ++ js ":1}"))
  = js ".css"
  /\ spec_classify_string (js "{" ++ dquote ++ js "a" ++ dquote ++ js ":1}")
    = js ".json".
Proof. split; reflexivity. Qed.

(** C1, amended: on every String, [getFileExtension] is the ordered cascade
    JSON, HTML, CSS, JavaScript (the words [function], [=>], [var ] and
    [const ]), and text otherwise; the first rule that matches wins. *)
Theorem getFileExtension_is_cascade (s : jstring) :
  getFileExtension (JString s)
  = first_match getFileExtension_cascade (js ".txt") s.
Proof.
  unfold getFileExtension, getFileExtension_cascade, first_match,
    looks_like_html, looks_like_css, includes_any, existsb.
  destruct (JSONText.parses s); [reflexivity|].
  destruct (startsWith (trim s) (js "<") && endsWith (trim s) (js ">"));
    [reflexivity|].
  destruct (includes s (js "{") && includes s (js "}") && includes s (js ":"));
    [reflexivity|].
  rewrite orb_false_r, !orb_assoc. reflexivity.
Qed.

(** C2, as stated, fails for [getFileExtension]: the number 0 is given the
    extension of a text file. *)
Lemma getFileExtension_number_is_text :
  getFileExtension (JNumber (S754_zero false)) <> js ".json".
Proof. vm_compute. discriminate. Qed.

(** C2, amended: on a Null, Boolean or Number, [getFileExtension] answers
    [.json] for Null and [.txt] for Boolean and Number, while
    [getSmartFileExtension] answers [.json]; the extension of the generator's
    configuration is [.json] when the caller gives none. *)
Theorem nonstring_scalar_extension (v : JsonValue) :
  is_nonstring_scalar v = true ->
  getFileExtension v = match v with JNull => js ".json" | _ => js ".txt" end
  /\ getSmartFileExtension v = js ".json"
  /\ fileExtension (mergeConfig no_options) = js ".json".
Proof. destruct v; intros H; try discriminate H; repeat split. Qed.

Lemma nonstring_scalar_extension_witness :
  getFileExtension (JBoolean true) = js ".txt"
  /\ getSmartFileExtension (JBoolean true) = js ".json"
  /\ fileExtension (mergeConfig no_options) = js ".json".
Proof. apply (nonstring_scalar_extension (JBoolean true)). reflexivity. Defined.

End Classifier.

(** ** Statistics and the structure preview *)

Section Preview.

Lemma fileCount_fold {A : Type} (f : A -> Stats) (l : list A) : forall init,
  fileCount (fold_left (fun stats x => addStats stats (f x)) l init)
  = (fileCount init + list_sum (List.map (fun x => fileCount (f x)) l))%nat.
Proof.
  induction l as [|x l IH]; intros init; simpl; [lia|].
  rewrite IH. simpl. lia.
Qed.

(** A scalar is one file for the statistics and holds no empty container. *)
Lemma scalar_counts (v : JsonValue) depth :
  is_container v = false ->
  fileCount (analyzeJsonStructure v depth) = 1%nat /\ emptyContainers v = 0%nat.
Proof. destruct v; intros H; try discriminate H; split; reflexivity. Qed.

Lemma emptyContainers_array (items : list JsonValue) :
  items <> [] ->
  emptyContainers (JArray items) = list_sum (List.map emptyContainers items).
Proof. destruct items; [congruence|reflexivity]. Qed.

Lemma emptyContainers_object (members : list (jstring * JsonValue)) :
  members <> [] ->
  emptyContainers (JObject members)
  = list_sum (List.map (fun member => emptyContainers (snd member)) members).
Proof. destruct members; [congruence|reflexivity]. Qed.

Lemma list_sum_forEach_indexed {A B : Type} (f : A -> nat -> B)
  (g : B -> nat) (h : A -> nat) (l : list A) :
  Forall (fun x => forall i, g (f x i) = h x) l ->
  forall i, list_sum (List.map g (forEach_indexed f i l))
            = list_sum (List.map h l).
Proof.
  induction 1 as [|x l Hx _ IH]; intros i; simpl; [reflexivity|].
  rewrite Hx, IH. reflexivity.
Qed.

Lemma list_sum_map_ext {A : Type} (g h : A -> nat) (l : list A) :
  Forall (fun x => g x = h x) l ->
  list_sum (List.map g l) = list_sum (List.map h l).
Proof.
  induction 1 as [|x l Hx _ IH]; simpl; [reflexivity|].
  rewrite Hx, IH. reflexivity.
Qed.

Lemma list_sum_map_plus {A : Type} (g h : A -> nat) (l : list A) :
  list_sum (List.map (fun x => g x + h x)%nat l)
  = (list_sum (List.map g l) + list_sum (List.map h l))%nat.
Proof. induction l as [|x l IH]; simpl; [reflexivity|]. rewrite IH. lia. Qed.

(** The file nodes of the preview: one per scalar and one placeholder per
    empty container. *)
Lemma fileLeaves_createFileStructure (v : JsonValue) :
  forall name depth depth',
    fileLeaves (createFileStructure v name depth)
    = (fileCount (analyzeJsonStructure v depth') + emptyContainers v)%nat.
Proof.
  induction v as [| b | x | s | items IH | members IH] using JsonValue_ind;
    intros name depth depth'; try reflexivity.
  - destruct items as [|item items]; [reflexivity|].
    rewrite emptyContainers_array by discriminate.
    cbn [createFileStructure analyzeJsonStructure fileLeaves].
    rewrite fileCount_fold. cbn [fileCount Nat.add].
    rewrite <- list_sum_map_plus.
    apply list_sum_forEach_indexed.
    eapply Forall_impl; [exact IH|]. intros v Hv i. cbv beta.
    destruct (is_container v) eqn:E; [apply Hv|].
    destruct (scalar_counts v (depth' + 1) E) as [-> ->]. reflexivity.
  - destruct members as [|member members]; [reflexivity|].
    rewrite emptyContainers_object by discriminate.
    cbn [createFileStructure analyzeJsonStructure fileLeaves].
    rewrite fileCount_fold. cbn [fileCount Nat.add].
    rewrite <- list_sum_map_plus, List.map_map.
    apply list_sum_map_ext.
    eapply Forall_impl; [exact IH|]. intros [key v] Hv. cbn [fst snd] in *.
    destruct (is_container v) eqn:E; [apply Hv|].
    destruct (scalar_counts v (depth' + 1) E) as [-> ->]. reflexivity.
Qed.

(** C6, as stated, fails: the preview of the empty array has one file node,
    the placeholder, and the statistics count no file. *)
Lemma empty_array_leaf_not_counted :
  fileLeaves (createFileStructure (JArray []) (js "root") 0)
  <> fileCount (analyzeJsonStructure (JArray []) 0).
Proof. vm_compute. discriminate. Qed.

(** C6, amended: [createFileStructure] is total, and the number of file nodes
    of its result is the [fileCount] of the statistics plus the number of
    empty objects and empty arrays in the value. *)
Theorem fileLeaves_is_fileCount_plus_placeholders (v : JsonValue)
  (name : jstring) :
  fileLeaves (createFileStructure v name 0)
  = (fileCount (analyzeJsonStructure v 0) + emptyContainers v)%nat.
Proof. apply fileLeaves_createFileStructure. Qed.

(** Without empty containers the two counts agree. *)
Lemma fileLeaves_is_fileCount (v : JsonValue) (name : jstring) :
  emptyContainers v = 0%nat ->
  fileLeaves (createFileStructure v name 0)
  = fileCount (analyzeJsonStructure v 0).
Proof. intros H. rewrite (fileLeaves_createFileStructure v name 0 0), H. lia. Qed.

Lemma forallb_forEach_indexed {A B : Type} (f : A -> nat -> B)
  (p : B -> bool) (l : list A) :
  Forall (fun x => forall i, p (f x i) = true) l ->
  forall i, forallb p (forEach_indexed f i l) = true.
Proof.
  induction 1 as [|x l Hx _ IH]; intros i; simpl; [reflexivity|].
  rewrite Hx, IH. reflexivity.
Qed.



Lemma lookup_forEach_indexed {A B : Type} (f : A -> nat -> B) (l : list A) :
  forall start i,
    forEach_indexed f start l !! i = (fun x => f x (start + i)%nat) <$> l !! i.
Proof.
  induction l as [|x l IH]; intros start i; [reflexivity|].
  destruct i as [|i]; simpl.
  - rewrite Nat.add_0_r. reflexivity.
  - rewrite IH. replace (S start + i)%nat with (start + S i)%nat by lia.
    reflexivity.
Qed.


End Preview.

(** ** The archive generator *)

Section Archive.

Variable clock : nat -> jstring.

Lemma written_files_app (zip calls : list ZipCall) :
  written_files (zip ++ calls) = written_files zip ++ written_files calls.
Proof. apply omap_app. Qed.

Lemma written_files_zip_file root name data zip :
  written_files (zip_file root name data zip)
  = written_files zip ++ [root ++ name].
Proof. unfold zip_file. rewrite written_files_app. reflexivity. Qed.

Lemma written_files_zip_folder root name zip :
  written_files (snd (zip_folder root name zip)) = written_files zip.
Proof.
  destruct name; [reflexivity|]. cbn [zip_folder snd].
  rewrite written_files_app. apply app_nil_r.
Qed.

Lemma writes_zip_file root name data zip :
  writes (zip_file root name data zip) = S (writes zip).
Proof.
  unfold writes. rewrite written_files_zip_file, length_app. simpl. lia.
Qed.

Lemma writes_zip_folder root name zip :
  writes (snd (zip_folder root name zip)) = writes zip.
Proof. unfold writes. rewrite written_files_zip_folder. reflexivity. Qed.

Lemma for_indexed_measure {A St : Type} (body : nat -> A -> St -> St)
  (g : St -> nat) (h : A -> nat) (l : list A) :
  Forall (fun x => forall i st, g (body i x st) = (g st + h x)%nat) l ->
  forall i st,
    g (for_indexed body i l st) = (g st + list_sum (List.map h l))%nat.
Proof.
  induction 1 as [|x l Hx _ IH]; intros i st; simpl; [lia|].
  rewrite IH, Hx. lia.
Qed.

Lemma fold_left_measure {A St : Type} (body : St -> A -> St)
  (g : St -> nat) (h : A -> nat) (l : list A) :
  Forall (fun x => forall st, g (body st x) = (g st + h x)%nat) l ->
  forall st, g (fold_left body l st) = (g st + list_sum (List.map h l))%nat.
Proof.
  induction 1 as [|x l Hx _ IH]; intros st; simpl; [lia|].
  rewrite IH, Hx. lia.
Qed.


(** *** The table of entries *)

(** Adding folders neither adds nor removes nor changes a file entry. *)
Lemma folderAdd_file fuel :
  forall (name : jstring) (files : gmap jstring Entry) (k : jstring) data,
  folderAdd fuel name files !! k = Some (FileEntry data)
  <-> files !! k = Some (FileEntry data).
Proof.
  induction fuel as [|fuel IH]; intros name files k data; [reflexivity|].
  cbn [folderAdd].
  destruct (files !! forceTrailingSlash name) eqn:E; [reflexivity|].
  destruct (decide (forceTrailingSlash name = k)) as [<-|Hne].
  - rewrite lookup_insert_eq, E. split; discriminate.
  - rewrite lookup_insert_ne by exact Hne.
    destruct (parentFolder (forceTrailingSlash name)); [reflexivity|apply IH].
Qed.

Lemma fileAdd_file (name : jstring) (data : Content)
  (files : gmap jstring Entry) (k : jstring) (data' : Content) :
  fileAdd name data files !! k = Some (FileEntry data')
  <-> (k = name /\ data' = data)
      \/ (k <> name /\ files !! k = Some (FileEntry data')).
Proof.
  unfold fileAdd. destruct (decide (name = k)) as [<-|Hne].
  - rewrite lookup_insert_eq. split.
    + intros [= <-]. left. auto.
    + intros [[_ ->]|[H _]]; [reflexivity|congruence].
  - rewrite lookup_insert_ne by exact Hne.
    assert (E : forall inner : gmap jstring Entry,
               (inner !! k = Some (FileEntry data')
                <-> files !! k = Some (FileEntry data')) ->
               inner !! k = Some (FileEntry data')
               <-> (k = name /\ data' = data)
                   \/ (k <> name /\ files !! k = Some (FileEntry data'))).
    { intros inner ->. split; [intros H; right; split; [congruence|exact H]|].
      intros [[-> _]|[_ H]]; [congruence|exact H]. }
    destruct (parentFolder name); apply E; [reflexivity|apply folderAdd_file].
Qed.

(** A name holds a file entry after the calls exactly when it held one
    before or a file was written under it. *)
Lemma fold_apply_call_file (calls : list ZipCall) :
  forall (files : gmap jstring Entry) k,
    (exists data, fold_left apply_call calls files !! k = Some (FileEntry data))
    <-> (exists data, files !! k = Some (FileEntry data))
        \/ k ∈ written_files calls.
Proof.
  induction calls as [|call calls IH]; intros files k; cbn [fold_left].
  - split; [auto|]. intros [H|H]; [exact H|]. inversion H.
  - rewrite IH. destruct call as [name|name data]; cbn [apply_call].
    + change (written_files (CallFolder name :: calls))
        with (written_files calls).
      split; (intros [[data H]|H]; [left; exists data|right; exact H]).
      * apply folderAdd_file in H. exact H.
      * apply folderAdd_file. exact H.
    + change (written_files (CallFile name data :: calls))
        with (name :: written_files calls).
      rewrite elem_of_cons. split.
      * intros [[data' H]|H]; [|auto].
        apply fileAdd_file in H as [[-> _]|[_ H]]; [auto|]. left. eauto.
      * intros [[data' H]|[->|H]]; [| |auto].
        -- destruct (decide (k = name)) as [->|Hne]; left.
           ++ exists data. apply fileAdd_file. auto.
           ++ exists data'. apply fileAdd_file. auto.
        -- left. exists data. apply fileAdd_file. auto.
Qed.

(** The names of the file entries of the table are the names written. *)
Lemma dom_file_entries_zip_files (calls : list ZipCall) :
  dom (file_entries (zip_files calls)) = list_to_set (written_files calls).
Proof.
  apply set_eq. intros k.
  rewrite elem_of_dom, elem_of_list_to_set.
  unfold file_entries, zip_files, is_Some.
  transitivity (exists data,
    fold_left apply_call calls ∅ !! k = Some (FileEntry data)).
  - split.
    + intros [e H]. apply map_lookup_filter_Some in H as [H Hf].
      destruct e as [|data]; [discriminate Hf|]. eauto.
    + intros [data H]. exists (FileEntry data).
      apply map_lookup_filter_Some. auto.
  - rewrite fold_apply_call_file. split; [|auto].
    intros [[data H]|H]; [|exact H]. rewrite lookup_empty in H. discriminate.
Qed.

Lemma size_list_to_set_le (l : list jstring) :
  (size (list_to_set l : gset jstring) <= length l)%nat.
Proof.
  induction l as [|x l IH].
  { change (size (∅ : gset jstring) <= 0)%nat. rewrite size_empty. reflexivity. }
  cbn [list_to_set length].
  rewrite size_union_alt, size_singleton.
  assert (Hsub : list_to_set l ∖ {[x]} ⊆ (list_to_set l : gset jstring)).
  { intros y Hy. apply elem_of_difference in Hy. tauto. }
  apply subseteq_size in Hsub. lia.
Qed.

(** *** The generated archive *)

Lemma generateAsync_lookup (files : gmap jstring Entry) (name : jstring) :
  generateAsync files !! name
  = (fun entry => if endsWith name (js "/") then DirEntry else entry)
      <$> files !! name.
Proof.
  unfold generateAsync. rewrite map_lookup_imap.
  destruct (files !! name); reflexivity.
Qed.

(** A name that does not end in a slash holds in the archive what it holds
    in the table. *)
Lemma generateAsync_lookup_file (files : gmap jstring Entry) (name : jstring) :
  endsWith name (js "/") = false -> generateAsync files !! name = files !! name.
Proof.
  intros H. rewrite generateAsync_lookup, H.
  destruct (files !! name); reflexivity.
Qed.

Lemma generateAsync_file (files : gmap jstring Entry) (name : jstring) data :
  generateAsync files !! name = Some (FileEntry data)
  <-> files !! name = Some (FileEntry data) /\ endsWith name (js "/") = false.
Proof.
  rewrite generateAsync_lookup.
  destruct (files !! name) as [entry|]; cbn [fmap option_fmap option_map];
    [|split; [discriminate|intros [H _]; discriminate H]].
  destruct (endsWith name (js "/")); split.
  - discriminate.
  - intros [_ H]. discriminate H.
  - intros [= ->]. auto.
  - intros [[= ->] _]. reflexivity.
Qed.

(** The file entries of the generated archive are the names written that do
    not end in a slash. *)
Lemma dom_file_entries_generateAsync (calls : list ZipCall) :
  dom (file_entries (generateAsync (zip_files calls)))
  = list_to_set
      (filter (fun name => endsWith name (js "/") = false)
         (written_files calls)).
Proof.
  apply set_eq. intros k.
  rewrite elem_of_list_to_set, list_elem_of_filter.
  rewrite <- (elem_of_list_to_set (C := gset jstring)).
  rewrite <- dom_file_entries_zip_files, !elem_of_dom.
  unfold file_entries, is_Some. split.
  - intros [e H]. apply map_lookup_filter_Some in H as [H Hf].
    destruct e as [|data]; [discriminate Hf|].
    apply generateAsync_file in H as [H Hs]. split; [exact Hs|].
    exists (FileEntry data). apply map_lookup_filter_Some. auto.
  - intros [Hs [e H]]. apply map_lookup_filter_Some in H as [H Hf].
    destruct e as [|data]; [discriminate Hf|].
    exists (FileEntry data). apply map_lookup_filter_Some.
    split; [|reflexivity]. apply generateAsync_file. auto.
Qed.



(** The generated archive has at most as many file entries as files were
    written, and as many exactly when no name was written twice and no name
    written ends in a slash. *)
Lemma size_file_entries_generateAsync_le (calls : list ZipCall) :
  (size (file_entries (generateAsync (zip_files calls))) <= writes calls)%nat.
Proof.
  rewrite <- size_dom, dom_file_entries_generateAsync.
  etransitivity; [apply size_list_to_set_le|]. apply length_filter.
Qed.


(** *** What the loops add to the archive *)








End Archive.

(** ** Names of array items *)

Section ItemNames.

Lemma digit_plain d : (d < 10)%nat -> plain_unit (digit d) = true.
Proof. intros H. do 10 (destruct d as [|d]; [reflexivity|]). lia. Qed.

Lemma digits_plain fuel : forall n,
  Forall (fun c => plain_unit c = true) (digits fuel n).
Proof.
  induction fuel as [|fuel IH]; intros n; cbn [digits]; [constructor|].
  destruct (Nat.ltb_spec n 10) as [Hlt|Hge].
  - constructor; [apply digit_plain, Hlt|constructor].
  - apply Forall_app. split; [apply IH|].
    constructor; [|constructor]. apply digit_plain.
    apply Nat.mod_upper_bound. discriminate.
Qed.






(** The digits denote the index. *)
Lemma decimal_value_app s c :
  decimal_value (s ++ [c]) = (10 * decimal_value s + (N.to_nat c - 48))%nat.
Proof. unfold decimal_value. rewrite fold_left_app. reflexivity. Qed.

Lemma decimal_value_digit d : decimal_value [digit d] = d.
Proof. unfold decimal_value, digit. simpl. lia. Qed.

Lemma decimal_value_digits fuel : forall n,
  (n < fuel)%nat -> decimal_value (digits fuel n) = n.
Proof.
  induction fuel as [|fuel IH]; intros n Hn; [lia|].
  cbn [digits]. destruct (Nat.ltb_spec n 10) as [Hlt|Hge].
  - apply decimal_value_digit.
  - rewrite decimal_value_app, IH.
    + unfold digit. rewrite N2Nat.inj_add, Nat2N.id.
      change (N.to_nat 48) with 48%nat.
      pose proof (Nat.div_mod_eq n 10). lia.
    + assert (n / 10 < n)%nat by (apply Nat.div_lt; lia). lia.
Qed.

Lemma decimal_value_zeros k s :
  decimal_value (repeat 48 k ++ s) = decimal_value s.
Proof.
  induction k as [|k IH]; [reflexivity|].
  unfold decimal_value in *. cbn [repeat app fold_left].
  change (10 * 0 + (N.to_nat 48 - 48))%nat with 0%nat. exact IH.
Qed.

Lemma digits_length_le fuel : forall n k,
  (n < 10 ^ S k)%nat -> (length (digits fuel n) <= S k)%nat.
Proof.
  induction fuel as [|fuel IH]; intros n k Hn; cbn [digits]; [simpl; lia|].
  destruct (Nat.ltb_spec n 10) as [Hlt|Hge]; [simpl; lia|].
  rewrite length_app. cbn [length].
  destruct k as [|k]; [simpl in Hn; lia|].
  assert (n / 10 < 10 ^ S k)%nat.
  { apply Nat.Div0.div_lt_upper_bound.
    change (10 ^ S (S k))%nat with (10 * 10 ^ S k)%nat in Hn. exact Hn. }
  specialize (IH (n / 10)%nat k ltac:(assumption)). lia.
Qed.

Lemma digits_nonempty fuel n : fuel <> O -> digits fuel n <> [].
Proof.
  destruct fuel as [|fuel]; [congruence|]. intros _. cbn [digits].
  destruct (n <? 10)%nat; [discriminate|].
  intros H. apply (f_equal length) in H. rewrite length_app in H.
  simpl in H. lia.
Qed.


(** The padding of [padStart] with the one-unit string of a zero. *)
Lemma padStart_zero target s :
  padStart target (js "0") s = repeat 48 (target - length s) ++ s.
Proof.
  unfold padStart. f_equal.
  generalize (target - length s)%nat. intros k.
  assert (E : forall j, concat (repeat (js "0") j) = repeat 48 j).
  { induction j as [|j IH]; [reflexivity|]. simpl. rewrite IH. reflexivity. }
  rewrite E. apply take_ge. rewrite repeat_length. lia.
Qed.



(** The number part denotes the index. *)
Lemma itemName_value index :
  exists number,
    itemName index = js "item_" ++ number /\ decimal_value number = index.
Proof.
  exists (padStart 3 (js "0") (index_toString index)). split; [reflexivity|].
  rewrite padStart_zero, decimal_value_zeros.
  apply decimal_value_digits. lia.
Qed.

Lemma itemName_cons index : exists c rest, itemName index = c :: rest.
Proof. unfold itemName. simpl. eauto. Qed.

(** The sanitizer leaves alone a name made of [item_] and plain units. *)
Lemma no_double_underscore_plain t :
  Forall (fun c => plain_unit c = true) t -> no_double_underscore t = true.
Proof.
  induction 1 as [|c t Hc _ IH]; [reflexivity|].
  cbn [no_double_underscore]. rewrite IH, andb_true_r.
  unfold plain_unit in Hc. apply andb_true_iff in Hc as [_ Hc].
  apply negb_true_iff in Hc. rewrite Hc. reflexivity.
Qed.

Lemma plain_last t :
  Forall (fun c => plain_unit c = true) t -> last t <> Some underscore.
Proof.
  intros H E. apply last_Some_elem_of in E.
  rewrite Forall_forall in H. specialize (H _ E). discriminate H.
Qed.

Lemma sanitizeFileName_item t :
  Forall (fun c => plain_unit c = true) t -> t <> [] ->
  (length t <= 250)%nat ->
  sanitizeFileName (js "item_" ++ t) = js "item_" ++ t.
Proof.
  intros Hp Hne Hl.
  assert (Hc : Forall (fun c => clean_unit c = true) t).
  { eapply Forall_impl; [exact Hp|]. intros c H. unfold plain_unit in H.
    apply andb_true_iff in H. tauto. }
  rewrite sanitizeFileName_on_tidy.
  - apply strip_trailing_underscore_fixed.
    destruct t as [|c t]; [congruence|].
    change (js "item_" ++ c :: t) with (105 :: 116 :: 101 :: 109 :: 95 :: c :: t).
    change (last (105 :: 116 :: 101 :: 109 :: 95 :: c :: t)) with (last (c :: t)).
    apply plain_last, Hp.
  - repeat split.
    + apply Forall_app. split; [repeat constructor|exact Hc].
    + destruct t as [|c t]; [congruence|].
      change (js "item_" ++ c :: t) with (105 :: 116 :: 101 :: 109 :: 95 :: c :: t).
      pose proof (no_double_underscore_plain _ Hp) as Hn.
      inversion Hp as [|? ? Hpc _]; subst.
      unfold plain_unit in Hpc. apply andb_true_iff in Hpc as [_ Hpc].
      apply negb_true_iff in Hpc.
      cbn [no_double_underscore] in *. rewrite Hpc.
      apply andb_true_iff in Hn as [_ Hn]. rewrite Hn. reflexivity.
    + discriminate.
  - rewrite length_app. change (length (js "item_")) with 5%nat. lia.
Qed.

Lemma number_part_plain index :
  Forall (fun c => plain_unit c = true)
         (padStart 3 (js "0") (index_toString index)).
Proof.
  rewrite padStart_zero. apply Forall_app. split; [|apply digits_plain].
  apply Forall_forall. intros c Hc. apply list_elem_of_In, repeat_spec in Hc.
  subst c. reflexivity.
Qed.

Lemma number_part_length index :
  (index < 2 ^ 32)%nat ->
  (length (padStart 3 (js "0") (index_toString index)) <= 10)%nat.
Proof.
  intros H. rewrite padStart_zero, length_app, repeat_length.
  assert (index < 10 ^ 10)%nat.
  { apply Nat.lt_trans with (1 := H).
    apply Nat2Z.inj_lt. rewrite !Nat2Z.inj_pow. reflexivity. }
  pose proof (digits_length_le (S index) index 9 ltac:(assumption)).
  unfold index_toString. lia.
Qed.

(** The names of the items survive the sanitizer, with or without the
    default extension. *)
Lemma sanitizeFileName_itemName index :
  (index < 2 ^ 32)%nat -> sanitizeFileName (itemName index) = itemName index.
Proof.
  intros H. unfold itemName. apply sanitizeFileName_item.
  - apply number_part_plain.
  - rewrite padStart_zero. intros E. apply app_eq_nil in E as [_ E].
    revert E. apply digits_nonempty. discriminate.
  - pose proof (number_part_length index H). lia.
Qed.

Lemma sanitizeFileName_itemName_json index :
  (index < 2 ^ 32)%nat ->
  sanitizeFileName (itemName index ++ js ".json") = itemName index ++ js ".json".
Proof.
  intros H. unfold itemName. rewrite <- app_assoc. apply sanitizeFileName_item.
  - apply Forall_app. split; [apply number_part_plain|repeat constructor].
  - intros E. apply app_eq_nil in E as [_ E]. discriminate E.
  - rewrite length_app. pose proof (number_part_length index H).
    change (length (js ".json")) with 5%nat. lia.
Qed.

End ItemNames.

(** ** What the generator puts in the archive *)

Section Conversion.

Variable clock : nat -> jstring.









(** A member whose file name is empty is written on the name of its folder;
    the table holds a file there, the archive a directory, and the archive
    has no file entry although one file was written. *)
Example empty_file_name_is_a_directory :
  written_files
    (generateZipCalls frozen_clock (JObject [(js "?", JString (js "v"))])
       (js "root") (mkOptions (Some false) (Some []) (Some false) None))
  = [js "root/"]
  /\ zip_files
       (generateZipCalls frozen_clock (JObject [(js "?", JString (js "v"))])
          (js "root") (mkOptions (Some false) (Some []) (Some false) None))
       !! js "root/"
     = Some (FileEntry (Text (js "v")))
  /\ generateZipFromJson frozen_clock (JObject [(js "?", JString (js "v"))])
       (js "root") (mkOptions (Some false) (Some []) (Some false) None)
     = {[ js "root/" := DirEntry ]}.
Proof. repeat split; vm_compute; reflexivity. Qed.





End Conversion.

(** ** The children of an array *)

Section ArrayItems.

Variable clock : nat -> jstring.







End ArrayItems.

(** ** The HTTP handler *)

Section Handler.

Variable Number_toString : spec_float -> jstring.

(** The falsy JSON values: null, false, a zero, and the empty string (a
    parsed JSON number is never NaN). *)
Lemma falsy_values (v : JsonValue) :
  truthy v = false
  <-> v = JNull \/ v = JBoolean false \/ (exists sign, v = JNumber (S754_zero sign))
      \/ v = JNumber S754_nan \/ v = JString [].
Proof.
  split.
  - destruct v as [| [|] | [sign| | |] | [|c s] | |]; intros H;
      try discriminate H; eauto 6.
  - intros [->|[->|[[sign ->]|[->| ->]]]]; reflexivity.
Qed.

(** C9: a POST request whose [jsonData] is falsy is answered with status 400
    and the error [JSON data is required], and no archive is made; whenever
    the handler does send an archive, the request was a POST whose
    [jsonData] is truthy. *)
Theorem handler_requires_truthy_jsonData :
  (forall req fields v,
      method req = js "POST" ->
      body req = Some fields ->
      jsonData fields = Some v ->
      truthy v = false ->
      handler Number_toString req
      = mkResponse 400 (ErrorJson (js "JSON data is required"))
      /\ converted (handler Number_toString req) = false)
  /\ (forall req,
        converted (handler Number_toString req) = true ->
        exists fields v,
          method req = js "POST" /\ body req = Some fields
          /\ jsonData fields = Some v /\ truthy v = true
          /\ status (handler Number_toString req) = 200%nat).
Proof.
  split.
  - intros req fields v Hm Hb Hj Hv. unfold handler.
    rewrite Hm, Hb, Hj, Hv.
    rewrite bool_decide_eq_true_2 by reflexivity. split; reflexivity.
  - intros req. unfold handler.
    destruct (bool_decide (method req = js "POST")) eqn:Hm;
      [|discriminate].
    apply bool_decide_eq_true_1 in Hm. cbn [negb].
    destruct (body req) as [fields|]; [|discriminate].
    destruct (jsonData fields) as [v|] eqn:Hj; [|discriminate].
    destruct (truthy v) eqn:Hv; [|discriminate].
    cbn [negb]. cbv zeta.
    destruct (checkInvalidHeaderChar _); [discriminate|].
    intros _. exists fields, v. repeat split; assumption.
Qed.

End Handler.

Lemma handler_requires_truthy_jsonData_witness :
  handler (fun _ => js "0") zero_request
  = mkResponse 400 (ErrorJson (js "JSON data is required"))
  /\ converted (handler (fun _ => js "0") zero_request) = false.
Proof.
  apply (proj1 (handler_requires_truthy_jsonData (fun _ => js "0"))
           zero_request
           (mkBody (Some (JNumber (S754_zero false))) None)
           (JNumber (S754_zero false)));
    reflexivity.
Defined.

(** ** The two ways of counting the nodes of the tree preview *)

Section TreeCounts.

Variable Number_toString : spec_float -> jstring.

Lemma fold_left_add {A : Type} (g : A -> nat) (l : list A) : forall a,
  fold_left (fun total x => total + g x)%nat l a
  = (a + list_sum (List.map g l))%nat.
Proof.
  induction l as [|x l IH]; intros a; simpl; [lia|]. rewrite IH. lia.
Qed.

Lemma calculateStats_children (children : list TreeNode) :
  Forall (stats_follow_methods Number_toString) children ->
  forall depth stats,
    totalFiles
      (fold_left (fun stats child =>
                    calculateStats Number_toString child depth stats)
         children stats)
    = (totalFiles stats + list_sum (List.map getFileCount children))%nat
    /\ totalFolders
         (fold_left (fun stats child =>
                       calculateStats Number_toString child depth stats)
            children stats)
       = (totalFolders stats + list_sum (List.map getFolderCount children))%nat.
Proof.
  induction 1 as [|child children Hc _ IH]; intros depth stats; simpl;
    [lia|].
  destruct (IH depth (calculateStats Number_toString child depth stats))
    as [-> ->].
  destruct (Hc depth stats) as [-> ->]. lia.
Qed.

Lemma counts_agree_folder name value children :
  Forall (stats_follow_methods Number_toString) children ->
  stats_follow_methods Number_toString (mkTreeNode name folder value children).
Proof.
  intros H depth stats. cbn [calculateStats getFileCount getFolderCount].
  rewrite !fold_left_add.
  match goal with
  | |- context [fold_left _ children ?init] =>
      destruct (calculateStats_children children H (depth + 1) init) as [-> ->]
  end.
  cbn [totalFiles totalFolders]. lia.
Qed.

Lemma Forall_forEach_indexed {A B : Type} (f : A -> nat -> B)
  (P : B -> Prop) (l : list A) :
  Forall (fun x => forall i, P (f x i)) l ->
  forall i, Forall P (forEach_indexed f i l).
Proof.
  induction 1 as [|x l Hx _ IH]; intros i; simpl; constructor; auto.
Qed.

Lemma createTreeNode_counts_agree (v : JsonValue) :
  forall name parentPath,
    stats_follow_methods Number_toString (createTreeNode v name parentPath).
Proof.
  induction v as [| b | x | s | items IH | members IH] using JsonValue_ind;
    intros name parentPath;
    try (intros depth stats; cbn; split; lia).
  - cbn [createTreeNode]. apply counts_agree_folder.
    apply Forall_forEach_indexed.
    eapply Forall_impl; [exact IH|]. intros v Hv i. apply Hv.
  - cbn [createTreeNode]. apply counts_agree_folder.
    apply Forall_map.
    eapply Forall_impl; [exact IH|]. intros [key v] Hv. apply Hv.
Qed.

(** C10: on every tree that [generateTreeStructure] produces, the methods
    [getFileCount] and [getFolderCount] give the [totalFiles] and the
    [totalFolders] of [getTreeStatistics]. *)
Theorem tree_counts_agree (jsonData : JsonValue) (rootName : jstring) :
  getFileCount (generateTreeStructure jsonData rootName)
  = totalFiles
      (getTreeStatistics Number_toString (generateTreeStructure jsonData rootName))
  /\ getFolderCount (generateTreeStructure jsonData rootName)
     = totalFolders
         (getTreeStatistics Number_toString
            (generateTreeStructure jsonData rootName)).
Proof.
  unfold getTreeStatistics, generateTreeStructure.
  destruct (createTreeNode_counts_agree jsonData rootName [] 0%nat
              {| totalFiles := 0; totalFolders := 0; treeMaxDepth := 0;
                 totalSize := 0 |}) as [-> ->].
  split; reflexivity.
Qed.

End TreeCounts.

(** ** The theorems at sample inputs *)





(** ** More about the classifiers, and the scenarios of the specification *)

Example parses_examples :
  JSONText.parses (js " [1, -2.5e+3, true, null, []] ") = true
  /\ JSONText.parses object_text = true
  /\ JSONText.parses (js "[1,]") = false
  /\ JSONText.parses (js "01") = false
  /\ JSONText.parses (js "<div>hi</div>") = false
  /\ JSONText.parses [] = false.
Proof. repeat split; reflexivity. Qed.

Example getFileExtension_examples :
  getFileExtension (JString (js "<div>hi</div>")) = js ".html"
  /\ getFileExtension (JString object_text) = js ".json"
  /\ getFileExtension (JString (js "a { color: red }")) = js ".css"
  /\ getFileExtension (JString (js "const x = () => 1")) = js ".js"
  /\ getFileExtension (JString (js "hello")) = js ".txt"
  /\ getFileExtension JNull = js ".json".
Proof. repeat split; reflexivity. Qed.

(** [convert({}, "root", {})] contains [root/empty_object.json] with [{}]. *)
Example convert_empty_object :
  generateZipFromJson frozen_clock (JObject []) (js "root") no_options
    !! js "root/empty_object.json"
  = Some (FileEntry (Text (js "{}"))).
Proof. vm_compute. reflexivity. Qed.

(** [convert([null, true], "root", {})] contains [root/item_000.json] and
    [root/item_001.json]. *)
Example convert_array :
  written_files
    (generateZipCalls frozen_clock (JArray [JNull; JBoolean true]) (js "root")
       without_extras)
  = [js "root/item_000.json"; js "root/item_001.json"].
Proof. reflexivity. Qed.

(** The generator writes a string under the configured extension, whatever
    the string looks like. *)
Example convert_string_member :
  written_files
    (generateZipCalls frozen_clock
       (JObject [(js "a", JString (js "<div>hi</div>"))]) (js "root")
       without_extras)
  = [js "root/a.json"].
Proof. reflexivity. Qed.

(** With [timestampFiles], the stamp goes before the extension. *)
Example convert_timestamp :
  written_files
    (generateZipCalls frozen_clock (JObject [(js "a", JNull)]) (js "root")
       (mkOptions (Some false) None (Some false) (Some true)))
  = [js "root/a_2024-01-01T00-00-00-000Z.json"].
Proof. reflexivity. Qed.

(** Two keys whose sanitized names are empty have no folder of their own:
    their placeholders go into the parent folder, under the same name. *)
Example empty_names_share_the_placeholder :
  written_files
    (generateZipCalls frozen_clock
       (JObject [(js "?", JArray []); (js "_", JArray [])]) (js "root")
       without_extras)
  = [js "root/empty_array.json"; js "root/empty_array.json"].
Proof. reflexivity. Qed.

Example itemName_examples :
  List.map itemName [0; 7; 42; 999; 1000; 1234]%nat
  = [js "item_000"; js "item_007"; js "item_042"; js "item_999";
     js "item_1000"; js "item_1234"].
Proof. vm_compute. reflexivity. Qed.

(** The handler turns an array into files at the top of the archive. *)
Example handler_example :
  handler (fun _ => js "0")
    (mkRequest (js "POST")
       (Some (mkBody (Some (JArray [JBoolean true])) None)))
  = mkResponse 200
      (ZipBuffer (JString (js "converted-json-structure.zip"))
         (list_to_map
            [(js "item_0.txt", FileEntry (StringOf (JBoolean true)));
             (js "_metadata.json",
              FileEntry (HandlerMetadata (JArray [JBoolean true]) 1))])).
Proof. vm_compute. reflexivity. Qed.

(** * Further properties *)

(** ** The sanitizer: what its results look like *)

Section SanitizerResults.

Implicit Types (s t : jstring) (c : N).

Lemma no_double_underscore_includes s :
  no_double_underscore s = true <-> includes s (js "__") = false.
Proof.
  change (js "__") with [underscore; underscore].
  induction s as [|c s IH]; [split; reflexivity|].
  cbn [no_double_underscore includes startsWith].
  rewrite andb_true_iff, orb_false_iff, IH.
  assert (E : negb (is_underscore c
                    && match s with d :: _ => is_underscore d | [] => false end)
              = true
              <-> (underscore =? c) && startsWith s [underscore] = false).
  { rewrite negb_true_iff. unfold is_underscore.
    rewrite (N.eqb_sym underscore c).
    destruct s as [|d s]; [reflexivity|]. cbn [startsWith].
    rewrite (N.eqb_sym underscore d).
    replace (startsWith s []) with true by (destruct s; reflexivity).
    rewrite andb_true_r. reflexivity. }
  rewrite E. reflexivity.
Qed.

Lemma head_startsWith_underscore s :
  head s <> Some underscore <-> startsWith s (js "_") = false.
Proof.
  change (js "_") with [underscore].
  destruct s as [|c s]; [split; [reflexivity|discriminate]|].
  cbn [head startsWith].
  replace (startsWith s []) with true by (destruct s; reflexivity).
  rewrite andb_true_r. split.
  - intros H. apply N.eqb_neq. intros E. apply H. rewrite E. reflexivity.
  - intros H [= E]. rewrite E, N.eqb_refl in H. discriminate H.
Qed.

Lemma last_endsWith_underscore s :
  last s <> Some underscore <-> endsWith s (js "_") = false.
Proof.
  unfold endsWith. change (reverse (js "_")) with (js "_").
  rewrite <- head_startsWith_underscore, head_reverse. reflexivity.
Qed.

Lemma clean_unit_spec c :
  clean_unit c = true <-> is_forbidden c = false /\ is_space c = false.
Proof.
  unfold clean_unit. rewrite andb_true_iff, !negb_true_iff. reflexivity.
Qed.

(** Every result of the sanitizer has at most 255 units and is no longer
    than the name given, holds none of the forbidden characters and no white
    space, has no two underscores in a row and does not start with an
    underscore. *)
Theorem sanitizeFileName_result (fileName : jstring) :
  (length (sanitizeFileName fileName) <= 255)%nat
  /\ (length (sanitizeFileName fileName) <= length fileName)%nat
  /\ Forall (fun c => is_forbidden c = false /\ is_space c = false)
            (sanitizeFileName fileName)
  /\ includes (sanitizeFileName fileName) (js "__") = false
  /\ startsWith (sanitizeFileName fileName) (js "_") = false.
Proof.
  destruct (sanitizeFileName_tidy fileName) as (Hc & Hn & Hh).
  repeat apply conj.
  - apply sanitizeFileName_length.
  - unfold sanitizeFileName, substring0. rewrite length_take.
    etransitivity; [apply Nat.le_min_r|].
    etransitivity; [apply strip_edge_underscores_length|].
    etransitivity; [apply replace_runs_length|].
    etransitivity; [apply replace_runs_length|].
    rewrite replace_each_length. reflexivity.
  - eapply Forall_impl; [exact Hc|]. intros c. apply clean_unit_spec.
  - apply no_double_underscore_includes, Hn.
  - apply head_startsWith_underscore, Hh.
Qed.

(** The names that the sanitizer leaves as they are: those of at most 255
    units, without forbidden characters and white space, without two
    underscores in a row, and with no underscore at either end. *)
Theorem sanitizeFileName_fixed_points (fileName : jstring) :
  sanitizeFileName fileName = fileName
  <-> (length fileName <= 255)%nat
      /\ Forall (fun c => is_forbidden c = false /\ is_space c = false) fileName
      /\ includes fileName (js "__") = false
      /\ startsWith fileName (js "_") = false
      /\ endsWith fileName (js "_") = false.
Proof.
  split.
  - intros E.
    destruct (sanitizeFileName_tidy fileName) as (Hc & Hn & Hh).
    pose proof (sanitizeFileName_length fileName) as Hl.
    assert (Hlast : last fileName <> Some underscore).
    { rewrite <- E at 1. rewrite <- strip_trailing_underscore_fixed.
      rewrite <- sanitizeFileName_twice, !E. reflexivity. }
    rewrite E in Hc, Hn, Hh, Hl. repeat apply conj.
    + exact Hl.
    + eapply Forall_impl; [exact Hc|]. intros c. apply clean_unit_spec.
    + apply no_double_underscore_includes, Hn.
    + apply head_startsWith_underscore, Hh.
    + apply last_endsWith_underscore, Hlast.
  - intros (Hl & Hc & Hn & Hh & Hlast).
    rewrite sanitizeFileName_on_tidy.
    + apply strip_trailing_underscore_fixed, last_endsWith_underscore, Hlast.
    + repeat apply conj.
      * eapply Forall_impl; [exact Hc|]. intros c. apply clean_unit_spec.
      * apply no_double_underscore_includes, Hn.
      * apply head_startsWith_underscore, Hh.
    + exact Hl.
Qed.

End SanitizerResults.

(** ** The statistics *)

Section Statistics.

Lemma stats_fold {A : Type} (f : A -> Stats) (l : list A) : forall init,
  let result := fold_left (fun stats x => addStats stats (f x)) l init in
  objectCount result
  = (objectCount init + list_sum (List.map (fun x => objectCount (f x)) l))%nat
  /\ arrayCount result
     = (arrayCount init + list_sum (List.map (fun x => arrayCount (f x)) l))%nat
  /\ maxDepth result
     = Nat.max (maxDepth init) (list_max (List.map (fun x => maxDepth (f x)) l)).
Proof.
  induction l as [|x l IH]; intros init.
  - simpl. repeat split; lia.
  - cbv zeta in *. cbn [fold_left].
    destruct (IH (addStats init (f x))) as (-> & -> & ->).
    simpl. repeat split; lia.
Qed.

Lemma list_max_shift {A : Type} (g h : A -> nat) (k : nat) (l : list A) :
  Forall (fun x => h x = (g x + k)%nat) l ->
  forall a,
    Nat.max (a + k) (list_max (List.map h l))
    = (Nat.max a (list_max (List.map g l)) + k)%nat.
Proof.
  induction 1 as [|x l Hx _ IH]; intros a; simpl; [lia|].
  specialize (IH (Nat.max a (g x))). rewrite Hx. lia.
Qed.

(** The counts of the statistics do not depend on the depth at which the
    analysis starts; the maximal depth is at least that depth and moves with
    it. *)
Theorem analyzeJsonStructure_depth (data : JsonValue) (depth k : nat) :
  objectCount (analyzeJsonStructure data (depth + k))
  = objectCount (analyzeJsonStructure data depth)
  /\ arrayCount (analyzeJsonStructure data (depth + k))
     = arrayCount (analyzeJsonStructure data depth)
  /\ fileCount (analyzeJsonStructure data (depth + k))
     = fileCount (analyzeJsonStructure data depth)
  /\ maxDepth (analyzeJsonStructure data (depth + k))
     = (maxDepth (analyzeJsonStructure data depth) + k)%nat
  /\ (depth <= maxDepth (analyzeJsonStructure data depth))%nat.
Proof.
  revert depth.
  induction data as [| b | x | s | items IH | members IH] using JsonValue_ind;
    intros depth; try (cbn; repeat split; lia).
  - cbn [analyzeJsonStructure].
    destruct (stats_fold (fun item => analyzeJsonStructure item (depth + k + 1))
                items {| objectCount := 0; arrayCount := 1; fileCount := 0;
                         maxDepth := depth + k |}) as (-> & -> & ->).
    destruct (stats_fold (fun item => analyzeJsonStructure item (depth + 1))
                items {| objectCount := 0; arrayCount := 1; fileCount := 0;
                         maxDepth := depth |}) as (-> & -> & ->).
    rewrite !fileCount_fold. cbn [objectCount arrayCount fileCount maxDepth].
    assert (IH' : Forall (fun item =>
      objectCount (analyzeJsonStructure item (depth + k + 1))
      = objectCount (analyzeJsonStructure item (depth + 1))
      /\ arrayCount (analyzeJsonStructure item (depth + k + 1))
         = arrayCount (analyzeJsonStructure item (depth + 1))
      /\ fileCount (analyzeJsonStructure item (depth + k + 1))
         = fileCount (analyzeJsonStructure item (depth + 1))
      /\ maxDepth (analyzeJsonStructure item (depth + k + 1))
         = (maxDepth (analyzeJsonStructure item (depth + 1)) + k)%nat) items).
    { eapply Forall_impl; [exact IH|]. intros item H.
      replace (depth + k + 1)%nat with (depth + 1 + k)%nat by lia.
      destruct (H (depth + 1)%nat) as (? & ? & ? & ? & _). auto. }
    repeat apply conj.
    + f_equal. apply list_sum_map_ext.
      eapply Forall_impl; [exact IH'|]. intros item H. apply H.
    + f_equal. apply list_sum_map_ext.
      eapply Forall_impl; [exact IH'|]. intros item H. apply H.
    + f_equal. apply list_sum_map_ext.
      eapply Forall_impl; [exact IH'|]. intros item H. apply H.
    + apply list_max_shift.
      eapply Forall_impl; [exact IH'|]. intros item H. apply H.
    + lia.
  - cbn [analyzeJsonStructure].
    destruct (stats_fold
                (fun member => analyzeJsonStructure (snd member) (depth + k + 1))
                members {| objectCount := 1; arrayCount := 0; fileCount := 0;
                           maxDepth := depth + k |}) as (-> & -> & ->).
    destruct (stats_fold
                (fun member => analyzeJsonStructure (snd member) (depth + 1))
                members {| objectCount := 1; arrayCount := 0; fileCount := 0;
                           maxDepth := depth |}) as (-> & -> & ->).
    rewrite !fileCount_fold. cbn [objectCount arrayCount fileCount maxDepth].
    assert (IH' : Forall (fun member : jstring * JsonValue =>
      objectCount (analyzeJsonStructure (snd member) (depth + k + 1))
      = objectCount (analyzeJsonStructure (snd member) (depth + 1))
      /\ arrayCount (analyzeJsonStructure (snd member) (depth + k + 1))
         = arrayCount (analyzeJsonStructure (snd member) (depth + 1))
      /\ fileCount (analyzeJsonStructure (snd member) (depth + k + 1))
         = fileCount (analyzeJsonStructure (snd member) (depth + 1))
      /\ maxDepth (analyzeJsonStructure (snd member) (depth + k + 1))
         = (maxDepth (analyzeJsonStructure (snd member) (depth + 1)) + k)%nat)
      members).
    { eapply Forall_impl; [exact IH|]. intros member H.
      replace (depth + k + 1)%nat with (depth + 1 + k)%nat by lia.
      destruct (H (depth + 1)%nat) as (? & ? & ? & ? & _). auto. }
    repeat apply conj.
    + f_equal. apply list_sum_map_ext.
      eapply Forall_impl; [exact IH'|]. intros member H. apply H.
    + f_equal. apply list_sum_map_ext.
      eapply Forall_impl; [exact IH'|]. intros member H. apply H.
    + f_equal. apply list_sum_map_ext.
      eapply Forall_impl; [exact IH'|]. intros member H. apply H.
    + apply list_max_shift.
      eapply Forall_impl; [exact IH'|]. intros member H. apply H.
    + lia.
Qed.

End Statistics.

(** ** The tree preview of the parser library against the statistics *)

Section TreeAndStatistics.

Variable Number_toString : spec_float -> jstring.

Lemma createTreeNode_counts (v : JsonValue) :
  forall name parentPath depth,
    getFileCount (createTreeNode v name parentPath)
    = fileCount (analyzeJsonStructure v depth)
    /\ getFolderCount (createTreeNode v name parentPath)
       = (objectCount (analyzeJsonStructure v depth)
          + arrayCount (analyzeJsonStructure v depth))%nat.
Proof.
  induction v as [| b | x | s | items IH | members IH] using JsonValue_ind;
    intros name parentPath depth; try (split; reflexivity).
  - cbn [createTreeNode getFileCount getFolderCount analyzeJsonStructure].
    rewrite !fold_left_add, fileCount_fold.
    destruct (stats_fold (fun item => analyzeJsonStructure item (depth + 1))
                items {| objectCount := 0; arrayCount := 1; fileCount := 0;
                         maxDepth := depth |}) as (-> & -> & _).
    cbn [objectCount arrayCount fileCount].
    split.
    + simpl. apply list_sum_forEach_indexed.
      eapply Forall_impl; [exact IH|]. intros v Hv i. apply Hv.
    + rewrite (list_sum_forEach_indexed _ getFolderCount
                 (fun item =>
                    (objectCount (analyzeJsonStructure item (depth + 1))
                     + arrayCount (analyzeJsonStructure item (depth + 1)))%nat)).
      * rewrite list_sum_map_plus. lia.
      * eapply Forall_impl; [exact IH|]. intros v Hv i. apply Hv.
  - cbn [createTreeNode getFileCount getFolderCount analyzeJsonStructure].
    rewrite !fold_left_add, fileCount_fold.
    destruct (stats_fold
                (fun member => analyzeJsonStructure (snd member) (depth + 1))
                members {| objectCount := 1; arrayCount := 0; fileCount := 0;
                           maxDepth := depth |}) as (-> & -> & _).
    cbn [objectCount arrayCount fileCount]. rewrite !List.map_map.
    split.
    + simpl. apply list_sum_map_ext.
      eapply Forall_impl; [exact IH|]. intros [key v] Hv. apply Hv.
    + rewrite (list_sum_map_ext _
                 (fun member : jstring * JsonValue =>
                    (objectCount (analyzeJsonStructure (snd member) (depth + 1))
                     + arrayCount (analyzeJsonStructure (snd member) (depth + 1)))%nat)).
      * rewrite list_sum_map_plus. lia.
      * eapply Forall_impl; [exact IH|]. intros [key v] Hv. apply Hv.
Qed.

Lemma treeMaxDepth_children (children : list TreeNode) (depths : list nat)
  (depth : nat) :
  Forall2 (fun child m =>
             forall stats,
               treeMaxDepth (calculateStats Number_toString child depth stats)
               = Nat.max (treeMaxDepth stats) m)
          children depths ->
  forall stats,
    treeMaxDepth
      (fold_left (fun stats child =>
                    calculateStats Number_toString child depth stats)
         children stats)
    = Nat.max (treeMaxDepth stats) (list_max depths).
Proof.
  induction 1 as [|child m children depths Hc _ IH]; intros stats; simpl;
    [lia|].
  rewrite IH, Hc. lia.
Qed.

Lemma Forall2_forEach_indexed {A B C : Type} (f : A -> nat -> B) (g : A -> C)
  (R : B -> C -> Prop) (l : list A) :
  Forall (fun x => forall i, R (f x i) (g x)) l ->
  forall i, Forall2 R (forEach_indexed f i l) (List.map g l).
Proof.
  induction 1 as [|x l Hx _ IH]; intros i; simpl; constructor; auto.
Qed.

Lemma Forall2_map_both {A B C : Type} (f : A -> B) (g : A -> C)
  (R : B -> C -> Prop) (l : list A) :
  Forall (fun x => R (f x) (g x)) l -> Forall2 R (List.map f l) (List.map g l).
Proof. induction 1; simpl; constructor; auto. Qed.

Lemma createTreeNode_maxDepth (v : JsonValue) :
  forall name parentPath depth stats,
    treeMaxDepth
      (calculateStats Number_toString (createTreeNode v name parentPath)
         depth stats)
    = Nat.max (treeMaxDepth stats) (maxDepth (analyzeJsonStructure v depth)).
Proof.
  induction v as [| b | x | s | items IH | members IH] using JsonValue_ind;
    intros name parentPath depth stats; try reflexivity.
  - cbn [createTreeNode calculateStats analyzeJsonStructure].
    destruct (stats_fold (fun item => analyzeJsonStructure item (depth + 1))
                items {| objectCount := 0; arrayCount := 1; fileCount := 0;
                         maxDepth := depth |}) as (_ & _ & ->).
    rewrite (treeMaxDepth_children _
               (List.map (fun item =>
                            maxDepth (analyzeJsonStructure item (depth + 1)))
                  items)).
    + cbn [treeMaxDepth maxDepth]. lia.
    + apply Forall2_forEach_indexed.
      eapply Forall_impl; [exact IH|]. intros v Hv i st. apply Hv.
  - cbn [createTreeNode calculateStats analyzeJsonStructure].
    destruct (stats_fold
                (fun member => analyzeJsonStructure (snd member) (depth + 1))
                members {| objectCount := 1; arrayCount := 0; fileCount := 0;
                           maxDepth := depth |}) as (_ & _ & ->).
    rewrite (treeMaxDepth_children _
               (List.map (fun member : jstring * JsonValue =>
                            maxDepth (analyzeJsonStructure (snd member)
                                        (depth + 1)))
                  members)).
    + cbn [treeMaxDepth maxDepth]. lia.
    + apply Forall2_map_both.
      eapply Forall_impl; [exact IH|]. intros [key v] Hv st. apply Hv.
Qed.

(** The tree preview of the parser library has one file node per scalar and
    one folder node per object or array, and its deepest node is at the
    maximal depth of the statistics: the counts of [getTreeStatistics] on
    the tree are those of [analyzeJsonStructure] on the value. *)
Theorem generateTreeStructure_matches_statistics (jsonData : JsonValue)
  (rootName : jstring) :
  let tree := generateTreeStructure jsonData rootName in
  let stats := analyzeJsonStructure jsonData 0 in
  getFileCount tree = fileCount stats
  /\ getFolderCount tree = (objectCount stats + arrayCount stats)%nat
  /\ treeMaxDepth (getTreeStatistics Number_toString tree) = maxDepth stats.
Proof.
  cbv zeta. unfold generateTreeStructure, getTreeStatistics.
  destruct (createTreeNode_counts jsonData rootName [] 0%nat) as [-> ->].
  rewrite createTreeNode_maxDepth. cbn [treeMaxDepth]. repeat split.
Qed.

End TreeAndStatistics.

(** ** The structure preview of the generator *)

Section PreviewShape.

Lemma folderNodes_createFileStructure (v : JsonValue) :
  forall name depth depth',
    folderNodes (createFileStructure v name depth)
    = (objectCount (analyzeJsonStructure v depth')
       + arrayCount (analyzeJsonStructure v depth'))%nat.
Proof.
  induction v as [| b | x | s | items IH | members IH] using JsonValue_ind;
    intros name depth depth'; try reflexivity.
  - destruct items as [|item items]; [reflexivity|].
    cbn [createFileStructure folderNodes analyzeJsonStructure].
    destruct (stats_fold (fun item => analyzeJsonStructure item (depth' + 1))
                (item :: items)
                {| objectCount := 0; arrayCount := 1; fileCount := 0;
                   maxDepth := depth' |}) as (-> & -> & _).
    cbn [objectCount arrayCount].
    rewrite (list_sum_forEach_indexed _ folderNodes
               (fun item =>
                  (objectCount (analyzeJsonStructure item (depth' + 1))
                   + arrayCount (analyzeJsonStructure item (depth' + 1)))%nat)).
    + rewrite list_sum_map_plus. lia.
    + eapply Forall_impl; [exact IH|]. intros v Hv i. cbv beta.
      destruct (is_container v) eqn:E; [apply Hv|].
      destruct v; try discriminate E; reflexivity.
  - destruct members as [|member members]; [reflexivity|].
    cbn [createFileStructure folderNodes analyzeJsonStructure].
    destruct (stats_fold
                (fun member => analyzeJsonStructure (snd member) (depth' + 1))
                (member :: members)
                {| objectCount := 1; arrayCount := 0; fileCount := 0;
                   maxDepth := depth' |}) as (-> & -> & _).
    cbn [objectCount arrayCount]. rewrite List.map_map.
    rewrite (list_sum_map_ext _
               (fun member : jstring * JsonValue =>
                  (objectCount (analyzeJsonStructure (snd member) (depth' + 1))
                   + arrayCount (analyzeJsonStructure (snd member) (depth' + 1)))%nat)).
    + rewrite list_sum_map_plus. lia.
    + eapply Forall_impl; [exact IH|]. intros [key v] Hv. cbn [fst snd] in *.
      destruct (is_container v) eqn:E; [apply Hv|].
      destruct v; try discriminate E; reflexivity.
Qed.

Lemma createFileStructure_depth (v : JsonValue) name depth :
  node_depth (createFileStructure v name depth) = depth.
Proof. destruct v; reflexivity. Qed.

Lemma createFileStructure_depths (v : JsonValue) :
  forall name depth, depths_consistent (createFileStructure v name depth) = true.
Proof.
  induction v as [| b | x | s | items IH | members IH] using JsonValue_ind;
    intros name depth; try reflexivity.
  - destruct items as [|item items].
    + cbn. rewrite Nat.eqb_refl. reflexivity.
    + cbn [createFileStructure depths_consistent].
      apply forallb_forEach_indexed.
      eapply Forall_impl; [exact IH|]. intros v Hv i. cbv beta.
      destruct (is_container v).
      * rewrite createFileStructure_depth, Nat.eqb_refl. apply Hv.
      * cbn. rewrite Nat.eqb_refl. reflexivity.
  - destruct members as [|member members].
    + cbn. rewrite Nat.eqb_refl. reflexivity.
    + cbn [createFileStructure depths_consistent].
      rewrite forallb_forall. intros child Hin.
      apply in_map_iff in Hin as ([key v] & <- & Hin).
      rewrite Forall_forall in IH.
      specialize (IH (key, v) ltac:(apply list_elem_of_In; exact Hin)).
      cbn [fst snd] in *.
      destruct (is_container v).
      * rewrite createFileStructure_depth, Nat.eqb_refl. apply IH.
      * cbn. rewrite Nat.eqb_refl. reflexivity.
Qed.

(** The preview of the generator has one folder node per object or array of
    the value; the root is at the depth given and every child is one level
    below its parent. *)
Theorem createFileStructure_shape (data : JsonValue) (name : jstring)
  (depth : nat) :
  folderNodes (createFileStructure data name depth)
  = (objectCount (analyzeJsonStructure data 0)
     + arrayCount (analyzeJsonStructure data 0))%nat
  /\ node_depth (createFileStructure data name depth) = depth
  /\ depths_consistent (createFileStructure data name depth) = true.
Proof.
  split; [apply folderNodes_createFileStructure|].
  split; [apply createFileStructure_depth|apply createFileStructure_depths].
Qed.

Lemma safe_name_sanitizeFileName name : safe_name (sanitizeFileName name).
Proof.
  destruct (sanitizeFileName_tidy name) as (Hc & _ & _).
  eapply Forall_impl; [exact Hc|]. intros c. apply clean_unit_spec.
Qed.

Lemma safe_name_plain t :
  Forall (fun c => plain_unit c = true) t -> safe_name t.
Proof.
  intros H. eapply Forall_impl; [exact H|]. intros c Hc.
  unfold plain_unit in Hc. apply andb_true_iff in Hc as [Hc _].
  apply clean_unit_spec, Hc.
Qed.

Lemma safe_name_itemName index : safe_name (itemName index).
Proof.
  unfold itemName. apply Forall_app. split.
  - repeat constructor.
  - apply safe_name_plain, number_part_plain.
Qed.

Lemma safe_name_json name : safe_name name -> safe_name (name ++ js ".json").
Proof. intros H. apply Forall_app. split; [exact H|repeat constructor]. Qed.

(** In the preview of an object or array no node name holds a forbidden
    character or white space; in particular no name holds a slash. *)
Theorem createFileStructure_names_safe (data : JsonValue) (name : jstring)
  (depth : nat) :
  is_container data = true ->
  Forall safe_name (node_names (createFileStructure data name depth)).
Proof.
  revert name depth.
  induction data as [| b | x | s | items IH | members IH] using JsonValue_ind;
    intros name depth Hc; try discriminate Hc.
  - destruct items as [|item items].
    + cbn [createFileStructure node_names List.map concat app].
      constructor; [apply safe_name_sanitizeFileName|].
      constructor; [|constructor]. repeat constructor.
    + cbn [createFileStructure node_names]. constructor;
        [apply safe_name_sanitizeFileName|].
      apply Forall_concat, Forall_forall. intros names Hin.
      apply list_elem_of_In, in_map_iff in Hin as (child & <- & Hin).
      apply list_elem_of_In, list_elem_of_lookup in Hin as [i Hi].
      rewrite lookup_forEach_indexed in Hi.
      destruct ((item :: items) !! i) as [v|] eqn:Hv; [|discriminate Hi].
      injection Hi as <-.
      rewrite Forall_forall in IH.
      specialize (IH v ltac:(eapply list_elem_of_lookup_2; exact Hv)).
      destruct (is_container v) eqn:E; [apply IH; reflexivity|].
      change (Forall safe_name [itemName (0 + i) ++ js ".json"]).
      apply Forall_singleton, safe_name_json, safe_name_itemName.
  - destruct members as [|member members].
    + cbn [createFileStructure node_names List.map concat app].
      constructor; [apply safe_name_sanitizeFileName|].
      constructor; [|constructor]. repeat constructor.
    + cbn [createFileStructure node_names]. constructor;
        [apply safe_name_sanitizeFileName|].
      apply Forall_concat, Forall_forall. intros names Hin.
      apply list_elem_of_In, in_map_iff in Hin as (child & <- & Hin).
      apply in_map_iff in Hin as ([key v] & <- & Hin).
      rewrite Forall_forall in IH.
      specialize (IH (key, v) ltac:(apply list_elem_of_In; exact Hin)).
      cbn [fst snd] in *.
      destruct (is_container v) eqn:E; [apply IH; reflexivity|].
      change (Forall safe_name [sanitizeFileName key ++ js ".json"]).
      apply Forall_singleton, safe_name_json, safe_name_sanitizeFileName.
Qed.

Lemma createFileStructure_names_safe_witness :
  Forall safe_name (node_names (createFileStructure sample_value (js "my root") 0)).
Proof. apply createFileStructure_names_safe. reflexivity. Defined.

End PreviewShape.

(** ** More about the archive of the generator *)

Section ArchiveContents.

Variable clock : nat -> jstring.

Lemma for_indexed_calls {A : Type} (P : ZipCall -> Prop)
  (body : nat -> A -> list ZipCall -> list ZipCall) (l : list A) :
  Forall (fun x => forall i zip,
            exists calls, body i x zip = zip ++ calls /\ Forall P calls) l ->
  forall i zip,
    exists calls, for_indexed body i l zip = zip ++ calls /\ Forall P calls.
Proof.
  induction 1 as [|x l Hx _ IH]; intros i zip; simpl.
  - exists []. split; [symmetry; apply app_nil_r|constructor].
  - destruct (Hx i zip) as (c1 & -> & H1).
    destruct (IH (S i) (zip ++ c1)) as (c2 & -> & H2).
    exists (c1 ++ c2). split; [symmetry; apply app_assoc|].
    apply Forall_app. auto.
Qed.

Lemma fold_left_calls {A : Type} (P : ZipCall -> Prop)
  (body : list ZipCall -> A -> list ZipCall) (l : list A) :
  Forall (fun x => forall zip,
            exists calls, body zip x = zip ++ calls /\ Forall P calls) l ->
  forall zip,
    exists calls, fold_left body l zip = zip ++ calls /\ Forall P calls.
Proof.
  induction 1 as [|x l Hx _ IH]; intros zip; simpl.
  - exists []. split; [symmetry; apply app_nil_r|constructor].
  - destruct (Hx zip) as (c1 & -> & H1).
    destruct (IH (zip ++ c1)) as (c2 & -> & H2).
    exists (c1 ++ c2). split; [symmetry; apply app_assoc|].
    apply Forall_app. auto.
Qed.

Lemma startsWith_app (s t : jstring) : startsWith (s ++ t) s = true.
Proof.
  induction s as [|c s IH]; [destruct t; reflexivity|].
  cbn [app startsWith]. rewrite N.eqb_refl. exact IH.
Qed.

Lemma startsWith_prefix (s p : jstring) :
  startsWith s p = true <-> exists rest, s = p ++ rest.
Proof.
  split.
  - revert s. induction p as [|c p IH]; intros s H; [exists s; reflexivity|].
    destruct s as [|d s]; [discriminate H|]. cbn [startsWith] in H.
    apply andb_true_iff in H as [E H]. apply N.eqb_eq in E. subst d.
    destruct (IH s H) as [rest ->]. exists rest. reflexivity.
  - intros [rest ->]. apply startsWith_app.
Qed.

Lemma forceTrailingSlash_extends (path : jstring) :
  exists rest, forceTrailingSlash path = path ++ rest.
Proof.
  unfold forceTrailingSlash. destruct (endsWith path (js "/")).
  - exists []. symmetry. apply app_nil_r.
  - eexists. reflexivity.
Qed.

Lemma zip_file_inside folder name data zip :
  exists calls,
    zip_file folder name data zip = zip ++ calls
    /\ Forall (fun call => exists rest, call_name call = folder ++ rest) calls.
Proof.
  eexists. split; [reflexivity|]. constructor; [|constructor].
  exists name. reflexivity.
Qed.

(** All the calls of [processJsonNode] are made on names that extend the
    root of the folder object. *)
Lemma processJsonNode_inside (v : JsonValue) :
  forall folder path config zip,
    exists calls,
      processJsonNode clock folder v path config zip = zip ++ calls
      /\ Forall (fun call => exists rest, call_name call = folder ++ rest) calls.
Proof.
  induction v as [| b | x | s | items IH | members IH] using JsonValue_ind;
    intros folder path config zip; try apply zip_file_inside.
  - destruct items as [|item items]; [apply zip_file_inside|].
    cbn [processJsonNode]. apply for_indexed_calls.
    eapply Forall_impl; [exact IH|]. intros v Hv i st. cbv beta zeta.
    destruct (is_container v); [|apply zip_file_inside].
    destruct (itemName_cons i) as (c & t & E). rewrite E.
    cbn [zip_folder fst snd]. rewrite <- E.
    edestruct Hv as (c2 & -> & H2).
    exists (CallFolder (folder ++ itemName i) :: c2).
    split; [rewrite <- app_assoc; reflexivity|].
    constructor; [exists (itemName i); reflexivity|].
    eapply Forall_impl; [exact H2|]. intros call [rest ->].
    destruct (forceTrailingSlash_extends (folder ++ itemName i)) as [r ->].
    exists (itemName i ++ r ++ rest). rewrite <- !app_assoc. reflexivity.
  - destruct members as [|member members]; [apply zip_file_inside|].
    cbn [processJsonNode]. apply fold_left_calls.
    eapply Forall_impl; [exact IH|]. intros [key v] Hv st.
    cbn [fst snd] in *. cbv zeta.
    assert (Hsub : exists calls,
      processJsonNode clock (fst (zip_folder folder (sanitizeFileName key) st))
        v (path ++ js "/" ++ sanitizeFileName key) config
        (snd (zip_folder folder (sanitizeFileName key) st)) = st ++ calls
      /\ Forall (fun call => exists rest, call_name call = folder ++ rest) calls).
    { destruct (sanitizeFileName key) as [|c t] eqn:E.
      - cbn [zip_folder fst snd]. apply Hv.
      - cbn [zip_folder fst snd]. rewrite <- E.
        edestruct Hv as (c2 & -> & H2).
        exists (CallFolder (folder ++ sanitizeFileName key) :: c2).
        split; [rewrite <- app_assoc; reflexivity|].
        constructor; [exists (sanitizeFileName key); reflexivity|].
        eapply Forall_impl; [exact H2|]. intros call [rest ->].
        destruct (forceTrailingSlash_extends (folder ++ sanitizeFileName key))
          as [r ->].
        exists (sanitizeFileName key ++ r ++ rest).
        rewrite <- !app_assoc. reflexivity. }
    destruct v as [| b | x | s | l | [|m ms]];
      try (destruct (timestampFiles config); apply zip_file_inside);
      try apply zip_file_inside; exact Hsub.
Qed.

(** Every file entry of the archive lies in the root folder: its name
    begins with the name of the root and a slash. *)
Theorem generateZipFromJson_inside_root (jsonData : JsonValue)
  (rootName : jstring) (options : Options) (name : jstring) :
  rootName <> [] ->
  name ∈ dom (file_entries (generateZipFromJson clock jsonData rootName options)) ->
  startsWith name (forceTrailingSlash rootName) = true.
Proof.
  intros Hroot Hin. unfold generateZipFromJson in Hin.
  rewrite dom_file_entries_generateAsync, elem_of_list_to_set,
    list_elem_of_filter in Hin.
  destruct Hin as [_ Hin].
  unfold generateZipCalls in Hin. cbv zeta in Hin.
  destruct rootName as [|c root]; [congruence|].
  cbn [zip_folder fst snd app] in Hin.
  set (folder := forceTrailingSlash (c :: root)) in *.
  destruct (processJsonNode_inside jsonData folder [] (mergeConfig options)
              [CallFolder (c :: root)]) as (calls & E & Hcalls).
  rewrite E in Hin. clear E.
  assert (Hdata : forall n, n ∈ written_files ([CallFolder (c :: root)] ++ calls) ->
                            startsWith n folder = true).
  { intros n Hn. rewrite written_files_app in Hn. cbn [written_files omap app] in Hn.
    apply list_elem_of_omap in Hn as (call & Hcall & Hname).
    rewrite Forall_forall in Hcalls. destruct (Hcalls call Hcall) as [rest Hr].
    destruct call as [|n' data]; [discriminate Hname|].
    injection Hname as <-. cbn [call_name] in Hr. rewrite Hr.
    apply startsWith_app. }
  destruct (createReadme (mergeConfig options)),
    (includeMetadata (mergeConfig options));
    rewrite ?written_files_zip_file in Hin;
    repeat (apply elem_of_app in Hin as [Hin|Hin]);
    try (apply Hdata, Hin);
    apply list_elem_of_singleton in Hin; subst name; apply startsWith_app.
Qed.

(** *** The README and the metadata are written last *)

Lemma endsWith_slash_app (s t : jstring) :
  t <> [] -> endsWith (s ++ t) (js "/") = endsWith t (js "/").
Proof.
  intros H. unfold endsWith. rewrite reverse_app.
  change (reverse (js "/")) with [slash].
  assert (Hnil : forall x : jstring, startsWith x [] = true)
    by (intros [|? ?]; reflexivity).
  destruct (reverse t) as [|c r] eqn:E.
  - apply (f_equal reverse) in E. rewrite reverse_involutive in E.
    contradiction.
  - cbn [app startsWith]. rewrite !Hnil. reflexivity.
Qed.

Lemma zip_files_snoc_file calls name data :
  zip_files (calls ++ [CallFile name data]) !! name = Some (FileEntry data).
Proof.
  unfold zip_files. rewrite fold_left_app. cbn [fold_left apply_call].
  apply fileAdd_file. left. auto.
Qed.

Lemma zip_files_snoc_other calls name data other data' :
  other <> name ->
  zip_files calls !! other = Some (FileEntry data') ->
  zip_files (calls ++ [CallFile name data]) !! other = Some (FileEntry data').
Proof.
  intros Hne H. unfold zip_files in *. rewrite fold_left_app.
  cbn [fold_left apply_call]. apply fileAdd_file. right. auto.
Qed.

(** When they are enabled, the README and the metadata of the archive are
    the generated ones, whatever the data holds: they are written after the
    data, under two different names. *)
Theorem generateZipFromJson_extras (jsonData : JsonValue) (rootName : jstring)
  (options : Options) :
  let archive := generateZipFromJson clock jsonData rootName options in
  let root := fst (zip_folder [] rootName []) in
  let stats := analyzeJsonStructure jsonData 0 in
  (createReadme (mergeConfig options) = true ->
   archive !! (root ++ js "README.md") = Some (FileEntry (Readme rootName stats)))
  /\ (includeMetadata (mergeConfig options) = true ->
      archive !! (root ++ js "_metadata.json")
      = Some (FileEntry (Metadata rootName jsonData stats))).
Proof.
  cbv zeta. unfold generateZipFromJson.
  split; intros H;
    rewrite generateAsync_lookup_file
      by (rewrite endsWith_slash_app by discriminate; reflexivity);
    unfold generateZipCalls; cbv zeta; rewrite H.
  - destruct (includeMetadata (mergeConfig options)).
    + unfold zip_file at 1. apply zip_files_snoc_other.
      * intros E. apply app_inv_head in E. discriminate E.
      * apply zip_files_snoc_file.
    + apply zip_files_snoc_file.
  - apply zip_files_snoc_file.
Qed.

End ArchiveContents.

Lemma generateZipFromJson_inside_root_witness :
  startsWith (js "root/tags/item_000.json") (forceTrailingSlash (js "root")) = true.
Proof.
  apply (generateZipFromJson_inside_root frozen_clock sample_value (js "root")
           no_options); [discriminate|].
  apply elem_of_dom. vm_compute. eauto.
Defined.

Lemma generateZipFromJson_extras_witness :
  generateZipFromJson frozen_clock
    (JObject [(js "README", JString (js "mine"))]) (js "root")
    (mkOptions None (Some (js ".md")) None None)
    !! js "root/README.md"
  = Some (FileEntry
            (Readme (js "root")
               (analyzeJsonStructure
                  (JObject [(js "README", JString (js "mine"))]) 0))).
Proof.
  apply (proj1 (generateZipFromJson_extras frozen_clock
                  (JObject [(js "README", JString (js "mine"))]) (js "root")
                  (mkOptions None (Some (js ".md")) None None))).
  reflexivity.
Defined.

(** ** The archive has the files of the preview *)

Section Mirror.

Variable clock : nat -> jstring.

Lemma no_double_underscore_app (s t : jstring) :
  no_double_underscore s = true -> no_double_underscore t = true ->
  head t <> Some underscore ->
  no_double_underscore (s ++ t) = true.
Proof.
  intros Hs Ht Hh. induction s as [|c s IH]; [exact Ht|].
  cbn [no_double_underscore] in Hs. apply andb_true_iff in Hs as [Hc Hs].
  cbn [app no_double_underscore]. rewrite (IH Hs), andb_true_r.
  destruct s as [|d s]; [|exact Hc].
  cbn [app]. destruct t as [|e t]; [exact Hc|].
  destruct (is_underscore e) eqn:E; [|apply negb_true_iff, andb_false_r].
  apply is_underscore_spec in E. subst e. exfalso. apply Hh. reflexivity.
Qed.

(** A scalar member is written under its sanitized key and the extension:
    the second pass of the sanitizer changes nothing. *)
Lemma sanitizeFileName_key_json (key : jstring) :
  (length (sanitizeFileName key) <= 250)%nat ->
  sanitizeFileName (sanitizeFileName key ++ js ".json")
  = sanitizeFileName key ++ js ".json".
Proof.
  intros Hl. destruct (sanitizeFileName_tidy key) as (Hc & Hn & Hh).
  rewrite sanitizeFileName_on_tidy.
  - apply strip_trailing_underscore_fixed.
    change (js ".json") with ([46; 106; 115; 111] ++ [110]).
    rewrite app_assoc, last_snoc. discriminate.
  - repeat apply conj.
    + apply Forall_app. split; [exact Hc|repeat constructor].
    + apply no_double_underscore_app; [exact Hn|reflexivity|discriminate].
    + destruct (sanitizeFileName key); [discriminate|exact Hh].
  - rewrite length_app. change (length (js ".json")) with 5%nat. lia.
Qed.

Lemma sanitizeFileName_shorter (s : jstring) :
  (length (sanitizeFileName s) <= length s)%nat.
Proof.
  unfold sanitizeFileName, substring0. rewrite length_take.
  etransitivity; [apply Nat.le_min_r|].
  etransitivity; [apply strip_edge_underscores_length|].
  etransitivity; [apply replace_runs_length|].
  etransitivity; [apply replace_runs_length|].
  rewrite replace_each_length. reflexivity.
Qed.

Lemma endsWith_last (s : jstring) (c : N) :
  endsWith s [c] = true <-> last s = Some c.
Proof.
  unfold endsWith. change (reverse [c]) with [c].
  rewrite <- head_reverse. destruct (reverse s) as [|d r]; cbn [startsWith head].
  - split; discriminate.
  - replace (startsWith r []) with true by (destruct r; reflexivity).
    rewrite andb_true_r, N.eqb_eq. split; [intros ->; reflexivity|].
    intros [= ->]. reflexivity.
Qed.

Lemma forceTrailingSlash_safe (folder name : jstring) :
  name <> [] -> safe_name name ->
  forceTrailingSlash (folder ++ name) = folder ++ name ++ js "/".
Proof.
  intros Hne Hs. unfold forceTrailingSlash.
  destruct (endsWith (folder ++ name) (js "/")) eqn:E;
    [|symmetry; apply app_assoc].
  exfalso. change (js "/") with [47] in E. apply endsWith_last in E.
  destruct (exists_last Hne) as (front & c & ->).
  rewrite app_assoc, last_snoc in E. injection E as ->.
  apply Forall_app in Hs as [_ Hs]. inversion Hs as [|? ? [Hf _] _]; subst.
  discriminate Hf.
Qed.

Lemma leafPaths_container (v : JsonValue) prefix name depth :
  is_container v = true ->
  leafPaths prefix (createFileStructure v name depth)
  = childLeafPaths (prefix ++ sanitizeFileName name ++ js "/")
      (createFileStructure v name depth).
Proof. destruct v; intros H; try discriminate H; reflexivity. Qed.

Lemma written_for_indexed {A : Type}
  (body : nat -> A -> list ZipCall -> list ZipCall)
  (g : A -> nat -> list jstring) (l : list A) :
  forall start zip,
    (forall k x zip,
        l !! k = Some x ->
        written_files (body (start + k)%nat x zip)
        = written_files zip ++ g x (start + k)%nat) ->
    written_files (for_indexed body start l zip)
    = written_files zip ++ concat (forEach_indexed g start l).
Proof.
  induction l as [|x l IH]; intros start zip H; cbn [for_indexed forEach_indexed concat].
  - symmetry. apply app_nil_r.
  - rewrite IH.
    + pose proof (H 0%nat x zip eq_refl) as E. rewrite Nat.add_0_r in E.
      rewrite E, <- app_assoc. reflexivity.
    + intros k y zip' Hk.
      replace (S start + k)%nat with (start + S k)%nat by lia.
      apply (H (S k)). exact Hk.
Qed.

Lemma written_fold_left {A : Type}
  (body : list ZipCall -> A -> list ZipCall) (g : A -> list jstring)
  (l : list A) :
  forall zip,
    (forall x zip, In x l ->
                   written_files (body zip x) = written_files zip ++ g x) ->
    written_files (fold_left body l zip)
    = written_files zip ++ concat (List.map g l).
Proof.
  induction l as [|x l IH]; intros zip H; cbn [fold_left List.map concat].
  - symmetry. apply app_nil_r.
  - rewrite IH by (intros; apply H; right; assumption).
    rewrite (H x zip (or_introl eq_refl)), <- app_assoc. reflexivity.
Qed.

Lemma map_forEach_indexed {A B C : Type} (f : A -> nat -> B) (h : B -> C)
  (l : list A) : forall start,
  List.map h (forEach_indexed f start l)
  = forEach_indexed (fun x i => h (f x i)) start l.
Proof.
  induction l as [|x l IH]; intros start; simpl; [reflexivity|].
  rewrite IH. reflexivity.
Qed.

Lemma index_bound (items : list JsonValue) (k : nat) (x : JsonValue) :
  (N.of_nat (length items) <? 2 ^ 32) = true ->
  items !! k = Some x -> (k < 2 ^ 32)%nat.
Proof.
  intros H Hk. apply N.ltb_lt in H. apply lookup_lt_Some in Hk.
  apply Nat2Z.inj_lt. rewrite Nat2Z.inj_pow.
  change (Z.of_nat 2 ^ Z.of_nat 32)%Z with (Z.of_N (2 ^ 32)).
  lia.
Qed.

(** [mirrored] on an array, as an equation. *)
Lemma mirrored_array (items : list JsonValue) :
  mirrored (JArray items)
  = (N.of_nat (length items) <? 2 ^ 32) && forallb mirrored items.
Proof. reflexivity. Qed.

(** With the default extension and without time stamps, [processJsonNode]
    writes into a folder the files that the preview shows below it. *)
Lemma processJsonNode_mirrors (v : JsonValue) :
  forall folder path config zip name depth,
    fileExtension config = js ".json" ->
    timestampFiles config = false ->
    is_container v = true ->
    mirrored v = true ->
    written_files (processJsonNode clock folder v path config zip)
    = written_files zip
      ++ childLeafPaths folder (createFileStructure v name depth).
Proof.
  induction v as [| b | x | s | items IH | members IH] using JsonValue_ind;
    intros folder path config zip name depth Hext Hts Hc Hm;
    try discriminate Hc.
  - destruct items as [|item items].
    { cbn [processJsonNode]. rewrite written_files_zip_file. reflexivity. }
    rewrite mirrored_array in Hm. apply andb_true_iff in Hm as [Hlen Hm].
    cbn [processJsonNode createFileStructure].
    unfold childLeafPaths. cbn [node_children].
    rewrite map_forEach_indexed.
    apply written_for_indexed. intros k v zip' Hk. cbn [Nat.add].
    pose proof (index_bound _ _ _ Hlen Hk) as Hbound.
    assert (Hv : mirrored v = true).
    { rewrite forallb_forall in Hm. apply Hm.
      apply list_elem_of_In. eapply list_elem_of_lookup_2. exact Hk. }
    rewrite Forall_forall in IH.
    specialize (IH v ltac:(eapply list_elem_of_lookup_2; exact Hk)).
    destruct (is_container v) eqn:E.
    + destruct (itemName_cons k) as (c & t & En). rewrite En.
      cbn [zip_folder fst snd]. rewrite <- En.
      rewrite (IH _ _ _ _ (itemName k) (depth + 1)%nat Hext Hts eq_refl Hv).
      rewrite written_files_app. cbn [written_files omap]. rewrite app_nil_r.
      f_equal. rewrite leafPaths_container by exact E.
      rewrite sanitizeFileName_itemName by exact Hbound.
      rewrite forceTrailingSlash_safe;
        [reflexivity|rewrite En; discriminate|apply safe_name_itemName].
    + rewrite written_files_zip_file, Hext.
      rewrite sanitizeFileName_itemName_json by exact Hbound. reflexivity.
  - destruct members as [|member members].
    { cbn [processJsonNode]. rewrite written_files_zip_file. reflexivity. }
    cbn [processJsonNode createFileStructure].
    unfold childLeafPaths. cbn [node_children]. rewrite List.map_map.
    apply written_fold_left. intros [key v] zip' Hin. cbn [fst snd]. cbv zeta.
    cbn [mirrored] in Hm. rewrite forallb_forall in Hm.
    specialize (Hm _ Hin). cbn [fst snd] in Hm.
    apply andb_true_iff in Hm as [Hkey Hm]. apply Nat.leb_le in Hkey.
    pose proof (sanitizeFileName_shorter key) as Hshort.
    rewrite Forall_forall in IH.
    specialize (IH (key, v) ltac:(apply list_elem_of_In; exact Hin)).
    cbn [snd] in IH.
    assert (Hfolder : is_container v = true ->
      negb (Nat.eqb (length (sanitizeFileName key)) 0) && mirrored v = true ->
      written_files
        (processJsonNode clock
           (fst (zip_folder folder (sanitizeFileName key) zip')) v
           (path ++ js "/" ++ sanitizeFileName key) config
           (snd (zip_folder folder (sanitizeFileName key) zip')))
      = written_files zip'
        ++ leafPaths folder
             (createFileStructure v (sanitizeFileName key) (depth + 1))).
    { intros E H. apply andb_true_iff in H as [Hne Hv].
      rewrite (IH _ _ _ _ (sanitizeFileName key) (depth + 1)%nat
                 Hext Hts E Hv).
      rewrite written_files_zip_folder. f_equal.
      rewrite leafPaths_container by exact E.
      assert (Hfix : sanitizeFileName (sanitizeFileName key)
                     = sanitizeFileName key).
      { rewrite sanitizeFileName_twice.
        apply strip_trailing_underscore_fixed, sanitizeFileName_short_last.
        lia. }
      rewrite Hfix.
      destruct (sanitizeFileName key) as [|c t] eqn:Ek; [discriminate Hne|].
      cbn [zip_folder fst]. rewrite <- Ek.
      rewrite forceTrailingSlash_safe;
        [reflexivity|rewrite Ek; discriminate|apply safe_name_sanitizeFileName]. }
    destruct v as [| b | x | s | l | [|m ms]]; cbn [is_container];
      try (rewrite Hts, written_files_zip_file, Hext;
           rewrite sanitizeFileName_key_json by lia; reflexivity);
      try discriminate Hm; apply Hfolder; auto.
Qed.

(** With the default extension and without time stamps, the files that the
    generator writes for an object or array are the file nodes of its
    preview, in the same order and under the same paths, followed by the
    README and the metadata when they are enabled. This holds when arrays
    have fewer than 2^32 elements, keys have at most 250 units, no key of a
    nested object or array sanitizes to the empty name and no member is the
    empty object. *)
Theorem archive_has_preview_files (jsonData : JsonValue)
  (rootName name : jstring) (options : Options) :
  is_container jsonData = true ->
  mirrored jsonData = true ->
  fileExtension (mergeConfig options) = js ".json" ->
  timestampFiles (mergeConfig options) = false ->
  written_files (generateZipCalls clock jsonData rootName options)
  = childLeafPaths (fst (zip_folder [] rootName []))
      (createFileStructure jsonData name 0)
    ++ (if createReadme (mergeConfig options)
        then [fst (zip_folder [] rootName []) ++ js "README.md"] else [])
    ++ (if includeMetadata (mergeConfig options)
        then [fst (zip_folder [] rootName []) ++ js "_metadata.json"] else []).
Proof.
  intros Hc Hm Hext Hts. unfold generateZipCalls. cbv zeta.
  pose proof (processJsonNode_mirrors jsonData (fst (zip_folder [] rootName []))
                [] (mergeConfig options) (snd (zip_folder [] rootName []))
                name 0%nat Hext Hts Hc Hm) as E.
  rewrite written_files_zip_folder in E. cbn [written_files omap app] in E.
  destruct (createReadme (mergeConfig options)),
    (includeMetadata (mergeConfig options));
    rewrite ?written_files_zip_file, E, <- ?app_assoc, ?app_nil_r;
    reflexivity.
Qed.

End Mirror.

Lemma archive_has_preview_files_witness :
  written_files (generateZipCalls frozen_clock sample_value (js "root") no_options)
  = childLeafPaths (js "root/") (createFileStructure sample_value (js "root") 0)
    ++ [js "root/README.md"] ++ [js "root/_metadata.json"].
Proof.
  apply (archive_has_preview_files frozen_clock sample_value (js "root")
           (js "root") no_options); reflexivity.
Defined.

(** ** The archive of the HTTP handler *)

Section HandlerArchive.

Variable Number_toString : spec_float -> jstring.




End HandlerArchive.


(** A [zipName] with a line feed: [setHeader] throws and the answer is 500,
    although [jsonData] is truthy. *)
Example handler_refuses_line_feed :
  handler (fun _ => js "0")
    (mkRequest (js "POST")
       (Some (mkBody (Some (JBoolean true)) (Some (JString [97; 10; 98])))))
  = mkResponse 500 (ErrorJson (js "Failed to generate ZIP file")).
Proof. reflexivity. Qed.

(** ** The rest of the parser library *)

Section ParserInput.

Variable JSON_parse : jstring -> ParseOutcome.

(** [parseJsonInput] succeeds exactly on a text that is not blank and that
    [JSON.parse] turns into a value other than [null]; the data are then that
    value and there is no error. In every other case the data are [null]
    and an error is given, and a blank text is refused without parsing. *)
Theorem parseJsonInput_outcome (jsonString : jstring) :
  (success (parseJsonInput JSON_parse jsonString) = true
   <-> trim jsonString <> []
       /\ exists value, JSON_parse jsonString = Parsed value /\ value <> JNull)
  /\ (forall value,
        data (parseJsonInput JSON_parse jsonString) = Some value ->
        success (parseJsonInput JSON_parse jsonString) = true
        /\ JSON_parse jsonString = Parsed value /\ value <> JNull
        /\ error (parseJsonInput JSON_parse jsonString) = None)
  /\ (success (parseJsonInput JSON_parse jsonString) = false ->
      data (parseJsonInput JSON_parse jsonString) = None
      /\ error (parseJsonInput JSON_parse jsonString) <> None)
  /\ (trim jsonString = [] ->
      parseJsonInput JSON_parse jsonString
      = mkParseResult false (Some (js "JSON input cannot be empty")) None).
Proof.
  unfold parseJsonInput.
  assert (Hblank : trim jsonString = [] ->
                   Nat.eqb (length jsonString) 0
                   || Nat.eqb (length (trim jsonString)) 0 = true).
  { intros ->. apply orb_true_r. }
  assert (Hfull : trim jsonString <> [] ->
                  Nat.eqb (length jsonString) 0
                  || Nat.eqb (length (trim jsonString)) 0 = false).
  { intros H. apply orb_false_iff. split; apply Nat.eqb_neq.
    - intros E. apply H. destruct jsonString; [reflexivity|discriminate E].
    - intros E. apply H. destruct (trim jsonString); [reflexivity|discriminate E]. }
  destruct (trim jsonString) as [|c t] eqn:Et.
  - rewrite (Hblank eq_refl). cbn. repeat split; try discriminate; try tauto.
  - rewrite (Hfull ltac:(discriminate)).
    destruct (JSON_parse jsonString) as [[| b | x | s | items | members]|message];
      cbn; repeat split; try discriminate; try tauto;
      try (intros _; split; [discriminate|eexists; split; [reflexivity|discriminate]]);
      try (intros (_ & value & [= <-] & H); congruence);
      try (intros (_ & value & H & _); discriminate H);
      try (eexists; split; [reflexivity|discriminate]);
      congruence.
Qed.

End ParserInput.

(** *** The validation of the keys *)

Section ParserValidation.

Variable toUpperCase : jstring -> jstring.

Lemma checkKey_length key currentPath (warnings : list jstring) :
  length (checkKey toUpperCase key currentPath warnings)
  = (length warnings + key_warnings toUpperCase key)%nat.
Proof.
  unfold checkKey, key_warnings.
  destruct (existsb is_invalid_char key),
    (bool_decide (toUpperCase key ∈ reservedNames));
    rewrite ?length_app; simpl; lia.
Qed.

Lemma for_indexed_measure_at {A St : Type} (body : nat -> A -> St -> St)
  (g : St -> nat) (h : A -> nat -> nat) (l : list A) :
  Forall (fun x => forall i st, g (body i x st) = (g st + h x i)%nat) l ->
  forall i st,
    g (for_indexed body i l st)
    = (g st + list_sum (forEach_indexed h i l))%nat.
Proof.
  induction 1 as [|x l Hx _ IH]; intros i st; simpl; [lia|].
  rewrite IH, Hx. lia.
Qed.

Lemma list_sum_concat (ls : list (list nat)) :
  list_sum (concat ls) = list_sum (List.map list_sum ls).
Proof.
  induction ls as [|l ls IH]; simpl; [reflexivity|].
  rewrite list_sum_app, IH. reflexivity.
Qed.

Lemma validateKeys_length (v : JsonValue) :
  forall path (warnings : list jstring),
    length (validateKeys toUpperCase v path warnings)
    = (length warnings
       + list_sum (List.map (key_warnings toUpperCase) (visited_keys v)))%nat.
Proof.
  induction v as [| b | x | s | items IH | members IH] using JsonValue_ind;
    intros path warnings; try (simpl; lia).
  - cbn [validateKeys visited_keys].
    rewrite concat_map, list_sum_concat, map_forEach_indexed,
      map_forEach_indexed.
    apply (for_indexed_measure_at _ (@length jstring)).
    eapply Forall_impl; [exact IH|]. intros v Hv i st. cbv beta zeta.
    cbn [List.map list_sum fold_right].
    destruct (is_container v) eqn:E.
    + rewrite Hv, checkKey_length. unfold list_sum. cbn [fold_right]. lia.
    + rewrite checkKey_length. unfold list_sum.
      destruct v; try discriminate E; simpl; lia.
  - cbn [validateKeys visited_keys].
    rewrite concat_map, list_sum_concat, !List.map_map.
    apply (fold_left_measure _ (@length jstring)).
    eapply Forall_impl; [exact IH|]. intros [key v] Hv st.
    cbn [fst snd] in *. cbv zeta. cbn [List.map list_sum fold_right].
    destruct (is_container v) eqn:E.
    + rewrite Hv, checkKey_length. unfold list_sum. cbn [fold_right]. lia.
    + rewrite checkKey_length. unfold list_sum.
      destruct v; try discriminate E; simpl; lia.
Qed.

Lemma list_sum_positive {A : Type} (h : A -> nat) (l : list A) :
  list_sum (List.map h l) <> 0%nat <-> exists x, In x l /\ h x <> 0%nat.
Proof.
  induction l as [|x l IH]; simpl.
  - split; [congruence|]. intros (x & [] & _).
  - split.
    + intros H. destruct (Nat.eq_dec (h x) 0%nat) as [E|E].
      * rewrite E in H. apply IH in H as (y & Hy & Hh). eauto.
      * eauto.
    + intros (y & [->|Hy] & Hh); [lia|].
      assert (list_sum (List.map h l) <> 0%nat) by (apply IH; eauto). lia.
Qed.

(** [validateJsonStructure] accepts exactly the objects and the arrays; a
    scalar gets the one error and no warning. The warnings are those of the
    keys of the objects and of the indices of the arrays at every level, one
    for a key with an invalid character and one for a key that is a
    reserved name in upper case; [hasWarnings] tells whether there is such a
    key. *)
Theorem validateJsonStructure_report (jsonData : JsonValue) :
  isValid (validateJsonStructure toUpperCase jsonData) = is_container jsonData
  /\ (is_container jsonData = false ->
      errors (validateJsonStructure toUpperCase jsonData)
      = [js "Root element must be an object or array"]
      /\ warnings (validateJsonStructure toUpperCase jsonData) = [])
  /\ length (warnings (validateJsonStructure toUpperCase jsonData))
     = list_sum (List.map (key_warnings toUpperCase) (visited_keys jsonData))
  /\ (hasWarnings (validateJsonStructure toUpperCase jsonData) = true
      <-> exists key,
            In key (visited_keys jsonData)
            /\ (existsb is_invalid_char key = true
                \/ toUpperCase key ∈ reservedNames)).
Proof.
  assert (Hlen : length (warnings (validateJsonStructure toUpperCase jsonData))
                 = list_sum (List.map (key_warnings toUpperCase)
                               (visited_keys jsonData))).
  { unfold validateJsonStructure. cbn [warnings].
    destruct (is_container jsonData) eqn:E.
    - rewrite validateKeys_length. reflexivity.
    - destruct jsonData; try discriminate E; reflexivity. }
  repeat apply conj.
  - unfold validateJsonStructure. cbn [isValid].
    destruct (is_container jsonData); reflexivity.
  - intros E. unfold validateJsonStructure. rewrite E. split; reflexivity.
  - exact Hlen.
  - intros H. unfold validateJsonStructure in H. cbn [hasWarnings] in H.
    fold (warnings (validateJsonStructure toUpperCase jsonData)) in H.
    apply negb_true_iff, Nat.eqb_neq in H.
    unfold validateJsonStructure in Hlen. cbn [warnings] in Hlen, H.
    rewrite Hlen in H. apply list_sum_positive in H as (key & Hin & Hk).
    exists key. split; [exact Hin|]. unfold key_warnings in Hk.
    destruct (existsb is_invalid_char key); [auto|].
    destruct (bool_decide (toUpperCase key ∈ reservedNames)) eqn:Hr;
      [|simpl in Hk; congruence].
    right. apply bool_decide_eq_true_1 in Hr. exact Hr.
  - intros (key & Hin & Hk).
    unfold validateJsonStructure. cbn [hasWarnings].
    apply negb_true_iff, Nat.eqb_neq.
    unfold validateJsonStructure in Hlen. cbn [warnings] in Hlen.
    rewrite Hlen. apply list_sum_positive. exists key. split; [exact Hin|].
    unfold key_warnings. destruct Hk as [-> | Hk]; [lia|].
    rewrite (bool_decide_eq_true_2 _ Hk).
    destruct (existsb is_invalid_char key); lia.
Qed.

End ParserValidation.

(** *** Flattening a tree *)

Section ParserFlatten.

Variable Number_toString : spec_float -> jstring.






End ParserFlatten.

(** *** The methods of [TreeNode] on shared objects *)

Section NodeStore.

Import TreeNodeObjects.

(** The two counting methods have the same shape: below a node whose type
    satisfies [enters] the counts of the children are added to [init];
    another node counts [leaf]. *)
Variable enters : NodeType -> bool.
Variable leaf : nat.
Variable init : NodeType -> nat.
Variable count : nat -> Store -> nat -> option nat.

Hypothesis count_O : forall s this, count 0 s this = None.
Hypothesis count_S : forall fuel s this,
  count (S fuel) s this
  = match nodes s !! this with
    | Some node =>
        if enters (type node)
        then match arrays s !! children node with
             | Some array =>
                 fold_left (add_count (count fuel s)) array
                   (Some (init (type node)))
             | None => None
             end
        else Some leaf
    | None => None
    end.

Lemma fold_add_count_None (g : nat -> option nat) (l : list nat) :
  fold_left (add_count g) l None = None.
Proof. induction l as [|y l IH]; [reflexivity|exact IH]. Qed.

Lemma fold_add_count_stuck (g : nat -> option nat) (l : list nat) (y : nat) :
  y ∈ l -> g y = None -> forall total, fold_left (add_count g) l total = None.
Proof.
  induction l as [|z l IH]; intros Hy Hg total.
  - apply elem_of_nil in Hy. contradiction.
  - cbn [fold_left]. apply elem_of_cons in Hy as [<-|Hy].
    + unfold add_count at 2. rewrite Hg.
      destruct total; apply fold_add_count_None.
    + apply IH; assumption.
Qed.

Lemma fold_add_count_returns (g : nat -> option nat) (l : list nat) :
  forall total n,
    fold_left (add_count g) l total = Some n ->
    forall y, y ∈ l -> exists k, g y = Some k.
Proof.
  induction l as [|z l IH]; intros total n H y Hy.
  - apply elem_of_nil in Hy. contradiction.
  - cbn [fold_left] in H. apply elem_of_cons in Hy as [->|Hy].
    + destruct (g z) as [k|] eqn:E; [eauto|].
      unfold add_count at 2 in H. rewrite E in H.
      destruct total; rewrite fold_add_count_None in H; discriminate H.
    + eapply IH; eassumption.
Qed.

Lemma fold_add_count_ext (g g' : nat -> option nat) (l : list nat) :
  (forall y, y ∈ l -> g y = g' y) ->
  forall total,
    fold_left (add_count g) l total = fold_left (add_count g') l total.
Proof.
  induction l as [|z l IH]; intros H total; [reflexivity|].
  cbn [fold_left]. unfold add_count at 2 4.
  rewrite (H z) by (left; reflexivity).
  apply IH. intros y Hy. apply H. right. exact Hy.
Qed.

(** More fuel does not change a count that was returned. *)
Lemma count_more_fuel (s : Store) (fuel : nat) :
  forall this n, count fuel s this = Some n -> count (S fuel) s this = Some n.
Proof.
  induction fuel as [|fuel IH]; intros this n H.
  { rewrite count_O in H. discriminate H. }
  rewrite count_S in H. rewrite count_S.
  destruct (nodes s !! this) as [node|]; [|discriminate H].
  destruct (enters (type node)); [|exact H].
  destruct (arrays s !! children node) as [array|]; [|discriminate H].
  rewrite <- H. symmetry. apply fold_add_count_ext. intros y Hy.
  destruct (fold_add_count_returns _ _ _ _ H y Hy) as [k Hk].
  rewrite Hk. symmetry. apply IH, Hk.
Qed.

Lemma count_fuel_le (s : Store) (fuel fuel' : nat) (this n : nat) :
  (fuel <= fuel')%nat ->
  count fuel s this = Some n -> count fuel' s this = Some n.
Proof.
  induction 1 as [|fuel' _ IH]; intros H; [exact H|].
  apply count_more_fuel, IH, H.
Qed.

(** On an array that one of its own elements reads, no call that reads the
    array returns. *)
Lemma count_cycle (s : Store) (array : nat) (l : list nat) (y : nat) :
  arrays s !! array = Some l ->
  y ∈ l ->
  reads enters s array y ->
  forall fuel this, reads enters s array this -> count fuel s this = None.
Proof.
  intros Hl Hy Hry. induction fuel as [|fuel IH]; intros this Hr.
  { apply count_O. }
  rewrite count_S.
  destruct Hr as [this node Hn He Hc|this node l' child Hn He Hl' Hc Hr];
    rewrite Hn, He.
  - rewrite Hc, Hl. apply (fold_add_count_stuck _ _ y Hy). apply IH, Hry.
  - rewrite Hl'. apply (fold_add_count_stuck _ _ child Hc). apply IH, Hr.
Qed.

Section AddChild.

Variable s : Store.
Variable this : nat.
Variable child : nat.
Variable node : NodeObject.
Variable array : list nat.
Hypothesis Hthis : nodes s !! this = Some node.
Hypothesis Harray : arrays s !! children node = Some array.

Lemma addChild_store :
  addChild this child s
  = mkStore (nodes s) (<[children node := array ++ [child]]> (arrays s)).
Proof. unfold addChild. rewrite Hthis, Harray. reflexivity. Qed.

(** What the array of [this] is not read by counts as before. *)
Lemma count_addChild_frame (fuel : nat) :
  forall x n,
    count fuel s x = Some n ->
    ~ reads enters s (children node) x ->
    count fuel (addChild this child s) x = Some n.
Proof.
  rewrite addChild_store.
  induction fuel as [|fuel IH]; intros x n H Hr.
  { rewrite count_O in H. discriminate H. }
  rewrite count_S in H. rewrite count_S. cbn [nodes arrays].
  destruct (nodes s !! x) as [nx|] eqn:Hx; [|discriminate H].
  destruct (enters (type nx)) eqn:He; [|exact H].
  destruct (arrays s !! children nx) as [l|] eqn:Hl; [|discriminate H].
  assert (Hne : children node <> children nx).
  { intros E. apply Hr. eapply reads_own; eauto. }
  rewrite lookup_insert_ne by exact Hne. rewrite Hl.
  rewrite <- H. apply fold_add_count_ext. intros y Hy.
  destruct (fold_add_count_returns _ _ _ _ H y Hy) as [k Hk].
  rewrite Hk. apply IH; [exact Hk|].
  intros Hry. apply Hr. eapply reads_below; eauto.
Qed.

(** The arrays only grow. *)
Lemma reads_addChild (a x : nat) :
  reads enters s a x -> reads enters (addChild this child s) a x.
Proof.
  rewrite addChild_store.
  induction 1 as [x nx Hx He Hc|x nx l y Hx He Hl Hy _ IH].
  - eapply reads_own; eauto.
  - destruct (decide (children node = children nx)) as [E|Hne].
    + eapply (reads_below _ _ _ x nx (array ++ [child]) y); eauto.
      * cbn [arrays]. rewrite E. apply lookup_insert_eq.
      * rewrite <- E, Harray in Hl. injection Hl as <-.
        apply elem_of_app. left. exact Hy.
    + eapply (reads_below _ _ _ x nx l y); eauto.
      cbn [arrays]. rewrite lookup_insert_ne by exact Hne. exact Hl.
Qed.

(** The count after [addChild], when the child does not read the array of
    the node. *)
Lemma count_addChild (fuel fuel' n m : nat) :
  enters (type node) = true ->
  count fuel s this = Some n ->
  count fuel' s child = Some m ->
  ~ reads enters s (children node) child ->
  count (S (Nat.max fuel fuel')) (addChild this child s) this = Some (n + m)%nat.
Proof.
  intros He Hn Hm Hr.
  assert (Hn' : count (S (Nat.max fuel fuel')) s this = Some n).
  { apply (count_fuel_le s fuel); [lia|exact Hn]. }
  assert (Hm' : count (Nat.max fuel fuel') s child = Some m).
  { apply (count_fuel_le s fuel'); [lia|exact Hm]. }
  rewrite count_S in Hn'. rewrite Hthis, He, Harray in Hn'.
  assert (Hnodes : nodes (addChild this child s) = nodes s)
    by (rewrite addChild_store; reflexivity).
  assert (Harrays : arrays (addChild this child s)
                    = <[children node := array ++ [child]]> (arrays s))
    by (rewrite addChild_store; reflexivity).
  rewrite count_S, Hnodes, Harrays.
  rewrite Hthis, He, lookup_insert_eq, fold_left_app. cbn [fold_left].
  rewrite (fold_add_count_ext _ (count (Nat.max fuel fuel') s)).
  - rewrite Hn'. unfold add_count.
    rewrite (count_addChild_frame _ _ _ Hm' Hr). reflexivity.
  - intros y Hy.
    destruct (fold_add_count_returns _ _ _ _ Hn' y Hy) as [k Hk].
    rewrite Hk. apply count_addChild_frame; [exact Hk|].
    intros Hry.
    assert (Hcycle : count (S (Nat.max fuel fuel')) s this = None).
    { apply (count_cycle s (children node) array y Harray Hy Hry).
      eapply reads_own; eauto. }
    rewrite count_S, Hthis, He, Harray, Hn' in Hcycle. discriminate Hcycle.
Qed.

(** After [addChild] of a child that reads the array of the node, the count
    of the node never returns. *)
Lemma count_addChild_cycle :
  enters (type node) = true ->
  reads enters s (children node) child ->
  forall fuel, count fuel (addChild this child s) this = None.
Proof.
  intros He Hr fuel.
  apply (count_cycle (addChild this child s) (children node)
           (array ++ [child]) child).
  - rewrite addChild_store. cbn [arrays]. apply lookup_insert_eq.
  - apply elem_of_app. right. left.
  - apply reads_addChild, Hr.
  - apply reads_addChild. eapply reads_own; eauto.
Qed.

End AddChild.

End NodeStore.

Section NodeCounts.

Import TreeNodeObjects.

Lemma getFolderCount_S fuel s this :
  getFolderCount (S fuel) s this
  = match nodes s !! this with
    | Some node =>
        if every_node (type node)
        then match arrays s !! children node with
             | Some array =>
                 fold_left (add_count (getFolderCount fuel s)) array
                   (Some (match type node with folder => 1 | file => 0 end)%nat)
             | None => None
             end
        else Some 0%nat
    | None => None
    end.
Proof. reflexivity. Qed.

Lemma getFileCount_S fuel s this :
  getFileCount (S fuel) s this
  = match nodes s !! this with
    | Some node =>
        if is_folder (type node)
        then match arrays s !! children node with
             | Some array =>
                 fold_left (add_count (getFileCount fuel s)) array (Some 0%nat)
             | None => None
             end
        else Some 1%nat
    | None => None
    end.
Proof.
  cbn [getFileCount]. destruct (nodes s !! this) as [node|]; [|reflexivity].
  destruct (type node); reflexivity.
Qed.

(** [addChild] on objects. When the child does not lead back to the array
    of the node, the node counts afterwards its folders and those of the
    child; a folder counts its files and those of the child, and a file
    node still counts 1. When the child leads back to the array of the node,
    as the node itself does, there is a cycle afterwards and the counts of
    the node never return. *)
Theorem addChild_counts (s : Store) (this child : nat) (node : NodeObject)
  (array : list nat) :
  nodes s !! this = Some node ->
  arrays s !! children node = Some array ->
  (addChild this child s
   = mkStore (nodes s) (<[children node := array ++ [child]]> (arrays s)))
  /\ (forall fuel fuel' n m,
        getFolderCount fuel s this = Some n ->
        getFolderCount fuel' s child = Some m ->
        ~ reads every_node s (children node) child ->
        getFolderCount (S (Nat.max fuel fuel')) (addChild this child s) this
        = Some (n + m)%nat)
  /\ (forall fuel fuel' n m,
        type node = folder ->
        getFileCount fuel s this = Some n ->
        getFileCount fuel' s child = Some m ->
        ~ reads is_folder s (children node) child ->
        getFileCount (S (Nat.max fuel fuel')) (addChild this child s) this
        = Some (n + m)%nat)
  /\ (type node = file ->
      forall fuel, getFileCount (S fuel) (addChild this child s) this
                   = Some 1%nat)
  /\ (reads every_node s (children node) child ->
      forall fuel, getFolderCount fuel (addChild this child s) this = None)
  /\ (type node = folder ->
      reads is_folder s (children node) child ->
      forall fuel, getFileCount fuel (addChild this child s) this = None)
  /\ (forall fuel, getFolderCount fuel (addChild this this s) this = None).
Proof.
  intros Hthis Harray.
  pose (folders := fun t : NodeType =>
                     match t with folder => 1 | file => 0 end%nat).
  pose (files := fun _ : NodeType => 0%nat).
  repeat apply conj.
  - apply addChild_store; assumption.
  - intros fuel fuel' n m Hn Hm Hr.
    apply (count_addChild every_node 0%nat folders getFolderCount
             (fun _ _ => eq_refl) getFolderCount_S s this child node array);
      auto.
  - intros fuel fuel' n m Ht Hn Hm Hr.
    apply (count_addChild is_folder 1%nat files getFileCount
             (fun _ _ => eq_refl) getFileCount_S s this child node array);
      auto.
    rewrite Ht. reflexivity.
  - intros Ht fuel. rewrite getFileCount_S.
    rewrite (addChild_store s this child node array Hthis Harray).
    cbn [nodes]. rewrite Hthis, Ht. reflexivity.
  - intros Hr fuel.
    apply (count_addChild_cycle every_node 0%nat folders getFolderCount
             (fun _ _ => eq_refl) getFolderCount_S s this child node array);
      auto.
  - intros Ht Hr fuel.
    apply (count_addChild_cycle is_folder 1%nat files getFileCount
             (fun _ _ => eq_refl) getFileCount_S s this child node array);
      auto.
    rewrite Ht. reflexivity.
  - intros fuel.
    apply (count_addChild_cycle every_node 0%nat folders getFolderCount
             (fun _ _ => eq_refl) getFolderCount_S s this this node array);
      auto.
    eapply reads_own; eauto.
Qed.

End NodeCounts.

(** The folder [d] gets the file [e] as a child: it counts one file then;
    put below itself, its counts never return. *)
Lemma addChild_counts_witness :
  TreeNodeObjects.getFileCount 3
    (TreeNodeObjects.addChild 0 1 TreeNodeObjects.two_nodes) 0
  = Some 1%nat
  /\ forall fuel,
       TreeNodeObjects.getFolderCount fuel
         (TreeNodeObjects.addChild 0 0 TreeNodeObjects.two_nodes) 0
       = None.
Proof.
  split.
  - apply (proj1 (proj2 (proj2
             (addChild_counts TreeNodeObjects.two_nodes 0 1
                (TreeNodeObjects.mkNodeObject (js "d") folder JNull 0) []
                ltac:(reflexivity) ltac:(reflexivity))))
             2%nat 1%nat 0%nat 1%nat);
      try reflexivity.
    intros H. inversion H as [x nx Hx He Hc|x nx l y Hx He Hl Hy Hr];
      vm_compute in Hx; injection Hx as <-; discriminate He.
  - apply (addChild_counts TreeNodeObjects.two_nodes 0 0
             (TreeNodeObjects.mkNodeObject (js "d") folder JNull 0) []);
      reflexivity.
Defined.

Lemma parseJsonInput_outcome_witness :
  parseJsonInput toy_parse (js "   ")
  = mkParseResult false (Some (js "JSON input cannot be empty")) None.
Proof.
  apply (proj2 (proj2 (proj2 (parseJsonInput_outcome toy_parse (js "   "))))).
  reflexivity.
Defined.

Lemma validateJsonStructure_report_witness :
  errors (validateJsonStructure ascii_toUpperCase (JString (js "x")))
  = [js "Root element must be an object or array"]
  /\ warnings (validateJsonStructure ascii_toUpperCase (JString (js "x"))) = [].
Proof.
  apply (proj1 (proj2 (validateJsonStructure_report ascii_toUpperCase
                         (JString (js "x"))))).
  reflexivity.
Defined.


Example validateJsonStructure_example :
  warnings
    (validateJsonStructure ascii_toUpperCase
       (JArray [JObject [(js "con", JNull); (js "a?b", JNull)]]))
  = [reservedNameWarning (js "con") (js "0/con");
     invalidCharsWarning (js "a?b") (js "0/a?b")].
Proof. reflexivity. Qed.

(** ** The later revision of the generator *)

Section SmartGenerator.

Variable clock : nat -> jstring.

Lemma for_indexed_ext {A St : Type} (body body' : nat -> A -> St -> St)
  (l : list A) :
  Forall (fun x => forall i st, body i x st = body' i x st) l ->
  forall i st, for_indexed body i l st = for_indexed body' i l st.
Proof.
  induction 1 as [|x l Hx _ IH]; intros i st; simpl; [reflexivity|].
  rewrite Hx. apply IH.
Qed.

Lemma fold_left_ext_Forall {A St : Type} (body body' : St -> A -> St)
  (l : list A) :
  Forall (fun x => forall st, body st x = body' st x) l ->
  forall st, fold_left body l st = fold_left body' l st.
Proof.
  induction 1 as [|x l Hx _ IH]; intros st; simpl; [reflexivity|].
  rewrite Hx. apply IH.
Qed.

Lemma smart_processJsonNode_config (v : JsonValue) :
  forall folder path config config' zip,
    timestampFiles config = timestampFiles config' ->
    Smart.processJsonNode clock folder v path config zip
    = Smart.processJsonNode clock folder v path config' zip.
Proof.
  induction v as [| b | x | s | items IH | members IH] using JsonValue_ind;
    intros folder path config config' zip Hts; try reflexivity.
  - destruct items as [|item items]; [reflexivity|].
    cbn [Smart.processJsonNode]. apply for_indexed_ext.
    eapply Forall_impl; [exact IH|]. intros v Hv i st. cbv beta zeta.
    destruct (is_container v); [apply Hv, Hts|reflexivity].
  - destruct members as [|member members]; [reflexivity|].
    cbn [Smart.processJsonNode]. apply fold_left_ext_Forall.
    eapply Forall_impl; [exact IH|]. intros [key v] Hv st.
    cbn [fst snd] in *. cbv zeta.
    destruct v as [| b | x | s | l | [|m ms]];
      rewrite <- ?Hts; try reflexivity; apply Hv, Hts.
Qed.

(** In the later revision the option [fileExtension] has no effect: the
    calls on the archive, and so the archive, are the same whatever
    extension the caller configures. *)
Theorem smart_fileExtension_unused (jsonData : JsonValue) (rootName : jstring)
  (options : Options) (extension : option jstring) :
  Smart.generateZipCalls clock jsonData rootName
    (with_fileExtension extension options)
  = Smart.generateZipCalls clock jsonData rootName options
  /\ Smart.generateZipFromJson clock jsonData rootName
       (with_fileExtension extension options)
     = Smart.generateZipFromJson clock jsonData rootName options.
Proof.
  assert (E : Smart.generateZipCalls clock jsonData rootName
                (with_fileExtension extension options)
              = Smart.generateZipCalls clock jsonData rootName options).
  { unfold Smart.generateZipCalls. cbv zeta.
    rewrite (smart_processJsonNode_config jsonData _ _
               (mergeConfig (with_fileExtension extension options))
               (mergeConfig options)) by reflexivity.
    reflexivity. }
  split; [exact E|]. unfold Smart.generateZipFromJson. rewrite E. reflexivity.
Qed.

Lemma smart_processJsonNode_writes (v : JsonValue) :
  forall folder path config zip depth,
    writes (Smart.processJsonNode clock folder v path config zip)
    = (writes zip + (fileCount (analyzeJsonStructure v depth)
                     + emptyContainers v))%nat.
Proof.
  induction v as [| b | x | s | items IH | members IH] using JsonValue_ind;
    intros folder path config zip depth;
    try (cbn [Smart.processJsonNode]; rewrite writes_zip_file; simpl; lia).
  - destruct items as [|item items];
      [cbn [Smart.processJsonNode]; rewrite writes_zip_file; simpl; lia|].
    rewrite emptyContainers_array by discriminate.
    cbn [Smart.processJsonNode analyzeJsonStructure].
    rewrite fileCount_fold. cbn [fileCount Nat.add].
    rewrite <- list_sum_map_plus.
    apply (for_indexed_measure _ writes).
    eapply Forall_impl; [exact IH|]. intros v Hv i st. cbv beta zeta.
    destruct (is_container v) eqn:E.
    + rewrite (Hv _ _ _ _ (depth + 1)%nat), writes_zip_folder. reflexivity.
    + rewrite writes_zip_file.
      destruct (scalar_counts v (depth + 1) E) as [-> ->]. lia.
  - destruct members as [|member members];
      [cbn [Smart.processJsonNode]; rewrite writes_zip_file; simpl; lia|].
    rewrite emptyContainers_object by discriminate.
    cbn [Smart.processJsonNode analyzeJsonStructure].
    rewrite fileCount_fold. cbn [fileCount Nat.add].
    rewrite <- list_sum_map_plus.
    apply (fold_left_measure _ writes).
    eapply Forall_impl; [exact IH|]. intros [key v] Hv st.
    cbn [fst snd] in *. cbv zeta.
    destruct v as [| b | x | s | l | [|m ms]];
      try (destruct (timestampFiles config); rewrite writes_zip_file;
           simpl; lia);
      try (rewrite writes_zip_file; simpl; lia);
      rewrite (Hv _ _ _ _ (depth + 1)%nat), writes_zip_folder; reflexivity.
Qed.

Lemma smart_fileLeaves (v : JsonValue) :
  forall name depth depth',
    fileLeaves (Smart.createFileStructure v name depth)
    = (fileCount (analyzeJsonStructure v depth') + emptyContainers v)%nat.
Proof.
  induction v as [| b | x | s | items IH | members IH] using JsonValue_ind;
    intros name depth depth'; try reflexivity.
  - destruct items as [|item items]; [reflexivity|].
    rewrite emptyContainers_array by discriminate.
    cbn [Smart.createFileStructure analyzeJsonStructure fileLeaves].
    rewrite fileCount_fold. cbn [fileCount Nat.add].
    rewrite <- list_sum_map_plus.
    apply list_sum_forEach_indexed.
    eapply Forall_impl; [exact IH|]. intros v Hv i. cbv beta.
    destruct (is_container v) eqn:E; [apply Hv|].
    destruct (scalar_counts v (depth' + 1) E) as [-> ->]. reflexivity.
  - destruct members as [|member members]; [reflexivity|].
    rewrite emptyContainers_object by discriminate.
    cbn [Smart.createFileStructure analyzeJsonStructure fileLeaves].
    rewrite fileCount_fold. cbn [fileCount Nat.add].
    rewrite <- list_sum_map_plus, List.map_map.
    apply list_sum_map_ext.
    eapply Forall_impl; [exact IH|]. intros [key v] Hv. cbn [fst snd] in *.
    destruct (is_container v) eqn:E; [apply Hv|].
    destruct (scalar_counts v (depth' + 1) E) as [-> ->]. reflexivity.
Qed.

(** In the later revision too, the preview has as many file nodes as the
    generator writes data files: one per scalar and one per empty object or
    array; the archive has at most that many file entries besides the README
    and the metadata. *)
Theorem smart_preview_and_archive_counts (jsonData : JsonValue)
  (rootName name : jstring) (options : Options) :
  let expected :=
    (fileCount (analyzeJsonStructure jsonData 0) + emptyContainers jsonData)%nat in
  let extras :=
    ((if includeMetadata (mergeConfig options) then 1 else 0)
     + (if createReadme (mergeConfig options) then 1 else 0))%nat in
  fileLeaves (Smart.createFileStructure jsonData name 0) = expected
  /\ writes (Smart.generateZipCalls clock jsonData rootName options)
     = (expected + extras)%nat
  /\ (size (file_entries
              (Smart.generateZipFromJson clock jsonData rootName options))
      <= expected + extras)%nat.
Proof.
  cbv zeta.
  assert (Hw : writes (Smart.generateZipCalls clock jsonData rootName options)
               = (fileCount (analyzeJsonStructure jsonData 0)
                  + emptyContainers jsonData
                  + ((if includeMetadata (mergeConfig options) then 1 else 0)
                     + (if createReadme (mergeConfig options) then 1 else 0)))%nat).
  { unfold Smart.generateZipCalls. cbv zeta.
    pose proof (smart_processJsonNode_writes jsonData
                  (fst (zip_folder [] rootName [])) [] (mergeConfig options)
                  (snd (zip_folder [] rootName [])) 0) as H.
    rewrite writes_zip_folder in H. change (writes []) with 0%nat in H.
    destruct (createReadme (mergeConfig options)),
      (includeMetadata (mergeConfig options));
      rewrite ?writes_zip_file, H; lia. }
  split; [apply smart_fileLeaves|]. split; [exact Hw|].
  unfold Smart.generateZipFromJson. rewrite <- Hw.
  apply size_file_entries_generateAsync_le.
Qed.

Variable JSON_parse : jstring -> ParseOutcome.

(** [generateZipFile] does not look at [parsedStructure]. When the text
    does not parse it throws [Failed to generate ZIP: ] with the message of
    the parser; when it parses, it saves under the given file name an
    archive with the README and the metadata of the project in the folder
    [project]. *)
Theorem generateZipFile_outcome (parsedStructure : JsonValue)
  (jsonInput filename : jstring) :
  (forall other,
      Smart.generateZipFile clock JSON_parse other jsonInput filename
      = Smart.generateZipFile clock JSON_parse parsedStructure jsonInput filename)
  /\ (forall message,
        JSON_parse jsonInput = Throws message ->
        Smart.generateZipFile clock JSON_parse parsedStructure jsonInput filename
        = Smart.Failed (js "Failed to generate ZIP: " ++ message))
  /\ (forall jsonData,
        JSON_parse jsonInput = Parsed jsonData ->
        exists archive,
          Smart.generateZipFile clock JSON_parse parsedStructure jsonInput filename
          = Smart.Saved filename archive
          /\ archive !! js "project/README.md"
             = Some (FileEntry
                       (Readme (js "project") (analyzeJsonStructure jsonData 0)))
          /\ archive !! js "project/_metadata.json"
             = Some (FileEntry
                       (Metadata (js "project") jsonData
                          (analyzeJsonStructure jsonData 0)))).
Proof.
  repeat apply conj.
  - reflexivity.
  - intros message H. unfold Smart.generateZipFile. rewrite H. reflexivity.
  - intros jsonData H. unfold Smart.generateZipFile. rewrite H.
    eexists. split; [reflexivity|].
    unfold Smart.generateZipFromJson, Smart.generateZipCalls. cbv zeta.
    cbn [mergeConfig createReadme includeMetadata default opt_createReadme
           opt_includeMetadata from_option id].
    change (fst (zip_folder [] (js "project") [])) with (js "project/").
    split; rewrite generateAsync_lookup_file by reflexivity.
    + unfold zip_file at 1. apply zip_files_snoc_other; [discriminate|].
      apply zip_files_snoc_file.
    + apply zip_files_snoc_file.
Qed.

End SmartGenerator.

Lemma generateZipFile_outcome_witness :
  Smart.generateZipFile frozen_clock toy_parse JNull (js "{") (js "out.zip")
  = Smart.Failed (js "Failed to generate ZIP: " ++ js "Unexpected token").
Proof.
  apply (proj1 (proj2 (generateZipFile_outcome frozen_clock toy_parse JNull
                         (js "{") (js "out.zip")))).
  reflexivity.
Defined.

(** ** The upload handler *)

Section UploadHandler.

Variable Date_now : nat.
Variable createPresignedUrl : jstring -> JsonValue -> jstring.

Lemma upload_unit_digit d : (d < 10)%nat -> upload_unit (digit d).
Proof.
  intros H. left. do 10 (destruct d as [|d]; [reflexivity|]). lia.
Qed.

Lemma upload_unit_digits fuel : forall n, Forall upload_unit (digits fuel n).
Proof.
  induction fuel as [|fuel IH]; intros n; cbn [digits]; [constructor|].
  destruct (Nat.ltb_spec n 10) as [Hlt|Hge].
  - constructor; [apply upload_unit_digit, Hlt|constructor].
  - apply Forall_app. split; [apply IH|].
    constructor; [|constructor]. apply upload_unit_digit.
    apply Nat.mod_upper_bound. discriminate.
Qed.

Lemma upload_unit_not_slash_or_space c :
  upload_unit c -> c <> slash /\ is_space c = false /\ is_forbidden c = false.
Proof.
  intros [H| ->]; [|repeat split; discriminate].
  unfold is_upload_safe in H.
  repeat rewrite ?orb_true_iff, ?andb_true_iff, ?N.leb_le, ?N.eqb_eq in H.
  repeat split.
  - intros ->. unfold slash in H. lia.
  - apply not_true_is_false. unfold is_space.
    repeat rewrite ?orb_true_iff, ?andb_true_iff, ?N.leb_le, ?N.eqb_eq. lia.
  - apply not_true_is_false. unfold is_forbidden.
    repeat rewrite ?orb_true_iff, ?andb_true_iff, ?N.leb_le, ?N.eqb_eq. lia.
Qed.

Lemma sanitizeUploadName_units (s : jstring) :
  Forall upload_unit (sanitizeUploadName s).
Proof.
  induction s as [|c s IH]; [constructor|].
  unfold sanitizeUploadName in *. cbn [replace_each flat_map].
  destruct (is_upload_safe c) eqn:E; cbn [negb app]; constructor;
    try exact IH; [left; exact E|right; reflexivity].
Qed.

Lemma sanitizeUploadName_kept (s : jstring) :
  Forall upload_unit s -> sanitizeUploadName s = s.
Proof.
  intros H. induction H as [|c s Hc _ IH]; [reflexivity|].
  unfold sanitizeUploadName, replace_each in *. cbn [flat_map].
  rewrite IH. destruct Hc as [-> | ->]; reflexivity.
Qed.

(** The sanitizer of the upload handler keeps the length of the name and
    leaves only letters, digits, full stops, hyphens and underscores; a
    second pass changes nothing, and a name made of such units is kept as
    it is. *)
Theorem sanitizeUploadName_result (name : jstring) :
  length (sanitizeUploadName name) = length name
  /\ Forall upload_unit (sanitizeUploadName name)
  /\ sanitizeUploadName (sanitizeUploadName name) = sanitizeUploadName name
  /\ (Forall upload_unit name -> sanitizeUploadName name = name).
Proof.
  repeat apply conj.
  - apply replace_each_length.
  - apply sanitizeUploadName_units.
  - apply sanitizeUploadName_kept, sanitizeUploadName_units.
  - apply sanitizeUploadName_kept.
Qed.

(** The handler grants an upload exactly to a POST request whose [filename]
    is a string that is not empty. The key is then [uploads/], the time, a
    hyphen and the sanitized name: after [uploads/] it holds no slash, no
    white space and none of the characters forbidden in file names; the
    public address is the endpoint, the bucket and the key. *)
Theorem uploadHandler_grant (req : UploadRequest) :
  (upload_status (uploadHandler Date_now createPresignedUrl req) = 200%nat
   <-> upload_method req = js "POST"
       /\ exists fields name,
            upload_body req = Some fields
            /\ filename fields = Some (JString name) /\ name <> [])
  /\ (forall uploadUrl publicUrl key expiresIn,
        upload_sent (uploadHandler Date_now createPresignedUrl req)
        = UploadGranted uploadUrl publicUrl key expiresIn ->
        upload_status (uploadHandler Date_now createPresignedUrl req) = 200%nat
        /\ expiresIn = 3600%nat
        /\ publicUrl = R2_endpoint ++ js "/" ++ R2_bucketName ++ js "/" ++ key
        /\ exists name rest,
             key = uploadKey Date_now name
             /\ key = js "uploads/" ++ rest
             /\ length rest
                = (length (index_toString Date_now) + 1 + length name)%nat
             /\ Forall (fun c => c <> slash /\ is_space c = false
                                 /\ is_forbidden c = false) rest).
Proof.
  unfold uploadHandler.
  destruct (bool_decide (upload_method req = js "POST")) eqn:Hm; cbn [negb].
  2: { apply bool_decide_eq_false_1 in Hm. split.
       - cbn. split; [discriminate|]. intros [H _]. contradiction.
       - cbn. discriminate. }
  apply bool_decide_eq_true_1 in Hm.
  destruct (upload_body req) as [fields|].
  2: { split; cbn; [|discriminate]. split; [discriminate|].
       intros (_ & f & n & H & _). discriminate H. }
  destruct (filename fields) as [value|] eqn:Hf.
  2: { split; cbn; [|discriminate]. split; [discriminate|].
       intros (_ & f & n & [= <-] & H & _). congruence. }
  destruct value as [| b | x | name | items | members];
    try (split; cbn;
         [split;
          [try discriminate; destruct b; discriminate
          |intros (_ & f & n & [= <-] & H & _); congruence]
         |try discriminate; destruct b; discriminate]).
  - (* a number *)
    split.
    + split.
      * destruct x; cbn; discriminate.
      * intros (_ & f & n & [= <-] & H & _). congruence.
    + destruct x; cbn; discriminate.
  - (* a string *)
    destruct name as [|c name].
    + split; cbn; [|discriminate]. split; [discriminate|].
      intros (_ & f & n & [= <-] & H & Hne). rewrite Hf in H.
      injection H as <-. congruence.
    + cbn [truthy length Nat.eqb negb]. cbv zeta.
      cbn [upload_status upload_sent]. split.
      * split; [|reflexivity]. intros _. split; [exact Hm|].
        exists fields, (c :: name). repeat split; [exact Hf|discriminate].
      * intros uploadUrl publicUrl key expiresIn [= <- <- <- <-].
        repeat split.
        exists (c :: name),
          (index_toString Date_now ++ js "-" ++ sanitizeUploadName (c :: name)).
        repeat split.
        -- rewrite !length_app.
           unfold sanitizeUploadName at 1. rewrite replace_each_length.
           change (length (js "-")) with 1%nat. lia.
        -- eapply Forall_impl; [|intros u; apply upload_unit_not_slash_or_space].
           apply Forall_app. split; [apply upload_unit_digits|].
           apply Forall_app. split; [repeat constructor; left; reflexivity|].
           apply sanitizeUploadName_units.
Qed.

End UploadHandler.

Lemma sanitizeUploadName_result_witness :
  sanitizeUploadName (js "report-2024.v1_final.zip")
  = js "report-2024.v1_final.zip".
Proof.
  apply (proj2 (proj2 (proj2
           (sanitizeUploadName_result (js "report-2024.v1_final.zip"))))).
  repeat constructor; (left; reflexivity) || (right; reflexivity).
Defined.

Lemma uploadHandler_grant_witness :
  upload_status
    (uploadHandler 1700 (fun key _ => key)
       (mkUploadRequest (js "POST")
          (Some (mkUploadBody (Some (JString (js "my file.zip"))) None))))
  = 200%nat.
Proof.
  apply (proj1 (uploadHandler_grant 1700 (fun key _ => key)
                  (mkUploadRequest (js "POST")
                     (Some (mkUploadBody (Some (JString (js "my file.zip")))
                              None))))).
  split; [reflexivity|]. eexists _, _. repeat split. discriminate.
Defined.

(** ** The tree of the preview component *)

Section PreviewComponent.

Lemma parseJsonToTree_counts (v : JsonValue) :
  forall path depth,
    is_container v = true ->
    list_sum (List.map item_files (parseJsonToTree v path))
    = fileCount (analyzeJsonStructure v depth)
    /\ S (list_sum (List.map item_folders (parseJsonToTree v path)))
       = (objectCount (analyzeJsonStructure v depth)
          + arrayCount (analyzeJsonStructure v depth))%nat.
Proof.
  induction v as [| b | x | s | items IH | members IH] using JsonValue_ind;
    intros path depth Hc; try discriminate Hc.
  - cbn [parseJsonToTree analyzeJsonStructure].
    rewrite fileCount_fold.
    destruct (stats_fold (fun item => analyzeJsonStructure item (depth + 1))
                items {| objectCount := 0; arrayCount := 1; fileCount := 0;
                         maxDepth := depth |}) as (-> & -> & _).
    cbn [objectCount arrayCount fileCount Nat.add]. split.
    + apply list_sum_forEach_indexed.
      eapply Forall_impl; [exact IH|]. intros v Hv i. cbv beta zeta.
      destruct (is_container v) eqn:E.
      * cbn [item_files]. apply Hv. exact E.
      * destruct v; try discriminate E; reflexivity.
    + rewrite (list_sum_forEach_indexed _ item_folders
                 (fun item =>
                    (objectCount (analyzeJsonStructure item (depth + 1))
                     + arrayCount (analyzeJsonStructure item (depth + 1)))%nat)).
      * rewrite list_sum_map_plus. lia.
      * eapply Forall_impl; [exact IH|]. intros v Hv i. cbv beta zeta.
        destruct (is_container v) eqn:E.
        -- cbn [item_folders]. apply Hv. exact E.
        -- destruct v; try discriminate E; reflexivity.
  - cbn [parseJsonToTree analyzeJsonStructure].
    rewrite fileCount_fold.
    destruct (stats_fold
                (fun member => analyzeJsonStructure (snd member) (depth + 1))
                members {| objectCount := 1; arrayCount := 0; fileCount := 0;
                           maxDepth := depth |}) as (-> & -> & _).
    cbn [objectCount arrayCount fileCount Nat.add]. rewrite !List.map_map.
    split.
    + apply list_sum_map_ext.
      eapply Forall_impl; [exact IH|]. intros [key v] Hv. cbn [fst snd] in *.
      cbv zeta. destruct (is_container v) eqn:E.
      * cbn [item_files]. apply Hv. reflexivity.
      * destruct v; try discriminate E; reflexivity.
    + rewrite (list_sum_map_ext _
                 (fun member : jstring * JsonValue =>
                    (objectCount (analyzeJsonStructure (snd member) (depth + 1))
                     + arrayCount (analyzeJsonStructure (snd member) (depth + 1)))%nat)).
      * rewrite list_sum_map_plus. lia.
      * eapply Forall_impl; [exact IH|]. intros [key v] Hv. cbn [fst snd] in *.
        cbv zeta. destruct (is_container v) eqn:E.
        -- cbn [item_folders]. apply Hv. reflexivity.
        -- destruct v; try discriminate E; reflexivity.
Qed.

Lemma parseJsonToTree_paths (v : JsonValue) :
  forall path, forallb (paths_extend path) (parseJsonToTree v path) = true.
Proof.
  induction v as [| b | x | s | items IH | members IH] using JsonValue_ind;
    intros path; try reflexivity.
  - cbn [parseJsonToTree]. apply forallb_forEach_indexed.
    eapply Forall_impl; [exact IH|]. intros v Hv i. cbv beta zeta.
    destruct (is_container v); cbn [paths_extend forallb];
      rewrite startsWith_app, ?Hv; reflexivity.
  - cbn [parseJsonToTree]. rewrite forallb_forall. intros item Hin.
    apply in_map_iff in Hin as ([key v] & <- & Hin).
    rewrite Forall_forall in IH.
    specialize (IH (key, v) ltac:(apply list_elem_of_In; exact Hin)).
    cbn [fst snd] in *. cbv zeta.
    assert (Hp : startsWith
                   match path with [] => key | _ :: _ => path ++ js "/" ++ key end
                   path = true).
    { destruct path; [destruct key; reflexivity|apply startsWith_app]. }
    destruct (is_container v); cbn [paths_extend forallb];
      apply andb_true_intro; split;
      [exact Hp|apply IH|exact Hp|reflexivity].
Qed.

(** The tree of the preview component shows an object or array without its
    root: it has one file node per scalar and one folder node per object or
    array below the root, and the path of every node extends the path of its
    parent. For a scalar it shows nothing. *)
Theorem parseJsonToTree_shape (data : JsonValue) (path : jstring) :
  (is_container data = true ->
   list_sum (List.map item_files (parseJsonToTree data path))
   = fileCount (analyzeJsonStructure data 0)
   /\ S (list_sum (List.map item_folders (parseJsonToTree data path)))
      = (objectCount (analyzeJsonStructure data 0)
         + arrayCount (analyzeJsonStructure data 0))%nat)
  /\ forallb (paths_extend path) (parseJsonToTree data path) = true
  /\ (is_container data = false -> parseJsonToTree data path = []).
Proof.
  repeat apply conj.
  - apply parseJsonToTree_counts.
  - apply parseJsonToTree_paths.
  - intros H. destruct data; try discriminate H; reflexivity.
Qed.

Lemma parseJsonToTree_shape_witness :
  list_sum (List.map item_files (parseJsonToTree sample_value []))
  = fileCount (analyzeJsonStructure sample_value 0)
  /\ S (list_sum (List.map item_folders (parseJsonToTree sample_value [])))
     = (objectCount (analyzeJsonStructure sample_value 0)
        + arrayCount (analyzeJsonStructure sample_value 0))%nat.
Proof.
  apply (proj1 (parseJsonToTree_shape sample_value [])). reflexivity.
Defined.

End PreviewComponent.

(** ** Strings that look like HTML *)

Section HtmlStrings.

Lemma json_ws_is_space c : JSONText.is_ws c = true -> is_space c = true.
Proof.
  unfold JSONText.is_ws.
  rewrite !orb_true_iff, !N.eqb_eq. intros [[[-> | ->] | ->] | ->]; reflexivity.
Qed.

Lemma trimStart_suffix (s : jstring) : exists p, s = p ++ trimStart s.
Proof.
  induction s as [|c s [p IH]]; [exists []; reflexivity|].
  cbn [trimStart]. destruct (is_space c).
  - exists (c :: p). cbn [app]. f_equal. exact IH.
  - exists []. reflexivity.
Qed.

Lemma trim_head (s : jstring) :
  startsWith (trim s) (js "<") = true -> head (trimStart s) = Some 60.
Proof.
  intros H. apply startsWith_prefix in H as [rest H].
  unfold trim in H.
  destruct (trimStart_suffix (reverse (trimStart s))) as [p E].
  apply (f_equal reverse) in E. rewrite reverse_involutive, reverse_app in E.
  rewrite H in E. rewrite E. reflexivity.
Qed.

Lemma skip_ws_of_html (s : jstring) :
  head (trimStart s) = Some 60 ->
  exists c t,
    JSONText.skip_ws s = c :: t
    /\ JSONText.is_ws c = false /\ (c = 60 \/ is_space c = true).
Proof.
  induction s as [|c s IH]; [discriminate|].
  cbn [trimStart JSONText.skip_ws]. intros H.
  destruct (JSONText.is_ws c) eqn:E.
  - rewrite (json_ws_is_space c E) in H. apply IH, H.
  - exists c, s. split; [reflexivity|]. split; [exact E|].
    destruct (is_space c); [auto|]. injection H as ->. auto.
Qed.

(** No JSON text begins with the less-than sign or with white space that
    JSON does not know. *)
Lemma scan_value_bad_start fuel (s : jstring) c t :
  JSONText.skip_ws s = c :: t ->
  JSONText.is_ws c = false ->
  c = 60 \/ is_space c = true ->
  JSONText.scan_value fuel s = None.
Proof.
  intros Hs Hws Hc. destruct fuel as [|fuel]; [reflexivity|].
  assert (Hne : c <> 91 /\ c <> 123 /\ c <> 34 /\ c <> 116 /\ c <> 102
                /\ c <> 110 /\ c <> 45 /\ c <> 48 /\ ~ (48 <= c /\ c <= 57)).
  { destruct Hc as [-> | Hc]; [lia|].
    unfold is_space in Hc.
    repeat rewrite ?orb_true_iff, ?andb_true_iff, ?N.leb_le, ?N.eqb_eq in Hc.
    lia. }
  destruct Hne as (H1 & H2 & H3 & H4 & H5 & H6 & H7 & H8 & H9).
  apply N.eqb_neq in H1, H2, H3, H4, H5, H6, H7, H8.
  assert (Hd : JSONText.is_digit c = false).
  { apply not_true_is_false. unfold JSONText.is_digit.
    rewrite andb_true_iff, !N.leb_le. exact H9. }
  cbn [JSONText.scan_value]. rewrite Hs, H1, H2, H3, H4, H5, H6.
  unfold JSONText.scan_number. rewrite H7, H8, Hd. reflexivity.
Qed.

(** A string that looks like HTML never parses as JSON, so both
    classifiers give it the extension [.html]. *)
Theorem html_is_never_json (s : jstring) :
  looks_like_html s = true ->
  JSONText.parses s = false
  /\ getFileExtension (JString s) = js ".html"
  /\ getSmartFileExtension (JString s) = js ".html".
Proof.
  intros H. unfold looks_like_html in H.
  assert (Hp : JSONText.parses s = false).
  { apply andb_true_iff in H as [H _].
    destruct (skip_ws_of_html s (trim_head s H)) as (c & t & Hs & Hws & Hc).
    unfold JSONText.parses.
    rewrite (scan_value_bad_start _ s c t Hs Hws Hc). reflexivity. }
  split; [exact Hp|]. unfold getFileExtension, getSmartFileExtension.
  cbv zeta. rewrite Hp, H. split; reflexivity.
Qed.

Lemma html_is_never_json_witness :
  JSONText.parses (js "  <p>1</p> ") = false
  /\ getFileExtension (JString (js "  <p>1</p> ")) = js ".html"
  /\ getSmartFileExtension (JString (js "  <p>1</p> ")) = js ".html".
Proof. apply (html_is_never_json (js "  <p>1</p> ")). reflexivity. Defined.

End HtmlStrings.
